(** * Multi-agent customer service: the router and its two specialist agents

    A shallow embedding of [agents/router_agent.py], [agents/data_agent.py],
    [agents/support_agent.py], [mcp_server/server.py] and
    [mcp_server/database.py], and the properties of the routing engine.

    Conventions of the model.
    - A Python [str] is a [string]; the model covers ASCII text: [lower],
      [upper] and the regular-expression classes act on the ASCII range and
      leave every other character alone, where Python's act on all of
      Unicode.  What is proved about the identifier a query carries is
      stated for ASCII queries.
    - A Python [int] is a [Z].  [Py.int s] is the value of the digits of
      [s].  The interpreter refuses to convert more than 4300 digits unless
      that limit is lifted: [RouterAgent] is the router with the limit
      lifted, [Limit] the router under the limit, where [int] raises and the
      exception leaves [process_query].  The two agree on every query whose
      identifier has at most 4300 digits.
    - [re.search] is a backtracking matcher over the fragment of regular
      expressions the sources use (literals, greedy bounded repetition of a
      character class, [\b], one capture group).
    - Python exceptions are values of [exn]; code that may raise lives in an
      error monad, [try ... except] is a handler.
    - A dict with a fixed set of keys is a record, a dict that comes in
      several shapes a variant with one constructor for each shape; reading
      a key that a shape lacks raises.
    - The router's mutable fields, the database behind the MCP server and the
      wall clock are the components of [world]; router methods are state
      transformers over it.  [print] is not modelled, so the agents' own
      [log] methods (which only print) leave no mark.
    - The schema is set up outside these sources ([database_setup]); the
      columns are taken to hold integers and text as the tool schemas of
      [server.py] declare them. *)

From Stdlib Require Import Bool Arith NArith ZArith List Ascii String Lia.
From Stdlib Require Import Numbers.DecimalString.
From Stdlib Require Import Sorting.Permutation Sorting.Sorted.
Import ListNotations.
Local Open Scope string_scope.

Set Implicit Arguments.

(** ** Python strings *)

Module Py.

Definition nl : string := String (ascii_of_N 10) "".

Definition code (c : ascii) : N := N_of_ascii c.

Definition between (lo hi : N) (c : ascii) : bool :=
  ((lo <=? code c) && (code c <=? hi))%N.

Definition is_upper : ascii -> bool := between 65 90.
Definition is_lower : ascii -> bool := between 97 122.
Definition is_digit : ascii -> bool := between 48 57.

(** [str.isspace] on the ASCII range: tab to carriage return, the four
    separators 28..31 and the blank. *)
Definition is_space (c : ascii) : bool :=
  between 9 13 c || between 28 31 c || (code c =? 32)%N.

(** [\w] *)
Definition is_word (c : ascii) : bool :=
  is_lower c || is_upper c || is_digit c || (code c =? 95)%N.

Definition lower_char (c : ascii) : ascii :=
  if is_upper c then ascii_of_N (code c + 32) else c.

Definition upper_char (c : ascii) : ascii :=
  if is_lower c then ascii_of_N (code c - 32) else c.

Fixpoint smap (f : ascii -> ascii) (s : string) : string :=
  match s with
  | EmptyString => EmptyString
  | String c s' => String (f c) (smap f s')
  end.

(** [s.lower()], [s.upper()] *)
Definition lower : string -> string := smap lower_char.
Definition upper : string -> string := smap upper_char.

(** [sub in s] *)
Fixpoint contains (sub s : string) : bool :=
  prefix sub s ||
  match s with
  | EmptyString => false
  | String _ s' => contains sub s'
  end.

(** [any(k in s for k in ks)] *)
Definition any_in (ks : list string) (s : string) : bool :=
  existsb (fun k => contains k s) ks.

(** [s[:n]] *)
Fixpoint take (n : nat) (s : string) : string :=
  match n, s with
  | S n', String c s' => String c (take n' s')
  | _, _ => EmptyString
  end.

Fixpoint lstrip (s : string) : string :=
  match s with
  | String c s' => if is_space c then lstrip s' else s
  | EmptyString => EmptyString
  end.

Fixpoint rstrip (s : string) : string :=
  match s with
  | EmptyString => EmptyString
  | String c s' =>
      match rstrip s' with
      | EmptyString => if is_space c then EmptyString else String c EmptyString
      | r => String c r
      end
  end.

(** [s.strip()] *)
Definition strip (s : string) : string := rstrip (lstrip s).

(** [sep.join(parts)] *)
Fixpoint join (sep : string) (parts : list string) : string :=
  match parts with
  | [] => ""
  | [p] => p
  | p :: ps => p ++ sep ++ join sep ps
  end.

(** [str(n)] for an integer *)
Definition str_of_Z (n : Z) : string := NilEmpty.string_of_int (Z.to_int n).
Definition str_of_nat (n : nat) : string := str_of_Z (Z.of_nat n).

Definition digit_val (c : ascii) : Z := Z.of_N (code c - 48).

Fixpoint int_acc (acc : Z) (s : string) : Z :=
  match s with
  | EmptyString => acc
  | String c s' => int_acc (10 * acc + digit_val c) s'
  end.

(** [int(s)] on a string of decimal digits *)
Definition int (s : string) : Z := int_acc 0 s.

(** [repr] of a list of plain words, as an f-string renders it *)
Definition repr_words (ws : list string) : string :=
  "[" ++ join ", " (map (fun w => "'" ++ w ++ "'") ws) ++ "]".

End Py.

(** ** Regular expressions: the fragment of [re] the sources use *)

Module Re.

Inductive regex : Type :=
| Lit (s : string)                                   (* a literal text *)
| Class (p : ascii -> bool) (lo : nat) (hi : option nat)
                                    (* greedy p{lo,hi}; no [hi]: unbounded *)
| WordBoundary                                       (* \b *)
| Cat (r1 r2 : regex)
| Group (r : regex).                                 (* ( r ), group 1 *)

(** [strip_prefix l s]: the rest of [s] after the literal [l], and the last
    character read. *)
Fixpoint strip_prefix (l : string) (prev : option ascii) (s : string)
  : option (option ascii * string) :=
  match l with
  | EmptyString => Some (prev, s)
  | String a l' =>
      match s with
      | String c s' => if Ascii.eqb a c then strip_prefix l' (Some c) s' else None
      | EmptyString => None
      end
  end.

Definition word_before (prev : option ascii) : bool :=
  match prev with Some c => Py.is_word c | None => false end.

Definition word_after (s : string) : bool :=
  match s with String c _ => Py.is_word c | EmptyString => false end.

Definition below (n : nat) (hi : option nat) : bool :=
  match hi with Some h => (n <? h)%nat | None => true end.

Section Matcher.
Variable R : Type.

(** The continuation receives the last character read, the rest of the
    text and the text of group 1. *)
Definition cont : Type := option ascii -> string -> option string -> option R.

(** Greedy repetition: one more character first, the continuation after
    [n] characters only when that fails. *)
Fixpoint repeat_class (p : ascii -> bool) (lo : nat) (hi : option nat)
    (g : option string) (k : cont)
    (n : nat) (prev : option ascii) (s : string) : option R :=
  let stop := if (lo <=? n)%nat then k prev s g else None in
  match s with
  | String c s' =>
      if p c && below n hi then
        match repeat_class p lo hi g k (S n) (Some c) s' with
        | Some r => Some r
        | None => stop
        end
      else stop
  | EmptyString => stop
  end.

Fixpoint run (r : regex) (prev : option ascii) (s : string)
    (g : option string) (k : cont) : option R :=
  match r with
  | Lit l =>
      match strip_prefix l prev s with
      | Some (prev', s') => k prev' s' g
      | None => None
      end
  | Class p lo hi => repeat_class p lo hi g k 0 prev s
  | WordBoundary =>
      if xorb (word_before prev) (word_after s) then k prev s g else None
  | Cat r1 r2 => run r1 prev s g (fun prev' s' g' => run r2 prev' s' g' k)
  | Group r1 =>
      run r1 prev s g
        (fun prev' s' _ =>
           k prev' s' (Some (Py.take (length s - length s') s)))
  end.
End Matcher.

(** A match object: [group(0)] and [group(1)]. *)
Record rmatch : Type := { group0 : string; group1 : option string }.

Definition match_at (r : regex) (prev : option ascii) (s : string)
  : option rmatch :=
  run r prev s None
    (fun _ s' g =>
       Some {| group0 := Py.take (length s - length s') s; group1 := g |}).

(** Leftmost match: every start position in turn, the end of the text
    included. *)
Fixpoint search_from (r : regex) (prev : option ascii) (s : string)
  : option rmatch :=
  match match_at r prev s with
  | Some m => Some m
  | None =>
      match s with
      | String c s' => search_from r (Some c) s'
      | EmptyString => None
      end
  end.

(** [re.search(r, s)] *)
Definition search (r : regex) (s : string) : option rmatch :=
  search_from r None s.

Definition sp_plus : regex := Class Py.is_space 1 None.        (* \s+ *)
Definition sp_star : regex := Class Py.is_space 0 None.        (* \s* *)
Definition digits : regex := Class Py.is_digit 1 None.         (* \d+ *)
Definition opt_char (c : ascii) : regex := Class (Ascii.eqb c) 0 (Some 1).

Fixpoint seq (rs : list regex) : regex :=
  match rs with
  | [] => Lit ""
  | [r] => r
  | r :: rs' => Cat r (seq rs')
  end.

End Re.

(** ** Exceptions, results, the world and its monad *)

Inductive exn : Type :=
| ValueError (msg : string)
| KeyError (key : string)
| TypeError (msg : string)
| AttributeError (msg : string)
| OverflowError (msg : string)
| UnboundLocalError (msg : string)
| SqliteError (msg : string).          (* sqlite3.Error and its subclasses *)

(** [str(e)]: a [KeyError] renders the [repr] of its key. *)
Definition str_exn (e : exn) : string :=
  match e with
  | KeyError k => "'" ++ k ++ "'"
  | ValueError m | TypeError m | AttributeError m
  | OverflowError m | UnboundLocalError m | SqliteError m => m
  end.

Inductive result (A : Type) : Type :=
| Ok (a : A)
| Raise (e : exn).
Arguments Ok {A} a.
Arguments Raise {A} e.

(** Rows of the two tables ([sqlite3.Row] turned into a dict). *)
Record customer : Type := mkCustomer {
  c_id : Z;
  c_name : string;
  c_email : string;
  c_phone : string;
  c_status : string;
  c_created_at : string;
  c_updated_at : string
}.

Record ticket : Type := mkTicket {
  t_id : Z;
  t_customer_id : Z;
  t_issue : string;
  t_status : string;
  t_priority : string;
  t_created_at : string
}.

(** The database file: both tables in rowid order.  [fault] stands for a
    file on which every statement fails with that [sqlite3.Error] (a missing
    table, a locked or corrupt file). *)
Record database : Type := mkDatabase {
  customers : list customer;
  tickets : list ticket;
  fault : option string
}.

(** What the Support Agent's [handle_support_query] returns. *)
Record support_result : Type := mkSupportResult {
  sr_priority : string;
  sr_intents : list string;
  sr_needs_customer_context : bool;
  sr_needs_escalation : bool;
  sr_solution : string;
  sr_customer_name : option string;
  sr_customer_status : option string
}.

(** The values a tool or an agent hands back under ["result"]. *)
Inductive payload : Type :=
| PCustomer (c : customer)
| PNone
| PCustomers (cs : list customer)
| PTickets (ts : list ticket)
| PExists (b : bool)                               (* {"exists": b} *)
| PSupport (r : support_result)
| PPriority (p : string)                           (* {"priority": p} *)
| PIntents (l : list string)                       (* {"intents": l} *)
| PNewTicket (ticket_id customer_id : Z) (issue priority status : string).

(** The ["parameters"] dict of a request, one optional field per key in
    use; [None] is also what a key bound to [None] reads as. *)
Record params : Type := mkParams {
  p_customer_id : option Z;
  p_status : option string;
  p_limit : option Z;
  p_updates : option (list (string * string));
  p_query : option string;
  p_customer_data : option customer;
  p_issue : option string;
  p_priority : option string
}.

Definition no_params : params :=
  mkParams None None None None None None None None.

Record request : Type := mkRequest {
  action : string;
  parameters : params;
  from_agent : string
}.

(** The two shapes of an agent's answer:
    [{"success": True, "agent": .., "result": ..}] and
    [{"success": False, "agent": .., "error": ..}]. *)
Inductive response : Type :=
| Success (agent : string) (res : payload)
| Failure (agent : string) (error : string).

Definition success (r : response) : bool :=
  match r with Success _ _ => true | Failure _ _ => false end.

(** The text of an agent-to-agent log entry, kept in its parts. *)
Inductive a2a_message : Type :=
| Said (text : string)
| Asked (act : string) (ps : params)        (* "{action} with params: {parameters}" *)
| Answered (ok : bool).                     (* "Response: Success" / "Response: Failed" *)

Inductive log_entry : Type :=
| Line (timestamp name level message : string)
                                 (* "[{timestamp}] [{name}] [{level}] {message}" *)
| A2A (timestamp from_ to_ : string) (message : a2a_message).
                                 (* "[{timestamp}] [A2A] {from} -> {to}: {message}" *)

Inductive provider : Type := DataService | SupportService.

(** One dispatch: the request handed to a provider's [handle_request] and
    the answer it gave. *)
Record dispatch : Type := mkDispatch {
  target : provider;
  sent : request;
  reply : response
}.

(** The world a query runs in.  [dispatches] is a history variable: it
    records every call of a provider's [handle_request] made by the router.
    [clock k] is the text the [k]-th reading of [datetime.now()] renders. *)
Record world : Type := mkWorld {
  db : database;
  coordination_log : list log_entry;
  dispatches : list dispatch;
  clock : nat -> string;
  ticks : nat
}.

Definition M (A : Type) : Type := world -> result A * world.

Definition ret {A} (a : A) : M A := fun w => (Ok a, w).
Definition raise {A} (e : exn) : M A := fun w => (Raise e, w).

Definition bind {A B} (m : M A) (k : A -> M B) : M B :=
  fun w =>
    match m w with
    | (Ok a, w') => k a w'
    | (Raise e, w') => (Raise e, w')
    end.

(** [try: m  except Exception as e: h e] *)
Definition try_except {A} (m : M A) (h : exn -> M A) : M A :=
  fun w =>
    match m w with
    | (Ok a, w') => (Ok a, w')
    | (Raise e, w') => h e w'
    end.

Declare Scope monad_scope.
Delimit Scope monad_scope with monad.
Notation "x <- m ;; k" := (bind m (fun x => k))
  (at level 61, m at next level, right associativity) : monad_scope.
Notation "m ;; k" := (bind m (fun _ => k))
  (at level 61, right associativity) : monad_scope.
Local Open Scope monad_scope.

Definition get_db : M database := fun w => (Ok (db w), w).

Definition put_db (d : database) : M unit :=
  fun w => (Ok tt, mkWorld d (coordination_log w) (dispatches w) (clock w) (ticks w)).

(** [datetime.now()], rendered *)
Definition now : M string :=
  fun w =>
    (Ok (clock w (ticks w)),
     mkWorld (db w) (coordination_log w) (dispatches w) (clock w) (S (ticks w))).

Definition append_log (e : log_entry) : M unit :=
  fun w =>
    (Ok tt,
     mkWorld (db w) (coordination_log w ++ [e])%list (dispatches w) (clock w) (ticks w)).

Definition record_dispatch (d : dispatch) : M unit :=
  fun w =>
    (Ok tt,
     mkWorld (db w) (coordination_log w) (dispatches w ++ [d])%list (clock w) (ticks w)).

(** [d[key]] on a dict that may lack the key *)
Definition item {A} (key : string) (v : option A) : M A :=
  match v with
  | Some a => ret a
  | None => raise (KeyError key)
  end.

(** [for x in xs: acc = body x acc] *)
Fixpoint for_each {A S} (xs : list A) (acc : S) (body : A -> S -> M S) : M S :=
  match xs with
  | [] => ret acc
  | x :: xs' => acc' <- body x acc ;; for_each xs' acc' body
  end.

(** [except Kind: ...] for a handler that catches only some exceptions *)
Definition try_catch {A} (m : M A) (catches : exn -> bool) (h : exn -> M A) : M A :=
  try_except m (fun e => if catches e then h e else raise e).

Definition is_sqlite_error (e : exn) : bool :=
  match e with SqliteError _ => true | _ => false end.

Definition is_value_error (e : exn) : bool :=
  match e with ValueError _ => true | _ => false end.

(** ** [mcp_server/database.py] *)

Module CustomerDatabase.

(** sqlite3 binds a Python int as a 64-bit INTEGER. *)
Definition fits_int64 (n : Z) : bool :=
  ((- 2 ^ 63 <=? n) && (n <? 2 ^ 63))%Z.

Definition bind_int (n : Z) : M unit :=
  if fits_int64 n then ret tt
  else raise (OverflowError "Python int too large to convert to SQLite INTEGER").

(** [cursor.execute(sql, values)]: the statement is prepared, then the
    integers among its values are bound; the database it runs on is
    returned. *)
Definition execute (ints : list Z) : M database :=
  d <- get_db ;;
  match fault d with
  | Some msg => raise (SqliteError msg)
  | None => for_each ints tt (fun n _ => bind_int n) ;; ret d
  end.

Definition has_id (customer_id : Z) (c : customer) : bool :=
  (c_id c =? customer_id)%Z.

(** [LIMIT ?]: a negative limit is no limit. *)
Definition sql_limit {A} (limit : Z) (rows : list A) : list A :=
  if (limit <? 0)%Z then rows else firstn (Z.to_nat limit) rows.

(** [ORDER BY created_at DESC], text compared bytewise, rows with equal
    keys kept in rowid order. *)
Fixpoint insert_desc (t : ticket) (sorted : list ticket) : list ticket :=
  match sorted with
  | [] => [t]
  | u :: rest =>
      if String.ltb (t_created_at t) (t_created_at u)
      then u :: insert_desc t rest
      else t :: sorted
  end.

Definition order_by_created_at_desc (rows : list ticket) : list ticket :=
  fold_right insert_desc [] rows.

Definition get_customer (customer_id : Z) : M (option customer) :=
  d <- execute [customer_id] ;;
  ret (find (has_id customer_id) (customers d)).

Definition list_customers (status : option string) (limit : Z)
  : M (list customer) :=
  d <- execute [limit] ;;
  match status with
  | Some (String _ _ as st) =>
      ret (sql_limit limit
             (filter (fun c => String.eqb (c_status c) st) (customers d)))
  | _ => ret (sql_limit limit (customers d))
  end.

(** [data[field]] for a dict given as an association list *)
Fixpoint lookup (field : string) (data : list (string * string)) : option string :=
  match data with
  | [] => None
  | (k, v) :: rest => if String.eqb k field then Some v else lookup field rest
  end.

Definition allowed_fields : list string := ["name"; "email"; "phone"; "status"].

Definition assign (data : list (string * string)) (field : string)
    (old : string) : string :=
  match lookup field data with Some v => v | None => old end.

(** [SET name = ?, ..., updated_at = ?] on one row *)
Definition set_fields (data : list (string * string)) (stamp : string)
    (c : customer) : customer :=
  mkCustomer (c_id c)
    (assign data "name" (c_name c))
    (assign data "email" (c_email c))
    (assign data "phone" (c_phone c))
    (assign data "status" (c_status c))
    (c_created_at c)
    stamp.

Definition update_customer (customer_id : Z) (data : list (string * string))
  : M bool :=
  let update_fields :=
    filter (fun f => match lookup f data with Some _ => true | None => false end)
      allowed_fields in
  match update_fields with
  | [] => ret false
  | _ =>
      stamp <- now ;;
      try_catch
        (d <- execute [customer_id] ;;
         put_db (mkDatabase
                   (map (fun c => if has_id customer_id c
                                  then set_fields data stamp c else c)
                      (customers d))
                   (tickets d) (fault d)) ;;
         ret (existsb (has_id customer_id) (customers d)))
        is_sqlite_error
        (fun _ => ret false)
  end.

(** The rowid sqlite gives the next inserted row, while the table has not
    reached the largest rowid, 2^63 - 1; at that ceiling the insert is
    refused, which is left out here. *)
Definition next_rowid (rows : list ticket) : Z :=
  (fold_right Z.max 0 (map t_id rows) + 1)%Z.

(** The [created_at] column of an inserted ticket takes the schema's
    default; the schema is set up outside these sources and the default is
    taken to be the current time. *)
Definition create_ticket (customer_id : Z) (issue priority : string)
  : M (option Z) :=
  d <- execute [customer_id] ;;
  match find (has_id customer_id) (customers d) with
  | None => ret None
  | Some _ =>
      try_catch
        (d' <- execute [customer_id] ;;
         stamp <- now ;;
         let ticket_id := next_rowid (tickets d') in
         put_db (mkDatabase (customers d')
                   (tickets d' ++ [mkTicket ticket_id customer_id issue "open"
                                     priority stamp])%list
                   (fault d')) ;;
         ret (Some ticket_id))
        is_sqlite_error
        (fun _ => ret None)
  end.

Definition get_customer_history (customer_id : Z) : M (list ticket) :=
  d <- execute [customer_id] ;;
  ret (order_by_created_at_desc
         (filter (fun t => (t_customer_id t =? customer_id)%Z) (tickets d))).

(** A row of [tickets t JOIN customers c ON t.customer_id = c.id]: the
    ticket's columns, [customer_name], [customer_email] and, where the query
    selects it, [customer_status]. *)
Record ticket_row : Type := mkTicketRow {
  tr_ticket : ticket;
  tr_customer_name : string;
  tr_customer_email : string;
  tr_customer_status : option string
}.

(** The join: every ticket beside every customer whose [id] is the ticket's
    [customer_id], tickets in rowid order. *)
Definition join_customers (ts : list ticket) (cs : list customer)
  : list (ticket * customer) :=
  flat_map (fun t => map (pair t) (filter (has_id (t_customer_id t)) cs)) ts.

(** [ORDER BY t.created_at DESC] on joined rows, as [insert_desc] has it
    on tickets. *)
Fixpoint insert_joined_desc (r : ticket * customer)
    (sorted : list (ticket * customer)) : list (ticket * customer) :=
  match sorted with
  | [] => [r]
  | u :: rest =>
      if String.ltb (t_created_at (fst r)) (t_created_at (fst u))
      then u :: insert_joined_desc r rest
      else r :: sorted
  end.

Definition order_joined_by_created_at_desc (rows : list (ticket * customer))
  : list (ticket * customer) :=
  fold_right insert_joined_desc [] rows.

Definition get_tickets_by_priority (priority : string) : M (list ticket_row) :=
  d <- execute [] ;;
  ret (map (fun r => mkTicketRow (fst r) (c_name (snd r)) (c_email (snd r)) None)
         (order_joined_by_created_at_desc
            (filter (fun r => String.eqb (t_priority (fst r)) priority)
               (join_customers (tickets d) (customers d))))).

Definition get_tickets_by_status (status : string) : M (list ticket_row) :=
  d <- execute [] ;;
  ret (map (fun r => mkTicketRow (fst r) (c_name (snd r)) (c_email (snd r))
                       (Some (c_status (snd r))))
         (order_joined_by_created_at_desc
            (filter (fun r => String.eqb (t_status (fst r)) status)
               (join_customers (tickets d) (customers d))))).

End CustomerDatabase.

(** ** [mcp_server/server.py] *)

Module MCPServer.

(** The keyword arguments of a tool call. *)
Record tool_params : Type := mkToolParams {
  tp_customer_id : option Z;
  tp_status : option string;
  tp_limit : option Z;
  tp_data : option (list (string * string));
  tp_issue : option string;
  tp_priority : option string
}.

(** [{"success": True, "result": ..}] or [{"success": False, "error": ..}] *)
Inductive tool_result : Type :=
| ToolOk (res : payload)
| ToolError (error : string).

(** What a tool schema is made of: text, lists and dicts. *)
#[warnings="-register-all"]
Inductive value : Type :=
| VStr (s : string)
| VInt (n : Z)
| VList (xs : list value)
| VDict (items : list (string * value)).

Definition get_available_tools : list value :=
  [ VDict
      [ ("name", VStr "get_customer");
        ("description", VStr "Get customer information by ID");
        ("parameters",
         VDict
           [ ("type", VStr "object");
             ("properties",
              VDict
                [ ("customer_id",
                   VDict [ ("type", VStr "integer");
                           ("description", VStr "The customer ID") ]) ]);
             ("required", VList [VStr "customer_id"]) ]) ];
    VDict
      [ ("name", VStr "list_customers");
        ("description", VStr "List customers with optional status filter");
        ("parameters",
         VDict
           [ ("type", VStr "object");
             ("properties",
              VDict
                [ ("status",
                   VDict [ ("type", VStr "string");
                           ("enum", VList [VStr "active"; VStr "disabled"]);
                           ("description",
                            VStr "Filter by customer status (optional)") ]);
                  ("limit",
                   VDict [ ("type", VStr "integer");
                           ("description",
                            VStr "Maximum number of results (default: 10)");
                           ("default", VInt 10) ]) ]) ]) ];
    VDict
      [ ("name", VStr "update_customer");
        ("description", VStr "Update customer information");
        ("parameters",
         VDict
           [ ("type", VStr "object");
             ("properties",
              VDict
                [ ("customer_id",
                   VDict [ ("type", VStr "integer");
                           ("description", VStr "The customer ID") ]);
                  ("data",
                   VDict
                     [ ("type", VStr "object");
                       ("description",
                        VStr "Fields to update (name, email, phone, status)");
                       ("properties",
                        VDict
                          [ ("name", VDict [("type", VStr "string")]);
                            ("email", VDict [("type", VStr "string")]);
                            ("phone", VDict [("type", VStr "string")]);
                            ("status",
                             VDict [ ("type", VStr "string");
                                     ("enum",
                                      VList [VStr "active"; VStr "disabled"]) ])
                          ]) ]) ]);
             ("required", VList [VStr "customer_id"; VStr "data"]) ]) ];
    VDict
      [ ("name", VStr "create_ticket");
        ("description", VStr "Create a new support ticket");
        ("parameters",
         VDict
           [ ("type", VStr "object");
             ("properties",
              VDict
                [ ("customer_id",
                   VDict [ ("type", VStr "integer");
                           ("description", VStr "The customer ID") ]);
                  ("issue",
                   VDict [ ("type", VStr "string");
                           ("description", VStr "Description of the issue") ]);
                  ("priority",
                   VDict [ ("type", VStr "string");
                           ("enum", VList [VStr "low"; VStr "medium"; VStr "high"]);
                           ("description",
                            VStr "Priority level (default: medium)");
                           ("default", VStr "medium") ]) ]);
             ("required", VList [VStr "customer_id"; VStr "issue"]) ]) ];
    VDict
      [ ("name", VStr "get_customer_history");
        ("description", VStr "Get all tickets for a customer");
        ("parameters",
         VDict
           [ ("type", VStr "object");
             ("properties",
              VDict
                [ ("customer_id",
                   VDict [ ("type", VStr "integer");
                           ("description", VStr "The customer ID") ]) ]);
             ("required", VList [VStr "customer_id"]) ]) ] ].

(** A call that leaves out a required argument.  The agents pass every
    required argument of the tool they call. *)
Definition missing {A} (tool arg : string) : M A :=
  raise (TypeError ("MCPServer." ++ tool ++
                    "() missing 1 required positional argument: '" ++ arg ++ "'")).

Definition required {A} (tool arg : string) (v : option A) : M A :=
  match v with Some a => ret a | None => missing tool arg end.

Definition get_customer (p : tool_params) : M payload :=
  customer_id <- required "get_customer" "customer_id" (tp_customer_id p) ;;
  c <- CustomerDatabase.get_customer customer_id ;;
  match c with
  | Some row => ret (PCustomer row)
  | None => raise (ValueError ("Customer " ++ Py.str_of_Z customer_id ++ " not found"))
  end.

Definition list_customers (p : tool_params) : M payload :=
  let limit := match tp_limit p with Some l => l | None => 10%Z end in
  cs <- CustomerDatabase.list_customers (tp_status p) limit ;;
  ret (PCustomers cs).

Definition update_customer (p : tool_params) : M payload :=
  customer_id <- required "update_customer" "customer_id" (tp_customer_id p) ;;
  data <- required "update_customer" "data" (tp_data p) ;;
  ok <- CustomerDatabase.update_customer customer_id data ;;
  if ok then
    c <- CustomerDatabase.get_customer customer_id ;;
    ret (match c with Some row => PCustomer row | None => PNone end)
  else raise (ValueError ("Failed to update customer " ++ Py.str_of_Z customer_id)).

Definition create_ticket (p : tool_params) : M payload :=
  customer_id <- required "create_ticket" "customer_id" (tp_customer_id p) ;;
  issue <- required "create_ticket" "issue" (tp_issue p) ;;
  let priority := match tp_priority p with Some x => x | None => "medium" end in
  ticket_id <- CustomerDatabase.create_ticket customer_id issue priority ;;
  match ticket_id with
  | Some tid =>
      if (tid =? 0)%Z
      then raise (ValueError ("Failed to create ticket for customer " ++
                              Py.str_of_Z customer_id))
      else ret (PNewTicket tid customer_id issue priority "open")
  | None => raise (ValueError ("Failed to create ticket for customer " ++
                               Py.str_of_Z customer_id))
  end.

Definition get_customer_history (p : tool_params) : M payload :=
  customer_id <- required "get_customer_history" "customer_id" (tp_customer_id p) ;;
  ts <- CustomerDatabase.get_customer_history customer_id ;;
  ret (PTickets ts).

(** [self.tools] *)
Definition tools : list (string * (tool_params -> M payload)) :=
  [ ("get_customer", get_customer);
    ("list_customers", list_customers);
    ("update_customer", update_customer);
    ("create_ticket", create_ticket);
    ("get_customer_history", get_customer_history) ].

Fixpoint tool (name : string) (ts : list (string * (tool_params -> M payload)))
  : option (tool_params -> M payload) :=
  match ts with
  | [] => None
  | (n, f) :: rest => if String.eqb n name then Some f else tool name rest
  end.

Definition call_tool (tool_name : string) (p : tool_params) : M tool_result :=
  match tool tool_name tools with
  | None => ret (ToolError ("Unknown tool: " ++ tool_name))
  | Some f =>
      try_except
        (r <- f p ;; ret (ToolOk r))
        (fun e => ret (ToolError (str_exn e)))
  end.

End MCPServer.

(** ** [agents/data_agent.py] *)

Module CustomerDataAgent.

Definition name : string := "CustomerDataAgent".

Definition keywords : list string :=
  ["customer"; "account"; "profile"; "information"; "data";
   "email"; "phone"; "status"; "update"; "get"; "fetch"; "retrieve"].

Definition can_handle (task : string) : bool :=
  let task_lower := Py.lower task in
  Py.any_in keywords task_lower.

(** [result["result"]] on success, [raise ValueError(result["error"])]
    otherwise *)
Definition unwrap (r : MCPServer.tool_result) : M payload :=
  match r with
  | MCPServer.ToolOk v => ret v
  | MCPServer.ToolError e => raise (ValueError e)
  end.

Definition get_customer_info (customer_id : Z) : M payload :=
  r <- MCPServer.call_tool "get_customer"
         (MCPServer.mkToolParams (Some customer_id) None None None None None) ;;
  unwrap r.

Definition list_customers (status : option string) (limit : Z) : M payload :=
  let status_arg :=
    match status with
    | Some (String _ _) => status
    | _ => None
    end in
  r <- MCPServer.call_tool "list_customers"
         (MCPServer.mkToolParams None status_arg (Some limit) None None None) ;;
  unwrap r.

Definition update_customer_info (customer_id : Z)
    (updates : list (string * string)) : M payload :=
  r <- MCPServer.call_tool "update_customer"
         (MCPServer.mkToolParams (Some customer_id) None None (Some updates)
            None None) ;;
  unwrap r.

Definition get_customer_history (customer_id : Z) : M payload :=
  r <- MCPServer.call_tool "get_customer_history"
         (MCPServer.mkToolParams (Some customer_id) None None None None None) ;;
  unwrap r.

Definition validate_customer_exists (customer_id : Z) : M bool :=
  try_catch (get_customer_info customer_id ;; ret true)
    is_value_error (fun _ => ret false).

Definition get_premium_customers : M payload :=
  list_customers (Some "active") 100%Z.

Definition handle_request (req : request) : M response :=
  let act := action req in
  let ps := parameters req in
  try_except
    (res <-
       (if String.eqb act "get_customer" then
          customer_id <- item "customer_id" (p_customer_id ps) ;;
          get_customer_info customer_id
        else if String.eqb act "list_customers" then
          list_customers (p_status ps)
            (match p_limit ps with Some l => l | None => 10%Z end)
        else if String.eqb act "update_customer" then
          customer_id <- item "customer_id" (p_customer_id ps) ;;
          updates <- item "updates" (p_updates ps) ;;
          update_customer_info customer_id updates
        else if String.eqb act "get_history" then
          customer_id <- item "customer_id" (p_customer_id ps) ;;
          get_customer_history customer_id
        else if String.eqb act "validate_customer" then
          customer_id <- item "customer_id" (p_customer_id ps) ;;
          b <- validate_customer_exists customer_id ;;
          ret (PExists b)
        else if String.eqb act "get_premium_customers" then
          get_premium_customers
        else raise (ValueError ("Unknown action: " ++ act))) ;;
     ret (Success name res))
    (fun e => ret (Failure name (str_exn e))).

End CustomerDataAgent.

(** ** [agents/support_agent.py] *)

Module SupportAgent.

Definition name : string := "SupportAgent".

Definition keywords : list string :=
  ["help"; "support"; "issue"; "problem"; "ticket";
   "upgrade"; "cancel"; "billing"; "refund"; "assistance";
   "question"; "how to"; "can't"; "cannot"; "error"].

Definition can_handle (task : string) : bool :=
  let task_lower := Py.lower task in
  Py.any_in keywords task_lower.

Definition high_priority : list string :=
  ["urgent"; "immediately"; "critical"; "emergency"; "asap";
   "charged twice"; "cannot access"; "locked out"; "security";
   "fraud"; "unauthorized"; "hacked"].

Definition medium_priority : list string :=
  ["billing"; "payment"; "refund"; "cancel"; "upgrade";
   "not working"; "broken"; "error"; "failed"].

Definition analyze_urgency (query : string) : string :=
  let query_lower := Py.lower query in
  if Py.any_in high_priority query_lower then "high"
  else if Py.any_in medium_priority query_lower then "medium"
  else "low".

Definition intent_keywords : list (string * list string) :=
  [ ("billing", ["billing"; "charged"; "payment"; "invoice"; "refund"]);
    ("cancellation", ["cancel"; "unsubscribe"; "stop subscription"]);
    ("upgrade", ["upgrade"; "premium"; "tier"; "plan change"]);
    ("technical", ["not working"; "error"; "bug"; "broken"; "crash"]);
    ("account", ["account"; "profile"; "password"; "login"; "access"]);
    ("information", ["show"; "get"; "display"; "what"; "status"]) ].

Definition detect_multiple_intents (query : string) : list string :=
  let query_lower := Py.lower query in
  map fst (filter (fun kv => Py.any_in (snd kv) query_lower) intent_keywords).

Definition context_keywords : list string :=
  ["my account"; "my subscription"; "my billing"; "my profile";
   "customer id"; "i am"; "i'm"; "upgrade my"; "cancel my"].

Definition needs_customer_context (query : string) : bool :=
  Py.any_in context_keywords (Py.lower query).

Definition solutions : list (string * string) :=
  [ ("billing", "I can help you with billing issues. Let me review your account and recent transactions.");
    ("upgrade", "I'd be happy to help you upgrade your account. Let me check your current plan and available options.");
    ("technical", "I understand you're experiencing technical difficulties. Let me investigate this issue for you.");
    ("cancellation", "I'm sorry to hear you want to cancel. Let me help you with that process.");
    ("account", "I can assist you with your account. Let me pull up your information.");
    ("password", "For password issues, I can help you reset it securely.") ].

Definition generate_solution (issue_type : string)
    (customer_data : option customer) : string :=
  match CustomerDatabase.lookup issue_type solutions with
  | Some s => s
  | None => "I'm here to help. Let me look into this for you."
  end.

Definition handle_support_query (query : string)
    (customer_data : option customer) : support_result :=
  let priority := analyze_urgency query in
  let intents := detect_multiple_intents query in
  let needs_context := needs_customer_context query in
  mkSupportResult priority intents needs_context
    ((1 <? List.length intents)%nat || String.eqb priority "high")
    (match intents with
     | primary_intent :: _ => generate_solution primary_intent customer_data
     | [] => "I'm here to help. Could you provide more details about your issue?"
     end)
    (option_map c_name customer_data)
    (option_map c_status customer_data).

Definition create_ticket (customer_id : Z) (issue : string)
    (priority : option string) : M payload :=
  let priority :=
    match priority with Some p => p | None => analyze_urgency issue end in
  r <- MCPServer.call_tool "create_ticket"
         (MCPServer.mkToolParams (Some customer_id) None None None
            (Some issue) (Some priority)) ;;
  CustomerDataAgent.unwrap r.

Definition handle_request (req : request) : M response :=
  let act := action req in
  let ps := parameters req in
  try_except
    (res <-
       (if String.eqb act "create_ticket" then
          customer_id <- item "customer_id" (p_customer_id ps) ;;
          issue <- item "issue" (p_issue ps) ;;
          create_ticket customer_id issue (p_priority ps)
        else if String.eqb act "handle_query" then
          query <- item "query" (p_query ps) ;;
          ret (PSupport (handle_support_query query (p_customer_data ps)))
        else if String.eqb act "analyze_urgency" then
          query <- item "query" (p_query ps) ;;
          ret (PPriority (analyze_urgency query))
        else if String.eqb act "detect_intents" then
          query <- item "query" (p_query ps) ;;
          ret (PIntents (detect_multiple_intents query))
        else raise (ValueError ("Unknown action: " ++ act))) ;;
     ret (Success name res))
    (fun e => ret (Failure name (str_exn e))).

End SupportAgent.

(** ** Reading an agent's answer

    [response["result"]] and [response["error"]] raise [KeyError] on the
    shape that lacks the key.  A payload of the wrong shape raises where the
    router reads it out; which exception that is plays no role, no caller
    catches it. *)

Definition result_of (r : response) : M payload :=
  match r with
  | Success _ v => ret v
  | Failure _ _ => raise (KeyError "result")
  end.

Definition error_of (r : response) : M string :=
  match r with
  | Failure _ e => ret e
  | Success _ _ => raise (KeyError "error")
  end.

(** [response.get('error', default)] *)
Definition error_or (default : string) (r : response) : string :=
  match r with
  | Failure _ e => e
  | Success _ _ => default
  end.

Definition as_customer (v : payload) : M customer :=
  match v with
  | PCustomer c => ret c
  | PNone => raise (TypeError "'NoneType' object is not subscriptable")
  | PCustomers _ | PTickets _ =>
      raise (TypeError "list indices must be integers or slices, not str")
  | _ => raise (KeyError "name")
  end.

Definition as_customers (v : payload) : M (list customer) :=
  match v with
  | PCustomers cs => ret cs
  | PNone => raise (TypeError "'NoneType' object is not subscriptable")
  | _ => raise (TypeError "string indices must be integers")
  end.

Definition as_tickets (v : payload) : M (list ticket) :=
  match v with
  | PTickets ts => ret ts
  | PNone => raise (TypeError "'NoneType' object is not iterable")
  | _ => raise (TypeError "string indices must be integers")
  end.

(** [result.get("solution", default)] *)
Definition solution_or (default : string) (v : payload) : M string :=
  match v with
  | PSupport r => ret (sr_solution r)
  | PNone => raise (AttributeError "'NoneType' object has no attribute 'get'")
  | PCustomers _ | PTickets _ =>
      raise (AttributeError "'list' object has no attribute 'get'")
  | _ => ret default
  end.

(** [result["solution"]] *)
Definition solution_of (v : payload) : M string :=
  match v with
  | PSupport r => ret (sr_solution r)
  | PNone => raise (TypeError "'NoneType' object is not subscriptable")
  | PCustomers _ | PTickets _ =>
      raise (TypeError "list indices must be integers or slices, not str")
  | _ => raise (KeyError "solution")
  end.

(** [result.get("needs_customer_context")], as a truth value *)
Definition wants_context (v : payload) : M bool :=
  match v with
  | PSupport r => ret (sr_needs_customer_context r)
  | PNone => raise (AttributeError "'NoneType' object has no attribute 'get'")
  | PCustomers _ | PTickets _ =>
      raise (AttributeError "'list' object has no attribute 'get'")
  | _ => ret false
  end.

(** ** [agents/router_agent.py] *)

Module RouterAgent.
Import Re.

Definition name : string := "RouterAgent".

Definition log (message : string) (level : string) : M unit :=
  timestamp <- now ;;
  append_log (Line timestamp name level message).

Definition info (message : string) : M unit := log message "INFO".

Definition log_a2a_communication (from_agent to_agent : string)
    (message : a2a_message) : M unit :=
  timestamp <- now ;;
  append_log (A2A timestamp from_agent to_agent message).

(** [customer\s+id\s*:?\s*(\d+)] *)
Definition customer_id_pattern : regex :=
  seq [Lit "customer"; sp_plus; Lit "id"; sp_star; opt_char ":"; sp_star;
       Group digits].

(** [id\s*:?\s*(\d+)] *)
Definition id_pattern : regex :=
  seq [Lit "id"; sp_star; opt_char ":"; sp_star; Group digits].

(** [customer\s+(\d+)] *)
Definition customer_pattern : regex :=
  seq [Lit "customer"; sp_plus; Group digits].

(** [\bI\'m\s+customer\s+(\d+)] *)
Definition im_customer_pattern : regex :=
  seq [WordBoundary; Lit "I'm"; sp_plus; Lit "customer"; sp_plus; Group digits].

Definition patterns : list regex :=
  [customer_id_pattern; id_pattern; customer_pattern; im_customer_pattern].

(** The loop over the patterns: the first one that matches returns.
    Group 1 takes part in every match of these patterns. *)
Fixpoint first_match (ps : list regex) (text : string) : option Z :=
  match ps with
  | [] => None
  | pattern :: rest =>
      match Re.search pattern text with
      | Some m =>
          match group1 m with
          | Some ds => Some (Py.int ds)
          | None => None
          end
      | None => first_match rest text
      end
  end.

Definition extract_customer_id (query : string) : option Z :=
  let query_lower := Py.lower query in
  first_match patterns query_lower.

(** ["simple"], ["complex"], ["multi-step"] *)
Inductive tier : Type := simple | complex | multi_step.

Definition tier_name (t : tier) : string :=
  match t with
  | simple => "simple"
  | complex => "complex"
  | multi_step => "multi-step"
  end.

Record analysis : Type := mkAnalysis {
  query : string;
  customer_id : option Z;
  needs_data_agent : bool;
  needs_support_agent : bool;
  needs_coordination : bool;
  complexity : tier;
  intents : list string
}.

(** [analysis["needs_data_agent"] = True; analysis["intents"].append("data")] *)
Definition mark_data (a : analysis) : analysis :=
  mkAnalysis (query a) (customer_id a) true (needs_support_agent a)
    (needs_coordination a) (complexity a) (intents a ++ ["data"])%list.

Definition mark_support (a : analysis) : analysis :=
  mkAnalysis (query a) (customer_id a) (needs_data_agent a) true
    (needs_coordination a) (complexity a) (intents a ++ ["support"])%list.

(** [analysis["complexity"] = t; analysis["needs_coordination"] = True] *)
Definition coordinate (t : tier) (a : analysis) : analysis :=
  mkAnalysis (query a) (customer_id a) (needs_data_agent a)
    (needs_support_agent a) true t (intents a).

Definition word_in (w : string) (ws : list string) : bool :=
  existsb (String.eqb w) ws.

(** [if w not in analysis["intents"]: analysis["intents"].append(w)] *)
Definition add_intent (w : string) (a : analysis) : analysis :=
  if word_in w (intents a) then a
  else mkAnalysis (query a) (customer_id a) (needs_data_agent a)
         (needs_support_agent a) (needs_coordination a) (complexity a)
         (intents a ++ [w])%list.

(** The body of [analyze_query] between its two log calls: the analysis
    dict is built and then updated by the two cascades. *)
Definition classify (query : string) : analysis :=
  let query_lower := Py.lower query in
  let a0 := mkAnalysis query (extract_customer_id query)
              false false false simple [] in
  let a1 := if CustomerDataAgent.can_handle query then mark_data a0 else a0 in
  let a2 := if SupportAgent.can_handle query then mark_support a1 else a1 in
  let a3 :=
    if Py.contains "active customers" query_lower
       && Py.contains "tickets" query_lower
    then coordinate multi_step a2
    else if (1 <? List.length (intents a2))%nat
    then coordinate complex a2
    else if Py.any_in ["all"; "list"; "show me"; "get all"] query_lower
    then coordinate complex a2
    else a2 in
  if Py.any_in ["and"; "also"; "then"; "after"] query_lower
  then coordinate multi_step a3
  else if (Py.contains "update" query_lower || Py.contains "change" query_lower)
          && (Py.contains "email" query_lower || Py.contains "phone" query_lower)
  then coordinate multi_step a3
  else if (Py.contains "status" query_lower || Py.contains "what is" query_lower)
          && Py.contains "ticket" query_lower
          && Py.contains "priority" query_lower
  then add_intent "support" (add_intent "data" (coordinate multi_step a3))
  else a3.

Definition analyze_query (query : string) : M analysis :=
  info ("Analyzing query: " ++ Py.take 80 query ++ "...") ;;
  let a := classify query in
  info ("Analysis: " ++ tier_name (complexity a) ++ " query, needs: "
        ++ Py.repr_words (intents a)) ;;
  ret a.

Definition route_to_data_agent (act : string) (ps : params) : M response :=
  log_a2a_communication name CustomerDataAgent.name (Asked act ps) ;;
  let req := mkRequest act ps name in
  resp <- CustomerDataAgent.handle_request req ;;
  record_dispatch (mkDispatch DataService req resp) ;;
  log_a2a_communication CustomerDataAgent.name name (Answered (success resp)) ;;
  ret resp.

Definition route_to_support_agent (act : string) (ps : params) : M response :=
  log_a2a_communication name SupportAgent.name (Asked act ps) ;;
  let req := mkRequest act ps name in
  resp <- SupportAgent.handle_request req ;;
  record_dispatch (mkDispatch SupportService req resp) ;;
  log_a2a_communication SupportAgent.name name (Answered (success resp)) ;;
  ret resp.

(** Truth value of [analysis["customer_id"]]: [None] and [0] are false. *)
Definition truthy (cid : option Z) : bool :=
  match cid with
  | Some n => negb (n =? 0)%Z
  | None => false
  end.

(** [f"{customer_id}"] *)
Definition fmt_id (cid : option Z) : string :=
  match cid with
  | Some n => Py.str_of_Z n
  | None => "None"
  end.

(** The parameter dicts the router builds. *)
Definition id_params (cid : option Z) : params :=
  mkParams cid None None None None None None None.

Definition query_params (q : string) (ctx : option customer) : params :=
  mkParams None None None None (Some q) ctx None None.

Definition list_params (status : option string) (limit : Z) : params :=
  mkParams None status (Some limit) None None None None None.

Definition update_params (cid : option Z) (field value : string) : params :=
  mkParams cid None None (Some [(field, value)]) None None None None.

(** [coordinated_response["responses"]] *)
Record responses : Type := mkResponses {
  r_support : option response;
  r_data : option response;
  r_support_with_context : option response
}.

Definition negotiate_between_agents (query : string) (a : analysis)
  : M responses :=
  info "Starting agent negotiation for complex query" ;;
  if needs_support_agent a then
    log_a2a_communication name SupportAgent.name (Said "Can you handle this query?") ;;
    support_response <- route_to_support_agent "handle_query" (query_params query None) ;;
    wants <- (if success support_response
              then v <- result_of support_response ;; wants_context v
              else ret false) ;;
    if wants then
      info "Support Agent needs customer context, requesting from Data Agent" ;;
      if truthy (customer_id a) then
        data_response <- route_to_data_agent "get_customer" (id_params (customer_id a)) ;;
        if success data_response then
          info "Providing customer context to Support Agent" ;;
          v <- result_of data_response ;;
          c <- as_customer v ;;
          support_response_with_context <-
            route_to_support_agent "handle_query" (query_params query (Some c)) ;;
          ret (mkResponses (Some support_response) (Some data_response)
                 (Some support_response_with_context))
        else ret (mkResponses (Some support_response) (Some data_response) None)
      else ret (mkResponses (Some support_response) None None)
    else ret (mkResponses (Some support_response) None None)
  else ret (mkResponses None None None).

(** [if block: return ...] followed by the rest of the function: [None]
    when the block falls through. *)
Definition returning {A} (block : M (option A)) (rest : M A) : M A :=
  r <- block ;;
  match r with
  | Some a => ret a
  | None => rest
  end.

Definition customer_information (c : customer) : string :=
  "Customer Information:" ++ Py.nl ++
  "Name: " ++ c_name c ++ Py.nl ++
  "Email: " ++ c_email c ++ Py.nl ++
  "Phone: " ++ c_phone c ++ Py.nl ++
  "Status: " ++ c_status c.

(** The ticket listing of the simple and the complex strategy, built by
    [result += ...] and stripped. *)
Definition history_text (cid : option Z) (tickets : list ticket) : string :=
  Py.strip
    (fold_left
       (fun result t =>
          result
          ++ ("  • [" ++ Py.upper (t_status t) ++ "] " ++ t_issue t ++ Py.nl)
          ++ ("    Priority: " ++ t_priority t ++ ", Created: "
              ++ t_created_at t ++ Py.nl))
       tickets
       ("Ticket History for Customer " ++ fmt_id cid ++ ":" ++ Py.nl)).

(** The lookup of a customer's ticket history and its rendering, as the
    simple and the complex strategy do it. *)
Definition show_history (cid : option Z) : M string :=
  history_response <- route_to_data_agent "get_history" (id_params cid) ;;
  if success history_response then
    v <- result_of history_response ;;
    tickets <- as_tickets v ;;
    match tickets with
    | _ :: _ => ret (history_text cid tickets)
    | [] => ret ("No tickets found for customer " ++ fmt_id cid)
    end
  else
    e <- error_of history_response ;;
    ret ("Error: " ++ e).

(** The lookup of one customer and the full card. *)
Definition show_customer (cid : option Z) : M string :=
  resp <- route_to_data_agent "get_customer" (id_params cid) ;;
  if success resp then
    v <- result_of resp ;;
    c <- as_customer v ;;
    ret (customer_information c)
  else
    e <- error_of resp ;;
    ret ("Error: " ++ e).

Definition handle_simple_query (query : string) (a : analysis) : M string :=
  info "Handling simple query" ;;
  let query_lower := Py.lower query in
  let cid := customer_id a in
  returning
    (if truthy cid && Py.any_in ["what is"; "what's"] query_lower then
       if Py.any_in ["name"; "email"; "phone"; "status"; "information"; "info"]
            query_lower
       then
         resp <- route_to_data_agent "get_customer" (id_params cid) ;;
         if success resp then
           v <- result_of resp ;;
           c <- as_customer v ;;
           if Py.contains "name" query_lower && negb (Py.contains "email" query_lower)
           then ret (Some ("The name of customer " ++ fmt_id cid ++ " is "
                           ++ c_name c ++ "."))
           else if Py.contains "email" query_lower
           then ret (Some ("The email of customer " ++ fmt_id cid ++ " is "
                           ++ c_email c ++ "."))
           else if Py.contains "phone" query_lower
           then ret (Some ("The phone of customer " ++ fmt_id cid ++ " is "
                           ++ c_phone c ++ "."))
           else if Py.contains "status" query_lower
           then ret (Some ("Customer " ++ fmt_id cid ++ " status is "
                           ++ c_status c ++ "."))
           else ret (Some (customer_information c))
         else
           e <- error_of resp ;;
           ret (Some ("Error: " ++ e))
       else ret None
     else ret None)
  (returning
    (if Py.any_in ["get customer"; "show me customer"; "customer information"]
          query_lower
     then
       if truthy cid then
         text <- show_customer cid ;;
         ret (Some text)
       else ret None
     else ret None)
  (returning
    (if (Py.contains "history" query_lower || Py.contains "tickets" query_lower)
        && truthy cid
     then
       text <- show_history cid ;;
       ret (Some text)
     else ret None)
  (resp <- route_to_support_agent "handle_query" (query_params query None) ;;
   if success resp then
     v <- result_of resp ;;
     solution_or "I'm here to help!" v
   else
     e <- error_of resp ;;
     ret ("Error: " ++ e)))).

Definition customer_list_text (cs : list customer) : string :=
  Py.strip
    (fold_left
       (fun result c =>
          result ++ ("  • " ++ c_name c ++ " (ID: " ++ Py.str_of_Z (c_id c)
                     ++ ", Status: " ++ c_status c ++ ")" ++ Py.nl))
       cs
       ("Customer List (" ++ Py.str_of_nat (List.length cs) ++ " customers):"
        ++ Py.nl)).

(** The synthesis at the end of [handle_complex_query]. *)
Definition synthesize (rs : responses) : M string :=
  parts1 <-
    match r_data rs with
    | Some data_response =>
        if success data_response then
          v <- result_of data_response ;;
          c <- as_customer v ;;
          ret ["Customer: " ++ c_name c ++ " (" ++ c_status c ++ ")"]
        else ret []
    | None => ret []
    end ;;
  parts2 <-
    match r_support_with_context rs, r_support rs with
    | Some with_context, _ =>
        v <- result_of with_context ;;
        s <- solution_or "" v ;;
        ret (parts1 ++ [s])%list
    | None, Some support_response =>
        v <- result_of support_response ;;
        s <- solution_or "" v ;;
        ret (parts1 ++ [s])%list
    | None, None => ret parts1
    end ;;
  match parts2 with
  | _ :: _ => ret (Py.join Py.nl parts2)
  | [] => ret "I'm working on your request."
  end.

Definition handle_complex_query (query : string) (a : analysis) : M string :=
  info "Handling complex query with agent coordination" ;;
  let query_lower := Py.lower query in
  let cid := customer_id a in
  if (Py.contains "ticket" query_lower || Py.contains "history" query_lower)
     && truthy cid
  then
    if Py.contains "ticket" query_lower || Py.contains "history" query_lower
    then show_history cid
    else raise (UnboundLocalError
      "cannot access local variable 'coordinated' where it is not associated with a value")
  else if Py.contains "list" query_lower && Py.contains "customer" query_lower
  then
    let status :=
      if Py.contains "active" query_lower then Some "active"
      else if Py.contains "disabled" query_lower then Some "disabled"
      else None in
    list_response <- route_to_data_agent "list_customers" (list_params status 10) ;;
    if success list_response then
      v <- result_of list_response ;;
      cs <- as_customers v ;;
      match cs with
      | _ :: _ => ret (customer_list_text cs)
      | [] => ret "No customers found"
      end
    else
      e <- error_of list_response ;;
      ret ("Error: " ++ e)
  else if Py.contains "show" query_lower && Py.contains "customer" query_lower
          && truthy cid
  then show_customer cid
  else
    coordinated <- negotiate_between_agents query a ;;
    synthesize coordinated.

(** [[\w\.-]+@[\w\.-]+\.\w+] *)
Definition email_pattern : regex :=
  let name_char := fun c => Py.is_word c || Ascii.eqb c "." || Ascii.eqb c "-" in
  seq [Class name_char 1 None; Lit "@"; Class name_char 1 None; Lit ".";
       Class Py.is_word 1 None].

(** [\d{3}-?\d{4}] *)
Definition phone_pattern : regex :=
  seq [Class Py.is_digit 3 (Some 3); opt_char "-"; Class Py.is_digit 4 (Some 4)].

(** An entry of [filtered_tickets]. *)
Record found_ticket : Type := mkFound {
  ft_customer : string;
  ft_issue : string;
  ft_status : string;
  ft_priority : string
}.

(** Case 0, the loop over [customers[:10]]: every customer's history is
    fetched and the tickets of the asked priority kept. *)
Definition collect_tickets (priority_filter : option string)
    (cs : list customer) : M (list found_ticket) :=
  for_each (firstn 10 cs) []
    (fun c filtered_tickets =>
       history_response <-
         route_to_data_agent "get_history" (id_params (Some (c_id c))) ;;
       if success history_response then
         v <- result_of history_response ;;
         tickets <- as_tickets v ;;
         ret (filtered_tickets ++
              map (fun t => mkFound (c_name c) (t_issue t) (t_status t) (t_priority t))
                (filter (fun t =>
                           match priority_filter with
                           | None => true
                           | Some p => String.eqb (t_priority t) p
                           end) tickets))%list
       else ret filtered_tickets).

(** Case 1, the loop over [customers[:5]]: the customers with at least one
    open ticket, each with the number of its open tickets. *)
Definition collect_open (cs : list customer) : M (list (customer * nat)) :=
  for_each (firstn 5 cs) []
    (fun c customers_with_tickets =>
       history_response <-
         route_to_data_agent "get_history" (id_params (Some (c_id c))) ;;
       if success history_response then
         v <- result_of history_response ;;
         tickets <- as_tickets v ;;
         match filter (fun t => String.eqb (t_status t) "open") tickets with
         | [] => ret customers_with_tickets
         | open_tickets =>
             ret (customers_with_tickets ++ [(c, List.length open_tickets)])%list
         end
       else ret customers_with_tickets).

Definition handle_multi_step_query (query : string) (a : analysis) : M string :=
  info "Handling multi-step query" ;;
  let query_lower := Py.lower query in
  let cid := customer_id a in
  results <-
    (if (Py.contains "what is" query_lower || Py.contains "status" query_lower)
        && Py.contains "ticket" query_lower && Py.contains "priority" query_lower
     then
       (* Case 0: analytical queries about tickets *)
       info "Analytical ticket query detected" ;;
       let priority_filter :=
         if Py.contains "high" query_lower && Py.contains "priority" query_lower
         then Some "high"
         else if Py.contains "medium" query_lower && Py.contains "priority" query_lower
         then Some "medium"
         else if Py.contains "low" query_lower && Py.contains "priority" query_lower
         then Some "low"
         else None in
       let priority_desc :=
         match priority_filter with
         | Some (String _ _ as p) => p ++ "-priority "
         | _ => ""
         end in
       customers_response <- route_to_data_agent "get_premium_customers" no_params ;;
       if success customers_response then
         v <- result_of customers_response ;;
         cs <- as_customers v ;;
         filtered_tickets <- collect_tickets priority_filter cs ;;
         match filtered_tickets with
         | _ :: _ =>
             ret (("Found " ++ Py.str_of_nat (List.length filtered_tickets) ++ " "
                   ++ priority_desc ++ "tickets:" ++ Py.nl)
                  :: flat_map
                       (fun t =>
                          ["  • " ++ ft_customer t ++ ": [" ++ Py.upper (ft_status t)
                           ++ "] " ++ ft_issue t;
                           "    Priority: " ++ ft_priority t])
                       (firstn 10 filtered_tickets))
         | [] => ret ["No " ++ priority_desc ++ "tickets found."]
         end
       else ret ["Unable to retrieve ticket data."]
     else if Py.contains "active customers" query_lower
             && Py.contains "tickets" query_lower
     then
       (* Case 1: active customers who have open tickets *)
       info "Step 1: Getting active customers" ;;
       customers_response <- route_to_data_agent "get_premium_customers" no_params ;;
       if success customers_response then
         v <- result_of customers_response ;;
         cs <- as_customers v ;;
         info "Step 2: Getting tickets for customers" ;;
         customers_with_tickets <- collect_open cs ;;
         ret (("Found " ++ Py.str_of_nat (List.length cs) ++ " active customers")
              :: match customers_with_tickets with
                 | _ :: _ =>
                     (Py.nl ++ "Active customers with open tickets:")
                     :: map (fun item =>
                               "- " ++ c_name (fst item) ++ ": "
                               ++ Py.str_of_nat (snd item) ++ " open ticket(s)")
                          customers_with_tickets
                 | [] => ["No active customers with open tickets found."]
                 end)
       else ret []
     else if Py.contains "update" query_lower && Py.contains "email" query_lower
             && truthy cid
     then
       (* Case 2: update email and show history *)
       match Re.search email_pattern query with
       | Some email_match =>
           let new_email := group0 email_match in
           info ("Step 1: Updating email for customer " ++ fmt_id cid) ;;
           update_response <-
             route_to_data_agent "update_customer" (update_params cid "email" new_email) ;;
           let results :=
             if success update_response
             then ["✓ Email updated to " ++ new_email ++ " for customer " ++ fmt_id cid]
             else ["Error updating email: " ++ error_or "Unknown error" update_response] in
           if Py.contains "history" query_lower || Py.contains "ticket" query_lower
           then
             info ("Step 2: Getting ticket history for customer " ++ fmt_id cid) ;;
             history_response <- route_to_data_agent "get_history" (id_params cid) ;;
             if success history_response then
               v <- result_of history_response ;;
               tickets <- as_tickets v ;;
               ret (List.app results
                      ((Py.nl ++ "Ticket History:")
                       :: map (fun t =>
                                 "  - [" ++ Py.upper (t_status t) ++ "] " ++ t_issue t
                                 ++ " (Priority: " ++ t_priority t ++ ")")
                            tickets))
             else ret (List.app results ["No tickets found"])
           else ret results
       | None => ret ["Could not extract email address from query"]
       end
     else if Py.contains "update" query_lower && Py.contains "phone" query_lower
             && truthy cid
     then
       (* Case 2b: update phone *)
       match Re.search phone_pattern query with
       | Some phone_match =>
           let new_phone := group0 phone_match in
           info ("Updating phone for customer " ++ fmt_id cid) ;;
           update_response <-
             route_to_data_agent "update_customer" (update_params cid "phone" new_phone) ;;
           if success update_response then
             v <- result_of update_response ;;
             c <- as_customer v ;;
             ret ["✓ Phone updated to " ++ new_phone ++ " for customer " ++ fmt_id cid;
                  Py.nl ++ "Updated Customer Information:";
                  "  Name: " ++ c_name c;
                  "  Email: " ++ c_email c;
                  "  Phone: " ++ c_phone c]
           else ret ["Error updating phone: " ++ error_or "Unknown error" update_response]
       | None => ret ["Could not extract phone number from query"]
       end
     else if (Py.contains "change" query_lower || Py.contains "update" query_lower)
             && Py.contains "email" query_lower && truthy cid
     then
       (* Case 2c: change email *)
       match Re.search email_pattern query with
       | Some email_match =>
           let new_email := group0 email_match in
           info ("Changing email for customer " ++ fmt_id cid) ;;
           update_response <-
             route_to_data_agent "update_customer" (update_params cid "email" new_email) ;;
           if success update_response then
             v <- result_of update_response ;;
             c <- as_customer v ;;
             ret ["✓ Email changed to " ++ new_email ++ " for customer " ++ fmt_id cid;
                  Py.nl ++ "Updated Customer Information:";
                  "  Name: " ++ c_name c;
                  "  Email: " ++ c_email c]
           else ret ["Error changing email: " ++ error_or "Unknown error" update_response]
       | None => ret ["Could not extract email address from query"]
       end
     else if (Py.contains "ticket" query_lower || Py.contains "history" query_lower)
             && truthy cid
     then
       (* Case 3: ticket history of a customer *)
       info ("Getting ticket history for customer " ++ fmt_id cid) ;;
       history_response <- route_to_data_agent "get_history" (id_params cid) ;;
       if success history_response then
         v <- result_of history_response ;;
         tickets <- as_tickets v ;;
         match tickets with
         | _ :: _ =>
             ret (("Ticket History for Customer " ++ fmt_id cid ++ ":")
                  :: map (fun t =>
                            "  - [" ++ Py.upper (t_status t) ++ "] " ++ t_issue t
                            ++ " (Priority: " ++ t_priority t ++ ", ID: "
                            ++ Py.str_of_Z (t_id t) ++ ")")
                       tickets)
         | [] => ret ["No tickets found for customer " ++ fmt_id cid]
         end
       else
         e <- error_of history_response ;;
         ret ["Error: " ++ e]
     else if truthy cid
             && (Py.contains "help" query_lower || Py.contains "need" query_lower
                 || Py.contains "having" query_lower || Py.contains "here" query_lower
                 || Py.contains "issue" query_lower || Py.contains "problem" query_lower)
     then
       (* Case 4: a customer needs help *)
       data_response <- route_to_data_agent "get_customer" (id_params cid) ;;
       if success data_response then
         v <- result_of data_response ;;
         c <- as_customer v ;;
         support_response <-
           route_to_support_agent "handle_query" (query_params query (Some c)) ;;
         if success support_response then
           sv <- result_of support_response ;;
           solution <- solution_of sv ;;
           ret ["Hello " ++ c_name c ++ "!"; solution]
         else ret ["I'm here to help. Please provide more details."]
       else
         e <- error_of data_response ;;
         ret ["Error: " ++ e]
     else ret []) ;;
  match results with
  | _ :: _ => ret (Py.join Py.nl results)
  | [] => ret "Query processed."
  end.

Fixpoint repeat_string (s : string) (n : nat) : string :=
  match n with
  | O => ""
  | S n' => s ++ repeat_string s n'
  end.

Definition process_query (query : string) : M string :=
  info (repeat_string "=" 80) ;;
  info ("NEW QUERY: " ++ query) ;;
  info (repeat_string "=" 80) ;;
  a <- analyze_query query ;;
  resp <-
    match complexity a with
    | simple => handle_simple_query query a
    | multi_step => handle_multi_step_query query a
    | complex => handle_complex_query query a
    end ;;
  info "Query processing complete" ;;
  info (repeat_string "=" 80) ;;
  ret resp.


Definition clear_coordination_log : M unit :=
  fun w => (Ok tt, mkWorld (db w) [] (dispatches w) (clock w) (ticks w)).

End RouterAgent.

(** ** The router under the interpreter's limit on [int]

    Since CPython 3.11 (and the security releases of 3.7 to 3.10) [int(s)]
    raises [ValueError] when [s] has more than
    [sys.int_info.default_max_str_digits] digits, unless the limit has been
    lifted with [sys.set_int_max_str_digits(0)].  [RouterAgent] above is the
    router with the limit lifted; this module is the router as the
    interpreter runs it by default.  Only [extract_customer_id] calls [int];
    [analyze_query] and [process_query] reach it with no handler between. *)

Module Limit.
Import Re RouterAgent.

Definition max_str_digits : nat := 4300.

(** The [ValueError] of [int] on a string of [n] digits, [n] above the
    limit. *)
Definition too_many_digits (n : nat) : exn :=
  ValueError
    ("Exceeds the limit (4300 digits) for integer string conversion: value has "
     ++ Py.str_of_nat n
     ++ " digits; use sys.set_int_max_str_digits() to increase the limit").

(** [int(s)] on a string of decimal digits *)
Definition int (s : string) : result Z :=
  if (String.length s <=? max_str_digits)%nat then Ok (Py.int s)
  else Raise (too_many_digits (String.length s)).

Fixpoint first_match (ps : list regex) (text : string) : result (option Z) :=
  match ps with
  | [] => Ok None
  | pattern :: rest =>
      match Re.search pattern text with
      | Some m =>
          match group1 m with
          | Some ds =>
              match int ds with
              | Ok n => Ok (Some n)
              | Raise e => Raise e
              end
          | None => Ok None
          end
      | None => first_match rest text
      end
  end.

Definition extract_customer_id (query : string) : result (option Z) :=
  let query_lower := Py.lower query in
  first_match patterns query_lower.

(** The analysis dict is built after the first log call; building it
    evaluates [self.extract_customer_id(query)], which may raise.  When it
    returns, the dict is the one [classify] builds. *)
Definition analyze_query (query : string) : M analysis :=
  info ("Analyzing query: " ++ Py.take 80 query ++ "...") ;;
  match extract_customer_id query with
  | Raise e => raise e
  | Ok _ =>
      let a := classify query in
      info ("Analysis: " ++ tier_name (complexity a) ++ " query, needs: "
            ++ Py.repr_words (intents a)) ;;
      ret a
  end.

Definition process_query (query : string) : M string :=
  info (repeat_string "=" 80) ;;
  info ("NEW QUERY: " ++ query) ;;
  info (repeat_string "=" 80) ;;
  a <- analyze_query query ;;
  resp <-
    match complexity a with
    | simple => handle_simple_query query a
    | multi_step => handle_multi_step_query query a
    | complex => handle_complex_query query a
    end ;;
  info "Query processing complete" ;;
  info (repeat_string "=" 80) ;;
  ret resp.

End Limit.

(** ** [main.py]: the console driver

    [input()] takes the next line of the standard input and raises
    [EOFError] when there is none; the lines still unread travel beside the
    world.  [setup_database] is not part of these sources, so the driver is
    modelled from the router it is handed on. *)

Module Main.
Import RouterAgent.

(** How a piece of the driver ends: it returns, the input runs out, or an
    exception of the agents comes through. *)
Inductive ending (A : Type) : Type :=
| Returned (a : A)
| EOFError
| Raised (e : exn).
Arguments Returned {A} a.
Arguments EOFError {A}.
Arguments Raised {A} e.

Definition Console (A : Type) : Type :=
  list string -> world -> ending A * list string * world.

Definition input : Console string :=
  fun stdin w =>
    match stdin with
    | line :: rest => (Returned line, rest, w)
    | [] => (EOFError, [], w)
    end.

(** A call into the router. *)
Definition call {A} (m : M A) : Console A :=
  fun stdin w =>
    match m w with
    | (Ok a, w') => (Returned a, stdin, w')
    | (Raise e, w') => (Raised e, stdin, w')
    end.

Definition then_ {A B} (m : Console A) (k : A -> Console B) : Console B :=
  fun stdin w =>
    match m stdin w with
    | (Returned a, stdin', w') => k a stdin' w'
    | (EOFError, stdin', w') => (EOFError, stdin', w')
    | (Raised e, stdin', w') => (Raised e, stdin', w')
    end.

Definition run_test_scenario (scenario_num : Z) (query : string) : Console unit :=
  then_ (call clear_coordination_log) (fun _ =>
  then_ (call (process_query query)) (fun response =>
  fun stdin w => (Returned tt, stdin, w))).

Definition test_scenarios : list (string * Z) :=
  [ ("Get customer information for ID 5", 1%Z);
    ("I'm customer 2 and need help upgrading my account", 2%Z);
    ("Show me all active customers who have open tickets", 3%Z);
    ("I've been charged twice, please refund immediately!", 4%Z);
    ("Update my email to newemail@test.com and show my ticket history for customer 1",
     5%Z) ].

(** [for query, scenario_num in scenarios: ...] *)
Fixpoint run_scenarios (scenarios : list (string * Z)) : Console unit :=
  match scenarios with
  | [] => fun stdin w => (Returned tt, stdin, w)
  | (query, scenario_num) :: rest =>
      then_ (run_test_scenario scenario_num query) (fun _ =>
      then_ (if (scenario_num <? 5)%Z
             then then_ input (fun _ => fun stdin w => (Returned tt, stdin, w))
             else fun stdin w => (Returned tt, stdin, w)) (fun _ =>
      run_scenarios rest))
  end.

Definition run_automated_tests : Console unit := run_scenarios test_scenarios.

(** [while True: ...]: every turn of the loop reads a line and the router
    reads none, so the loop is a recursion on the lines still unread. *)
Fixpoint run_interactive_mode (stdin : list string) (w : world)
  : ending unit * list string * world :=
  match stdin with
  | [] => (EOFError, [], w)
  | line :: rest =>
      let query := Py.strip line in
      if String.eqb (Py.lower query) "exit" then (Returned tt, rest, w)
      else
        match query with
        | EmptyString => run_interactive_mode rest w
        | _ =>
            match (clear_coordination_log ;; process_query query) w with
            | (Ok response, w') => run_interactive_mode rest w'
            | (Raise e, w') => (Raised e, rest, w')
            end
        end
  end.

End Main.

(** * Properties *)

Import Re RouterAgent.

(** ** Vocabulary *)

(** What a run returns and the world it leaves. *)
Definition outcome {A} (m : M A) (w : world) : result A := fst (m w).
Definition after {A} (m : M A) (w : world) : world := snd (m w).

Definition provider_name (p : provider) : string :=
  match p with
  | DataService => CustomerDataAgent.name
  | SupportService => SupportAgent.name
  end.

(** The two trace entries of a dispatch, timestamps left out: the outbound
    request and the inbound result summary. *)
Definition exchange_of (d : dispatch) : list (string * string * a2a_message) :=
  [ (RouterAgent.name, provider_name (target d),
     Asked (action (sent d)) (parameters (sent d)));
    (provider_name (target d), RouterAgent.name,
     Answered (success (reply d))) ].

(** The request and result entries of a trace, in trace order. *)
Definition exchanges (l : list log_entry) : list (string * string * a2a_message) :=
  flat_map
    (fun e =>
       match e with
       | A2A _ f t (Asked act ps) => [(f, t, Asked act ps)]
       | A2A _ f t (Answered ok) => [(f, t, Answered ok)]
       | _ => []
       end) l.

Definition entry_time (e : log_entry) : string :=
  match e with
  | Line t _ _ _ => t
  | A2A t _ _ _ => t
  end.

(** The entries of [l] were stamped, in list order, by readings of the
    clock numbered increasingly within [lo, hi). *)
Fixpoint chronological (clk : nat -> string) (lo : nat) (l : list log_entry)
    (hi : nat) : Prop :=
  match l with
  | [] => lo <= hi
  | e :: l' =>
      exists k, lo <= k /\ entry_time e = clk k /\ chronological clk (S k) l' hi
  end.

(** Every character of [s] satisfies [p]. *)
Fixpoint all_chars (p : ascii -> bool) (s : string) : bool :=
  match s with
  | EmptyString => true
  | String c s' => p c && all_chars p s'
  end.






(** [w'] follows [w] in a run of the router: the clock is the same, the
    trace has grown by [l], stamped in order, the dispatches by [ds], and
    the request and result entries of [l] are those of [ds], one pair for
    each dispatch in the order of the calls. *)
Definition grows (w w' : world) (l : list log_entry) (ds : list dispatch) : Prop :=
  clock w' = clock w /\
  coordination_log w' = (coordination_log w ++ l)%list /\
  dispatches w' = (dispatches w ++ ds)%list /\
  chronological (clock w) (ticks w) l (ticks w') /\
  exchanges l = flat_map exchange_of ds.

(** A router computation that returns from every world, with a value that
    satisfies [P]. *)
Definition returns {A} (m : M A) (P : A -> Prop) : Prop :=
  forall w, exists a w' l ds, m w = (Ok a, w') /\ P a /\ grows w w' l ds.

(** What a provider may do to the world: read the clock and change the
    database. *)
Definition quiet (w w' : world) : Prop :=
  clock w' = clock w /\
  coordination_log w' = coordination_log w /\
  dispatches w' = dispatches w /\
  ticks w <= ticks w'.

(** A provider-side computation: it may raise, it leaves the router's
    fields alone, and what it returns satisfies [P]. *)
Definition inner {A} (m : M A) (P : A -> Prop) : Prop :=
  forall w, quiet w (after m w) /\ forall a, outcome m w = Ok a -> P a.

(** The payload each action of the Data Agent answers with. *)
Definition data_payload (act : string) (v : payload) : Prop :=
  if String.eqb act "get_customer" || String.eqb act "update_customer"
  then exists c, v = PCustomer c
  else if String.eqb act "get_history"
  then exists ts, v = PTickets ts
  else if String.eqb act "list_customers" || String.eqb act "get_premium_customers"
  then exists cs, v = PCustomers cs
  else True.

Definition data_shape (act : string) (r : response) : Prop :=
  match r with
  | Success _ v => data_payload act v
  | Failure _ _ => True
  end.

(** A successful answer of the Support Agent to [handle_query]. *)
Definition support_answer (r : response) : Prop :=
  exists s, r = Success SupportAgent.name (PSupport s).

(** What a negotiation leaves in [coordinated_response["responses"]]. *)
Definition coordinated_ok (rs : responses) : Prop :=
  (forall r, r_support rs = Some r -> support_answer r) /\
  (forall r, r_data rs = Some r -> data_shape "get_customer" r) /\
  (forall r, r_support_with_context rs = Some r -> support_answer r).


(** The text of [route_to_data_agent] and [route_to_support_agent], for the
    provider [who] and its [handle_request]. *)
Definition route_to (who : provider) (handle : request -> M response)
    (act : string) (ps : params) : M response :=
  log_a2a_communication name (provider_name who) (Asked act ps) ;;
  resp <- handle (mkRequest act ps name) ;;
  record_dispatch (mkDispatch who (mkRequest act ps name) resp) ;;
  log_a2a_communication (provider_name who) name (Answered (success resp)) ;;
  ret resp.

(** The world in which the provider is called: the request entry has been
    written. *)
Definition asked (who : provider) (act : string) (ps : params) (w : world) : world :=
  mkWorld (db w)
    (coordination_log w ++
     [A2A (clock w (ticks w)) name (provider_name who) (Asked act ps)])%list
    (dispatches w) (clock w) (S (ticks w)).

(** A router computation that, on every database satisfying [pre], returns
    a value and makes dispatches that satisfy [post], and leaves a database
    satisfying [pre]. *)
Definition runs {A} (pre : database -> Prop) (m : M A)
    (post : A -> list dispatch -> Prop) : Prop :=
  forall w, pre (db w) ->
    exists a w' l ds,
      m w = (Ok a, w') /\ grows w w' l ds /\ pre (db w') /\ post a ds.





(** The router forwards [q] to the Support Agent, without customer data. *)
Definition support_dispatch (q : string) : dispatch :=
  mkDispatch SupportService
    (mkRequest "handle_query" (query_params q None) name)
    (Success SupportAgent.name
       (PSupport (SupportAgent.handle_support_query q None))).

(** The router asks the Data Agent for customer [n] and gets [c]. *)
Definition customer_dispatch (n : Z) (c : customer) : dispatch :=
  mkDispatch DataService
    (mkRequest "get_customer" (id_params (Some n)) name)
    (Success CustomerDataAgent.name (PCustomer c)).

(** The database answers and holds [c] as the customer numbered [n]. *)
Definition holds_customer (n : Z) (c : customer) (d : database) : Prop :=
  fault d = None /\
  find (CustomerDatabase.has_id n) (customers d) = Some c.

(** The router forwards [q] to the Support Agent with the customer record
    [c] as context. *)
Definition support_dispatch_with (q : string) (c : customer) : dispatch :=
  mkDispatch SupportService
    (mkRequest "handle_query" (query_params q (Some c)) name)
    (Success SupportAgent.name
       (PSupport (SupportAgent.handle_support_query q (Some c)))).

(** A small world for examples: four customers, three tickets, an empty
    trace. *)
Definition sample_database : database :=
  mkDatabase
    [ mkCustomer 1 "John Doe" "john.doe@example.com" "555-0101" "active"
        "2024-01-01 09:00:00" "2024-01-01 09:00:00";
      mkCustomer 2 "Jane Smith" "jane.smith@example.com" "555-0102" "active"
        "2024-01-02 09:00:00" "2024-01-02 09:00:00";
      mkCustomer 3 "Bob Johnson" "bob.johnson@example.com" "555-0103" "disabled"
        "2024-01-03 09:00:00" "2024-01-03 09:00:00";
      mkCustomer 5 "Charlie Brown" "charlie.brown@example.com" "555-0105" "active"
        "2024-01-05 09:00:00" "2024-01-05 09:00:00" ]
    [ mkTicket 1 1 "Cannot login to account" "open" "high" "2024-02-01 10:00:00";
      mkTicket 2 1 "Question about billing" "resolved" "low" "2024-02-03 10:00:00";
      mkTicket 3 2 "Page loads slowly" "open" "medium" "2024-02-02 10:00:00" ]
    None.

Definition sample_world : world :=
  mkWorld sample_database [] [] (fun k => Py.str_of_nat k) 0.


(** A customer row without the time of its last update, the one column
    that is written from the clock. *)
Definition erase_customer (c : customer) : customer :=
  mkCustomer (c_id c) (c_name c) (c_email c) (c_phone c) (c_status c)
    (c_created_at c) "".

Definition alike_customer (c1 c2 : customer) : Prop :=
  erase_customer c1 = erase_customer c2.

Definition alike_customers (cs1 cs2 : list customer) : Prop :=
  Forall2 alike_customer cs1 cs2.

(** Two databases that differ at most in the [updated_at] column. *)
Definition similar (d1 d2 : database) : Prop :=
  alike_customers (customers d1) (customers d2) /\
  tickets d1 = tickets d2 /\
  fault d1 = fault d2.

Definition alike_payload (v1 v2 : payload) : Prop :=
  match v1, v2 with
  | PCustomer c1, PCustomer c2 => alike_customer c1 c2
  | PCustomers cs1, PCustomers cs2 => alike_customers cs1 cs2
  | _, _ => v1 = v2
  end.

Definition alike_response (r1 r2 : response) : Prop :=
  match r1, r2 with
  | Success a1 v1, Success a2 v2 => a1 = a2 /\ alike_payload v1 v2
  | Failure a1 e1, Failure a2 e2 => a1 = a2 /\ e1 = e2
  | _, _ => False
  end.

Definition alike_tool_result (r1 r2 : MCPServer.tool_result) : Prop :=
  match r1, r2 with
  | MCPServer.ToolOk v1, MCPServer.ToolOk v2 => alike_payload v1 v2
  | MCPServer.ToolError e1, MCPServer.ToolError e2 => e1 = e2
  | _, _ => False
  end.

Definition alike_option {A} (R : A -> A -> Prop) (o1 o2 : option A) : Prop :=
  match o1, o2 with
  | Some a1, Some a2 => R a1 a2
  | None, None => True
  | _, _ => False
  end.

Definition alike_responses (rs1 rs2 : responses) : Prop :=
  alike_option alike_response (r_support rs1) (r_support rs2) /\
  alike_option alike_response (r_data rs1) (r_data rs2) /\
  alike_option alike_response (r_support_with_context rs1)
    (r_support_with_context rs2).

(** The entries of [customers_with_tickets] of two runs. *)
Definition alike_open (p1 p2 : customer * nat) : Prop :=
  alike_customer (fst p1) (fst p2) /\ snd p1 = snd p2.

(** Two outcomes that agree: both return, values related by [R], or both
    raise the same exception; the databases left are similar. *)
Definition alike_outcome {A} (R : A -> A -> Prop)
    (o1 o2 : result A * world) : Prop :=
  similar (db (snd o1)) (db (snd o2)) /\
  match fst o1, fst o2 with
  | Ok a1, Ok a2 => R a1 a2
  | Raise e1, Raise e2 => e1 = e2
  | _, _ => False
  end.

(** Two computations that agree on similar databases, whatever the clock,
    the trace and the history of dispatches. *)
Definition alike {A} (R : A -> A -> Prop) (m1 m2 : M A) : Prop :=
  forall w1 w2, similar (db w1) (db w2) -> alike_outcome R (m1 w1) (m2 w2).

(** ** Vocabulary of the database, the tool server and the Data Agent *)

(** The allowed fields that [data] gives a value: the columns an update
    sets. *)
Definition update_fields (data : list (string * string)) : list string :=
  filter (fun f => match CustomerDatabase.lookup f data with
                   | Some _ => true
                   | None => false
                   end)
    CustomerDatabase.allowed_fields.

(** No ticket of the list is older than one that follows it. *)
Definition newest_first : list ticket -> Prop :=
  StronglySorted
    (fun t u => String.ltb (t_created_at t) (t_created_at u) = false).

Definition row_not_older (r u : CustomerDatabase.ticket_row) : Prop :=
  String.ltb (t_created_at (CustomerDatabase.tr_ticket r))
             (t_created_at (CustomerDatabase.tr_ticket u)) = false.

(** A world whose database file fails on every statement. *)
Definition broken_world : world :=
  mkWorld (mkDatabase [] [] (Some "no such table: customers")) [] []
    (fun k => Py.str_of_nat k) 0.

(** [d.get(key)] on a schema value *)
Fixpoint entry (key : string) (items : list (string * MCPServer.value))
  : option MCPServer.value :=
  match items with
  | [] => None
  | (k, v) :: rest => if String.eqb k key then Some v else entry key rest
  end.

Definition field (key : string) (v : MCPServer.value) : option MCPServer.value :=
  match v with
  | MCPServer.VDict items => entry key items
  | _ => None
  end.

Definition texts (v : option MCPServer.value) : list string :=
  match v with
  | Some (MCPServer.VList xs) =>
      flat_map (fun x => match x with MCPServer.VStr s => [s] | _ => [] end) xs
  | _ => []
  end.

(** The name a schema advertises and the arguments it declares required. *)
Definition advertised_name (schema : MCPServer.value) : option string :=
  match field "name" schema with
  | Some (MCPServer.VStr s) => Some s
  | _ => None
  end.

Definition advertised_required (schema : MCPServer.value) : list string :=
  match field "parameters" schema with
  | Some ps => texts (field "required" ps)
  | None => []
  end.

(** The keyword arguments a call passes. *)
Definition passes (arg : string) (p : MCPServer.tool_params) : bool :=
  if String.eqb arg "customer_id" then
    match MCPServer.tp_customer_id p with Some _ => true | None => false end
  else if String.eqb arg "status" then
    match MCPServer.tp_status p with Some _ => true | None => false end
  else if String.eqb arg "limit" then
    match MCPServer.tp_limit p with Some _ => true | None => false end
  else if String.eqb arg "data" then
    match MCPServer.tp_data p with Some _ => true | None => false end
  else if String.eqb arg "issue" then
    match MCPServer.tp_issue p with Some _ => true | None => false end
  else if String.eqb arg "priority" then
    match MCPServer.tp_priority p with Some _ => true | None => false end
  else false.

(** What each tool hands back under ["result"]. *)
Definition tool_payload (tool_name : string) (v : payload) : Prop :=
  if String.eqb tool_name "get_customer" || String.eqb tool_name "update_customer"
  then exists c, v = PCustomer c
  else if String.eqb tool_name "list_customers"
  then exists cs, v = PCustomers cs
  else if String.eqb tool_name "get_customer_history"
  then exists ts, v = PTickets ts
  else if String.eqb tool_name "create_ticket"
  then exists ticket_id customer_id issue priority,
         v = PNewTicket ticket_id customer_id issue priority "open" /\
         ticket_id <> 0%Z
  else False.

(** What a method of the Data Agent may end in: a value or a [ValueError]. *)
Definition value_or_value_error {A} (r : result A) : Prop :=
  match r with
  | Ok _ => True
  | Raise (ValueError _) => True
  | Raise _ => False
  end.

(** The rows a status filter keeps: no filter, or an empty one, keeps all. *)
Definition with_status (status : option string) (rows : list customer)
  : list customer :=
  match status with
  | Some (String _ _ as st) => filter (fun c => String.eqb (c_status c) st) rows
  | _ => rows
  end.

(** ** Vocabulary of the agents' requests and of database invariants *)



(** A computation that keeps an invariant of the database. *)
Definition keeps {A} (I : database -> Prop) (m : M A) : Prop :=
  forall w, I (db w) -> I (db (after m w)).

(** The queries that ask for a change of a customer's email or phone: the
    guards of the three update cases of the multi-step strategy. *)
Definition requests_update (q : string) : bool :=
  let query_lower := Py.lower q in
  (Py.contains "update" query_lower
   && (Py.contains "email" query_lower || Py.contains "phone" query_lower))
  || (Py.contains "change" query_lower && Py.contains "email" query_lower).

(** [c'] is the row [c] with, at most, another email, phone and time of
    update; it is [c] itself unless [c] is the customer numbered [n]. *)
Definition same_but_contact (n : option Z) (c c' : customer) : Prop :=
  c_id c' = c_id c /\ c_name c' = c_name c /\ c_status c' = c_status c /\
  c_created_at c' = c_created_at c /\
  (Some (c_id c) <> n -> c' = c).

(** [d'] has the tickets of [d] and its customers row by row, up to the
    contact data of customer [n]. *)
Definition contact_update_of (n : option Z) (d d' : database) : Prop :=
  tickets d' = tickets d /\ fault d' = fault d /\
  Forall2 (same_but_contact n) (customers d) (customers d').

(** ** Vocabulary of the identifier under the limit on [int] *)





(** ** Vocabulary of the strategies *)

(** The analysis with its customer identifier taken out. *)
Definition without_customer_id (a : analysis) : analysis :=
  mkAnalysis (query a) None (needs_data_agent a) (needs_support_agent a)
    (needs_coordination a) (complexity a) (intents a).

(** What a negotiation leaves behind for a query [q] analysed as [a]:
    the answers [rs] and the dispatches [ds] it made. *)
Definition negotiated (q : string) (a : analysis) (rs : responses)
    (ds : list dispatch) : Prop :=
  if needs_support_agent a then
    r_support rs = Some (reply (support_dispatch q)) /\
    if SupportAgent.needs_customer_context q && truthy (customer_id a) then
      exists data_response,
        r_data rs = Some data_response /\
        let lookup :=
          mkDispatch DataService
            (mkRequest "get_customer" (id_params (customer_id a)) name)
            data_response in
        match data_response with
        | Success _ (PCustomer c) =>
            ds = [support_dispatch q; lookup; support_dispatch_with q c] /\
            r_support_with_context rs = Some (reply (support_dispatch_with q c))
        | Success _ _ => False
        | Failure _ _ =>
            ds = [support_dispatch q; lookup] /\
            r_support_with_context rs = None
        end
    else ds = [support_dispatch q] /\ r_data rs = None /\
         r_support_with_context rs = None
  else ds = [] /\ rs = mkResponses None None None.

(** ** Basic facts about runs *)





(** ** The classifier *)






(** ** The matcher *)


Lemma length_app (a b : string) : length (a ++ b) = length a + length b.
Proof. induction a; simpl; [reflexivity | now rewrite IHa]. Qed.





Section RepeatClass.
Variable R : Type.
Variables (p : ascii -> bool) (lo : nat) (g : option string) (k : cont R).


Hypothesis k_total : forall prev s, k prev s g <> None.

End RepeatClass.










Lemma search_from_unfold (r : regex) (prev : option ascii) (s : string) :
  search_from r prev s =
  match match_at r prev s with
  | Some m => Some m
  | None =>
      match s with
      | String c s' => search_from r (Some c) s'
      | EmptyString => None
      end
  end.
Proof. destruct s; reflexivity. Qed.

(** ** [extract_customer_id] *)




Lemma first_match_wins (text : string) (p : regex) (m : rmatch) (ds : string) :
  forall before later,
    Forall (fun r => Re.search r text = None) before ->
    Re.search p text = Some m -> group1 m = Some ds ->
    first_match (before ++ p :: later)%list text = Some (Py.int ds).
Proof.
  induction before as [|r before IH]; intros later Hnone Hp Hg; simpl.
  - now rewrite Hp, Hg.
  - inversion Hnone; subst. rewrite H1. now apply IH.
Qed.

(** ** Provider-side computations *)

Lemma quiet_refl (w : world) : quiet w w.
Proof. repeat split; reflexivity. Qed.

Lemma quiet_trans (w1 w2 w3 : world) : quiet w1 w2 -> quiet w2 w3 -> quiet w1 w3.
Proof.
  intros (Hc & Hl & Hd & Ht) (Hc' & Hl' & Hd' & Ht').
  repeat split; [congruence | congruence | congruence | lia].
Qed.

Lemma inner_ret {A} (a : A) (P : A -> Prop) : P a -> inner (ret a) P.
Proof.
  intros Hp w. split; [apply quiet_refl|].
  unfold outcome, ret. cbn. intros a' E. injection E as <-. exact Hp.
Qed.

Lemma inner_raise {A} (e : exn) (P : A -> Prop) : inner (raise e) P.
Proof.
  intros w. split; [apply quiet_refl|].
  unfold outcome, raise. cbn. discriminate.
Qed.

Lemma inner_bind {A B} (m : M A) (k : A -> M B) (P : A -> Prop) (Q : B -> Prop) :
  inner m P -> (forall a, P a -> inner (k a) Q) -> inner (bind m k) Q.
Proof.
  intros Hm Hk w. specialize (Hm w). unfold after, outcome, bind in *.
  destruct (m w) as [[a|e] w1]; cbn in *.
  - destruct Hm as [Hq Hp]. specialize (Hk a (Hp a eq_refl) w1).
    destruct Hk as [Hq' Hp']. split; [eapply quiet_trans; eauto | exact Hp'].
  - destruct Hm as [Hq _]. split; [exact Hq | discriminate].
Qed.

Lemma inner_try_except {A} (m : M A) (h : exn -> M A) (P : A -> Prop) :
  inner m P -> (forall e, inner (h e) P) -> inner (try_except m h) P.
Proof.
  intros Hm Hh w. specialize (Hm w). unfold after, outcome, try_except in *.
  destruct (m w) as [[a|e] w1]; cbn in *.
  - exact Hm.
  - destruct Hm as [Hq _]. destruct (Hh e w1) as [Hq' Hp'].
    split; [eapply quiet_trans; eauto | exact Hp'].
Qed.

Lemma inner_try_catch {A} (m : M A) (c : exn -> bool) (h : exn -> M A)
    (P : A -> Prop) :
  inner m P -> (forall e, inner (h e) P) -> inner (try_catch m c h) P.
Proof.
  intros Hm Hh. apply inner_try_except; [exact Hm|].
  intro e. destruct (c e); [apply Hh | apply inner_raise].
Qed.

Lemma inner_get_db : inner get_db (fun _ => True).
Proof. intro w. split; [apply quiet_refl | trivial]. Qed.

Lemma inner_put_db (d : database) : inner (put_db d) (fun _ => True).
Proof. intro w. split; [repeat split; cbn; lia | trivial]. Qed.

Lemma inner_now : inner now (fun _ => True).
Proof. intro w. split; [repeat split; cbn; lia | trivial]. Qed.

Lemma inner_item {A} (key : string) (v : option A) : inner (item key v) (fun _ => True).
Proof. destruct v; [now apply inner_ret | apply inner_raise]. Qed.

Lemma inner_for_each {A S} (body : A -> S -> M S) (xs : list A) :
  (forall x acc, inner (body x acc) (fun _ => True)) ->
  forall acc, inner (for_each xs acc body) (fun _ => True).
Proof.
  intro Hb. induction xs as [|x xs IH]; intro acc; simpl.
  - now apply inner_ret.
  - eapply inner_bind; [apply Hb | intros; apply IH].
Qed.

(** One step of a provider-side proof: the rule for the head of the
    computation. *)
Ltac inner_step :=
  match goal with
  | |- inner (ret _) _ => apply inner_ret
  | |- inner (raise _) _ => apply inner_raise
  | |- inner (bind _ _) _ => eapply inner_bind; [|intros ? ?]
  | |- inner (try_catch _ _ _) _ => apply inner_try_catch; [|intros ?]
  | |- inner (try_except _ _) _ => apply inner_try_except; [|intros ?]
  | |- inner get_db _ => apply inner_get_db
  | |- inner (put_db _) _ => apply inner_put_db
  | |- inner now _ => apply inner_now
  | |- inner (item _ _) _ => apply inner_item
  | |- inner (if ?b then _ else _) _ => destruct b
  | |- inner (match ?x with _ => _ end) _ => destruct x
  end.

Ltac inner_auto := repeat (inner_step; cbn beta); trivial.

Lemma inner_execute (ints : list Z) :
  inner (CustomerDatabase.execute ints) (fun _ => True).
Proof.
  unfold CustomerDatabase.execute.
  eapply inner_bind; [apply inner_get_db|]. intros d _.
  destruct (fault d); [apply inner_raise|].
  eapply inner_bind; [|intros; now apply inner_ret].
  apply inner_for_each. intros n _. unfold CustomerDatabase.bind_int.
  inner_auto.
Qed.

Lemma inner_db_get_customer (customer_id : Z) :
  inner (CustomerDatabase.get_customer customer_id) (fun _ => True).
Proof.
  unfold CustomerDatabase.get_customer.
  eapply inner_bind; [apply inner_execute | intros; now apply inner_ret].
Qed.

Lemma inner_db_list_customers (status : option string) (limit : Z) :
  inner (CustomerDatabase.list_customers status limit) (fun _ => True).
Proof.
  unfold CustomerDatabase.list_customers.
  eapply inner_bind; [apply inner_execute | intros d _].
  destruct status as [[|c st]|]; now apply inner_ret.
Qed.

Lemma inner_db_get_customer_history (customer_id : Z) :
  inner (CustomerDatabase.get_customer_history customer_id) (fun _ => True).
Proof.
  unfold CustomerDatabase.get_customer_history.
  eapply inner_bind; [apply inner_execute | intros; now apply inner_ret].
Qed.

Lemma inner_db_update_customer (customer_id : Z) (data : list (string * string)) :
  inner (CustomerDatabase.update_customer customer_id data) (fun _ => True).
Proof.
  unfold CustomerDatabase.update_customer.
  destruct (filter _ CustomerDatabase.allowed_fields); [now apply inner_ret|].
  eapply inner_bind; [apply inner_now | intros stamp _].
  apply inner_try_catch; [|intros; now apply inner_ret].
  eapply inner_bind; [apply inner_execute | intros d _].
  eapply inner_bind; [apply inner_put_db | intros; now apply inner_ret].
Qed.

Lemma inner_db_create_ticket (customer_id : Z) (issue priority : string) :
  inner (CustomerDatabase.create_ticket customer_id issue priority) (fun _ => True).
Proof.
  unfold CustomerDatabase.create_ticket.
  eapply inner_bind; [apply inner_execute | intros d _].
  destruct (find _ (customers d)); [|now apply inner_ret].
  apply inner_try_catch; [|intros; now apply inner_ret].
  eapply inner_bind; [apply inner_execute | intros d' _].
  eapply inner_bind; [apply inner_now | intros stamp _].
  eapply inner_bind; [apply inner_put_db | intros; now apply inner_ret].
Qed.

Lemma find_after_update (customer_id : Z) (f : customer -> customer)
    (rows : list customer) :
  (forall c, c_id (f c) = c_id c) ->
  existsb (CustomerDatabase.has_id customer_id) rows = true ->
  exists c,
    find (CustomerDatabase.has_id customer_id)
      (map (fun c => if CustomerDatabase.has_id customer_id c then f c else c) rows)
    = Some c.
Proof.
  intros Hf. induction rows as [|r rows IH]; simpl; [discriminate|].
  intro H. destruct (CustomerDatabase.has_id customer_id r) eqn:Hr.
  - exists (f r). unfold CustomerDatabase.has_id in *. now rewrite Hf, Hr.
  - rewrite Hr. apply IH. exact H.
Qed.

Lemma execute_one (n : Z) (w : world) :
  CustomerDatabase.execute [n] w =
  match fault (db w) with
  | Some msg => (Raise (SqliteError msg), w)
  | None =>
      if CustomerDatabase.fits_int64 n then (Ok (db w), w)
      else (Raise (OverflowError
                     "Python int too large to convert to SQLite INTEGER"), w)
  end.
Proof.
  unfold CustomerDatabase.execute, bind, get_db, for_each,
    CustomerDatabase.bind_int.
  destruct (fault (db w)); [reflexivity|].
  destruct (CustomerDatabase.fits_int64 n); reflexivity.
Qed.

(** An update that succeeded is followed by a lookup that finds the row. *)
Lemma update_then_get (customer_id : Z) (data : list (string * string))
    (w w1 : world) :
  CustomerDatabase.update_customer customer_id data w = (Ok true, w1) ->
  exists c, CustomerDatabase.get_customer customer_id w1 = (Ok (Some c), w1).
Proof.
  unfold CustomerDatabase.update_customer.
  destruct (filter _ CustomerDatabase.allowed_fields); [discriminate|].
  unfold CustomerDatabase.get_customer, try_catch, try_except, bind, now.
  rewrite execute_one. cbn [db].
  destruct (fault (db w)) eqn:Hf; [discriminate|].
  destruct (CustomerDatabase.fits_int64 customer_id) eqn:Hr; [|discriminate].
  unfold put_db, ret. cbn [db coordination_log dispatches clock ticks].
  intro H. injection H as Hex <-.
  rewrite execute_one. cbn [db fault customers]. rewrite Hf, Hr.
  cbn [db fault customers].
  destruct (find_after_update customer_id
              (CustomerDatabase.set_fields data (clock w (ticks w)))
              (customers (db w)) (fun c => eq_refl) Hex) as [c Hc].
  exists c. now rewrite Hc.
Qed.

Lemma inner_required {A} (tool_name arg : string) (v : option A) :
  inner (MCPServer.required tool_name arg v) (fun _ => True).
Proof.
  destruct v; [now apply inner_ret | apply inner_raise].
Qed.

Lemma inner_mcp_get_customer (p : MCPServer.tool_params) :
  inner (MCPServer.get_customer p) (fun v => exists c, v = PCustomer c).
Proof.
  unfold MCPServer.get_customer.
  eapply inner_bind; [apply inner_required | intros customer_id _].
  eapply inner_bind; [apply inner_db_get_customer | intros [row|] _].
  - apply inner_ret. now exists row.
  - apply inner_raise.
Qed.

Lemma inner_mcp_list_customers (p : MCPServer.tool_params) :
  inner (MCPServer.list_customers p) (fun v => exists cs, v = PCustomers cs).
Proof.
  unfold MCPServer.list_customers.
  eapply inner_bind; [apply inner_db_list_customers | intros cs _].
  apply inner_ret. now exists cs.
Qed.

Lemma inner_mcp_get_customer_history (p : MCPServer.tool_params) :
  inner (MCPServer.get_customer_history p) (fun v => exists ts, v = PTickets ts).
Proof.
  unfold MCPServer.get_customer_history.
  eapply inner_bind; [apply inner_required | intros customer_id _].
  eapply inner_bind; [apply inner_db_get_customer_history | intros ts _].
  apply inner_ret. now exists ts.
Qed.


Lemma inner_mcp_update_customer (p : MCPServer.tool_params) :
  inner (MCPServer.update_customer p) (fun v => exists c, v = PCustomer c).
Proof.
  assert (Hquiet : inner (MCPServer.update_customer p) (fun _ => True)).
  { unfold MCPServer.update_customer.
    eapply inner_bind; [apply inner_required | intros customer_id _].
    eapply inner_bind; [apply inner_required | intros data _].
    eapply inner_bind; [apply inner_db_update_customer | intros [|] _].
    - eapply inner_bind; [apply inner_db_get_customer | intros; now apply inner_ret].
    - apply inner_raise. }
  intro w. split; [apply Hquiet|].
  unfold outcome, MCPServer.update_customer, MCPServer.required,
    MCPServer.missing.
  destruct (MCPServer.tp_customer_id p) as [customer_id|]; [|discriminate].
  destruct (MCPServer.tp_data p) as [data|]; [|discriminate].
  unfold bind at 1 2. cbn [ret].
  unfold bind at 1.
  destruct (CustomerDatabase.update_customer customer_id data w)
    as [[[|]|e] w1] eqn:Hup; try discriminate.
  destruct (update_then_get _ _ _ Hup) as [c Hc].
  unfold bind. rewrite Hc. cbn. intros v E. injection E as <-. now exists c.
Qed.

(** [call_tool] turns what a tool raises into an error result. *)
Lemma inner_call (f : MCPServer.tool_params -> M payload)
    (p : MCPServer.tool_params) (P : payload -> Prop) :
  inner (f p) P ->
  inner (try_except (r <- f p ;; ret (MCPServer.ToolOk r))
           (fun e => ret (MCPServer.ToolError (str_exn e))))
        (fun r => forall v, r = MCPServer.ToolOk v -> P v).
Proof.
  intro Hf. apply inner_try_except.
  - eapply inner_bind; [exact Hf | intros v Hv].
    apply inner_ret. intros v' E. now injection E as <-.
  - intro e. apply inner_ret. discriminate.
Qed.

Lemma inner_unwrap (r : MCPServer.tool_result) (P : payload -> Prop) :
  (forall v, r = MCPServer.ToolOk v -> P v) ->
  inner (CustomerDataAgent.unwrap r) P.
Proof.
  intro H. destruct r as [v|e]; [apply inner_ret, H; reflexivity | apply inner_raise].
Qed.

Lemma inner_get_customer_info (customer_id : Z) :
  inner (CustomerDataAgent.get_customer_info customer_id)
    (fun v => exists c, v = PCustomer c).
Proof.
  unfold CustomerDataAgent.get_customer_info.
  eapply inner_bind;
    [apply (inner_call MCPServer.get_customer), inner_mcp_get_customer|].
  intros r Hr. now apply inner_unwrap.
Qed.

Lemma inner_list_customers (status : option string) (limit : Z) :
  inner (CustomerDataAgent.list_customers status limit)
    (fun v => exists cs, v = PCustomers cs).
Proof.
  unfold CustomerDataAgent.list_customers.
  eapply inner_bind;
    [apply (inner_call MCPServer.list_customers), inner_mcp_list_customers|].
  intros r Hr. now apply inner_unwrap.
Qed.

Lemma inner_update_customer_info (customer_id : Z) (updates : list (string * string)) :
  inner (CustomerDataAgent.update_customer_info customer_id updates)
    (fun v => exists c, v = PCustomer c).
Proof.
  unfold CustomerDataAgent.update_customer_info.
  eapply inner_bind;
    [apply (inner_call MCPServer.update_customer), inner_mcp_update_customer|].
  intros r Hr. now apply inner_unwrap.
Qed.

Lemma inner_get_customer_history (customer_id : Z) :
  inner (CustomerDataAgent.get_customer_history customer_id)
    (fun v => exists ts, v = PTickets ts).
Proof.
  unfold CustomerDataAgent.get_customer_history.
  eapply inner_bind;
    [apply (inner_call MCPServer.get_customer_history),
       inner_mcp_get_customer_history|].
  intros r Hr. now apply inner_unwrap.
Qed.

Lemma inner_validate_customer_exists (customer_id : Z) :
  inner (CustomerDataAgent.validate_customer_exists customer_id) (fun _ => True).
Proof.
  unfold CustomerDataAgent.validate_customer_exists.
  apply inner_try_catch; [|intros; now apply inner_ret].
  eapply inner_bind; [apply inner_get_customer_info | intros; now apply inner_ret].
Qed.


(** A handler that returns makes a [try] that returns. *)
Lemma try_except_returns {A} (m : M A) (f : exn -> A) (w : world) :
  exists a w', try_except m (fun e => ret (f e)) w = (Ok a, w').
Proof.
  unfold try_except, ret. destruct (m w) as [[a|e] w1]; eauto.
Qed.

Lemma inner_returning {A} (m : M A) (P : A -> Prop) (w : world) :
  inner m P -> (exists a w', m w = (Ok a, w')) ->
  exists a w', m w = (Ok a, w') /\ quiet w w' /\ P a.
Proof.
  intros Hm (a & w' & E). exists a, w'. destruct (Hm w) as [Hq Hp].
  unfold after, outcome in *. rewrite E in *. cbn in *. auto.
Qed.

(** The Data Agent answers every request, touches nothing of the router,
    and a successful answer has the payload of its action. *)
Lemma data_handle_request_answers (req : request) (w : world) :
  exists resp w',
    CustomerDataAgent.handle_request req w = (Ok resp, w') /\
    quiet w w' /\ data_shape (action req) resp.
Proof.
  apply inner_returning; [|apply try_except_returns].
  unfold CustomerDataAgent.handle_request.
  apply inner_try_except; [|intro e; now apply inner_ret].
  eapply inner_bind with (P := data_payload (action req));
    [|intros v Hv; now apply inner_ret].
  unfold data_payload.
  destruct (String.eqb (action req) "get_customer") eqn:E1.
  { eapply inner_bind; [apply inner_item | intros; apply inner_get_customer_info]. }
  destruct (String.eqb (action req) "list_customers") eqn:E2.
  { apply String.eqb_eq in E2. rewrite E2. cbn. apply inner_list_customers. }
  destruct (String.eqb (action req) "update_customer") eqn:E3.
  { eapply inner_bind; [apply inner_item | intros ? _].
    eapply inner_bind; [apply inner_item | intros; apply inner_update_customer_info]. }
  destruct (String.eqb (action req) "get_history") eqn:E4.
  { eapply inner_bind; [apply inner_item | intros; apply inner_get_customer_history]. }
  cbn [orb].
  destruct (String.eqb (action req) "validate_customer") eqn:E5.
  { apply String.eqb_eq in E5. rewrite E5. cbn.
    eapply inner_bind; [apply inner_item | intros ? _].
    eapply inner_bind; [apply inner_validate_customer_exists|].
    intros; now apply inner_ret. }
  destruct (String.eqb (action req) "get_premium_customers") eqn:E6.
  { apply inner_list_customers. }
  apply inner_raise.
Qed.


(** ** Router computations *)

Lemma chronological_from (clk : nat -> string) (l : list log_entry) :
  forall lo lo' hi, lo <= lo' -> chronological clk lo' l hi -> chronological clk lo l hi.
Proof.
  destruct l as [|e l]; simpl; intros lo lo' hi Hlo H; [lia|].
  destruct H as (k & Hk & He & H). exists k. repeat split; [lia | exact He | exact H].
Qed.

Lemma chronological_app (clk : nat -> string) (l1 l2 : list log_entry) :
  forall lo mid hi,
    chronological clk lo l1 mid -> chronological clk mid l2 hi ->
    chronological clk lo (l1 ++ l2)%list hi.
Proof.
  induction l1 as [|e l1 IH]; simpl; intros lo mid hi H1 H2.
  - eapply chronological_from; eauto.
  - destruct H1 as (k & Hk & He & H1). exists k. repeat split; eauto.
Qed.

Lemma exchanges_app (l1 l2 : list log_entry) :
  exchanges (l1 ++ l2)%list = (exchanges l1 ++ exchanges l2)%list.
Proof. apply flat_map_app. Qed.

Lemma grows_refl (w : world) : grows w w [] [].
Proof.
  unfold grows. rewrite !app_nil_r. simpl. repeat split; lia.
Qed.

Lemma grows_trans (w w1 w2 : world) (l1 l2 : list log_entry)
    (ds1 ds2 : list dispatch) :
  grows w w1 l1 ds1 -> grows w1 w2 l2 ds2 ->
  grows w w2 (l1 ++ l2)%list (ds1 ++ ds2)%list.
Proof.
  intros (Hc & Hl & Hd & Ht & He) (Hc' & Hl' & Hd' & Ht' & He').
  unfold grows. rewrite Hc', Hc, Hl', Hl, Hd', Hd, !app_assoc.
  repeat split.
  - rewrite Hc in Ht'. eapply chronological_app; eauto.
  - now rewrite exchanges_app, flat_map_app, He, He'.
Qed.

Lemma returns_ret {A} (a : A) (P : A -> Prop) : P a -> returns (ret a) P.
Proof.
  intros Hp w. exists a, w, [], [].
  split; [reflexivity | split; [exact Hp | apply grows_refl]].
Qed.

Lemma returns_bind {A B} (m : M A) (k : A -> M B) (P : A -> Prop) (Q : B -> Prop) :
  returns m P -> (forall a, P a -> returns (k a) Q) -> returns (bind m k) Q.
Proof.
  intros Hm Hk w.
  destruct (Hm w) as (a & w1 & l1 & ds1 & E1 & Hp & G1).
  destruct (Hk a Hp w1) as (b & w2 & l2 & ds2 & E2 & Hq & G2).
  exists b, w2, (l1 ++ l2)%list, (ds1 ++ ds2)%list.
  unfold bind. rewrite E1. split; [exact E2 | split; [exact Hq|]].
  eapply grows_trans; eauto.
Qed.

Lemma returns_log (message level : string) :
  returns (log message level) (fun _ => True).
Proof.
  intro w.
  exists tt,
    (mkWorld (db w)
       (coordination_log w ++ [Line (clock w (ticks w)) name level message])%list
       (dispatches w) (clock w) (S (ticks w))),
    [Line (clock w (ticks w)) name level message], [].
  unfold grows. cbn. rewrite app_nil_r. repeat split.
  exists (ticks w). repeat split; lia.
Qed.

Lemma returns_info (message : string) : returns (info message) (fun _ => True).
Proof. apply returns_log. Qed.

Lemma returns_said (from_agent to_agent text : string) :
  returns (log_a2a_communication from_agent to_agent (Said text)) (fun _ => True).
Proof.
  intro w.
  exists tt,
    (mkWorld (db w)
       (coordination_log w ++
        [A2A (clock w (ticks w)) from_agent to_agent (Said text)])%list
       (dispatches w) (clock w) (S (ticks w))),
    [A2A (clock w (ticks w)) from_agent to_agent (Said text)], [].
  unfold grows. cbn. rewrite app_nil_r. repeat split.
  exists (ticks w). repeat split; lia.
Qed.

(** A dispatch: when the provider answers, the router has written the
    request entry, recorded the call and written the result entry, and
    nothing else. *)
Lemma dispatch_step (who : provider) (handle : request -> M response)
    (act : string) (ps : params) (w w2 : world) (resp : response) :
  handle (mkRequest act ps name) (asked who act ps w) = (Ok resp, w2) ->
  quiet (asked who act ps w) w2 ->
  exists w' t1 t2,
    route_to who handle act ps w = (Ok resp, w') /\
    db w' = db w2 /\
    coordination_log w' =
      (coordination_log w ++
       [A2A t1 name (provider_name who) (Asked act ps);
        A2A t2 (provider_name who) name (Answered (success resp))])%list /\
    grows w w'
      [A2A t1 name (provider_name who) (Asked act ps);
       A2A t2 (provider_name who) name (Answered (success resp))]
      [mkDispatch who (mkRequest act ps name) resp].
Proof.
  intros E (Hc & Hl & Hd & Ht).
  exists (mkWorld (db w2)
            (coordination_log w2 ++
             [A2A (clock w2 (ticks w2)) (provider_name who) name
                (Answered (success resp))])%list
            (dispatches w2 ++ [mkDispatch who (mkRequest act ps name) resp])%list
            (clock w2) (S (ticks w2))),
    (clock w (ticks w)), (clock w2 (ticks w2)).
  assert (Hlog : (coordination_log w2 ++
                  [A2A (clock w2 (ticks w2)) (provider_name who) name
                     (Answered (success resp))])%list =
                 (coordination_log w ++
                  [A2A (clock w (ticks w)) name (provider_name who) (Asked act ps);
                   A2A (clock w2 (ticks w2)) (provider_name who) name
                     (Answered (success resp))])%list).
  { rewrite Hl. cbn. now rewrite <- app_assoc. }
  split; [|split; [reflexivity | split; [exact Hlog|]]].
  - unfold route_to, bind, log_a2a_communication, now, append_log,
      record_dispatch, ret.
    cbn. fold (asked who act ps w). rewrite E. reflexivity.
  - unfold grows. cbn [clock coordination_log dispatches ticks].
    rewrite Hlog, Hc, Hd. cbn in *. repeat split.
    exists (ticks w). repeat split; [lia|].
    exists (ticks w2). repeat split; lia.
Qed.

Lemma returns_dispatch (who : provider) (handle : request -> M response)
    (act : string) (ps : params) (P : response -> Prop) :
  (forall w, exists resp w',
      handle (mkRequest act ps name) w = (Ok resp, w') /\ quiet w w' /\ P resp) ->
  returns (route_to who handle act ps) P.
Proof.
  intros Hh w.
  destruct (Hh (asked who act ps w)) as (resp & w2 & E & Hq & Hp).
  destruct (@dispatch_step who handle act ps w w2 resp E Hq)
    as (w' & t1 & t2 & Er & _ & _ & G).
  exists resp, w'. eauto 6.
Qed.

Lemma returns_route_to_data_agent (act : string) (ps : params) :
  returns (route_to_data_agent act ps) (data_shape act).
Proof.
  apply (returns_dispatch DataService CustomerDataAgent.handle_request).
  intro w. apply (data_handle_request_answers (mkRequest act ps name)).
Qed.

(** Forwarding a query to the Support Agent always succeeds, with the
    result of [handle_support_query]. *)
Lemma returns_handle_query (q : string) (ctx : option customer) :
  returns (route_to_support_agent "handle_query" (query_params q ctx))
    (fun resp =>
       resp = Success SupportAgent.name
                (PSupport (SupportAgent.handle_support_query q ctx))).
Proof.
  apply (returns_dispatch SupportService SupportAgent.handle_request).
  intro w. eexists. exists w. split; [reflexivity|].
  split; [apply quiet_refl | reflexivity].
Qed.

Lemma returns_for_each {A S} (body : A -> S -> M S) (xs : list A) :
  (forall x acc, returns (body x acc) (fun _ => True)) ->
  forall acc, returns (for_each xs acc body) (fun _ => True).
Proof.
  intro Hb. induction xs as [|x xs IH]; intro acc; simpl.
  - now apply returns_ret.
  - eapply returns_bind; [apply Hb | intros; apply IH].
Qed.

Lemma returns_bind_ret {A B} (a : A) (k : A -> M B) (Q : B -> Prop) :
  returns (k a) Q -> returns (bind (ret a) k) Q.
Proof. intros H w. exact (H w). Qed.

(** A successful answer of the Data Agent is opened into its payload, a
    failed one into its error text. *)
Ltac open_response r H :=
  destruct r as [? ? | ? ?];
  [ cbn in H; try (destruct H as [? ->]) | clear H ].

Create HintDb returns.

(** Rules for computations met further on. *)
Ltac returns_more := fail.

Ltac returns_step :=
  cbn [success result_of error_of as_customer as_customers as_tickets
       solution_or solution_of wants_context];
  match goal with
  | |- returns _ _ => solve [auto 1 with returns nocore]
  | |- returns _ _ => returns_more
  | |- returns (ret _) _ => apply returns_ret; trivial
  | |- returns (bind (ret _) _) _ => apply returns_bind_ret
  | |- returns (bind (info _) _) _ =>
      eapply returns_bind; [apply returns_info | intros _ _]
  | |- returns (bind (log_a2a_communication _ _ (Said _)) _) _ =>
      eapply returns_bind; [apply returns_said | intros _ _]
  | |- returns (bind (route_to_data_agent _ _) _) _ =>
      eapply returns_bind;
      [ apply returns_route_to_data_agent
      | let r := fresh "resp" in
        let H := fresh "Hshape" in
        intros r H; open_response r H ]
  | |- returns (bind (route_to_support_agent "handle_query" (query_params _ _)) _) _ =>
      eapply returns_bind; [apply returns_handle_query | intros ? ->]
  | |- returns (if ?b then _ else _) _ => destruct b
  | |- returns (match ?x with _ => _ end) _ => destruct x
  | |- returns (bind _ _) _ =>
      eapply returns_bind with (P := fun _ => True); [| intros ? _]
  end.

Ltac returns_auto := repeat returns_step.

Lemma returns_show_history (cid : option Z) :
  returns (show_history cid) (fun _ => True).
Proof. unfold show_history. returns_auto. Qed.

Lemma returns_show_customer (cid : option Z) :
  returns (show_customer cid) (fun _ => True).
Proof. unfold show_customer. returns_auto. Qed.

#[local] Hint Resolve returns_show_history returns_show_customer : returns.

Lemma returns_handle_simple_query (q : string) (a : analysis) :
  returns (handle_simple_query q a) (fun _ => True).
Proof. unfold handle_simple_query, returning. returns_auto. Qed.

Lemma returns_negotiate_between_agents (q : string) (a : analysis) :
  returns (negotiate_between_agents q a) coordinated_ok.
Proof.
  unfold negotiate_between_agents. returns_auto.
  all: unfold coordinated_ok, support_answer; cbn;
    repeat split; intros r E; inversion E; subst; cbn; eauto.
Qed.

Lemma returns_synthesize (rs : responses) :
  coordinated_ok rs -> returns (synthesize rs) (fun _ => True).
Proof.
  intros (Hs & Hd & Hc). unfold synthesize.
  destruct rs as [sup dat ctx]. cbn in *.
  eapply returns_bind with (P := fun _ => True).
  - destruct dat as [r|]; [|returns_auto].
    specialize (Hd r eq_refl). open_response r Hd; returns_auto.
  - intros parts1 _.
    destruct ctx as [r|].
    + destruct (Hc r eq_refl) as [s ->]. returns_auto.
    + destruct sup as [r|]; [|returns_auto].
      destruct (Hs r eq_refl) as [s ->]. returns_auto.
Qed.

Ltac returns_more ::=
  match goal with
  | |- returns (bind (negotiate_between_agents _ _) _) _ =>
      eapply returns_bind;
      [apply returns_negotiate_between_agents | apply returns_synthesize]
  end.

(** The inner test of the first branch repeats the outer one, so the
    branch that would leave [coordinated] unbound is never taken. *)
Lemma returns_handle_complex_query (q : string) (a : analysis) :
  returns (handle_complex_query q a) (fun _ => True).
Proof.
  unfold handle_complex_query.
  eapply returns_bind; [apply returns_info | intros _ _].
  destruct (Py.contains "ticket" (Py.lower q) || Py.contains "history" (Py.lower q))
    eqn:Hticket; cbn [andb].
  - destruct (truthy (customer_id a)); [apply returns_show_history|].
    returns_auto.
  - returns_auto.
Qed.

Lemma returns_collect_tickets (priority_filter : option string) (cs : list customer) :
  returns (collect_tickets priority_filter cs) (fun _ => True).
Proof.
  unfold collect_tickets. apply returns_for_each. intros c acc. returns_auto.
Qed.

Lemma returns_collect_open (cs : list customer) :
  returns (collect_open cs) (fun _ => True).
Proof.
  unfold collect_open. apply returns_for_each. intros c acc. returns_auto.
Qed.

#[local] Hint Resolve returns_collect_tickets returns_collect_open : returns.

Lemma returns_handle_multi_step_query (q : string) (a : analysis) :
  returns (handle_multi_step_query q a) (fun _ => True).
Proof. unfold handle_multi_step_query. returns_auto. Qed.

#[local] Hint Resolve returns_handle_simple_query returns_handle_complex_query
  returns_handle_multi_step_query : returns.



(** ** What the Data Agent answers to a lookup *)

Lemma handle_get_customer (n : Z) (from : string) (w : world) :
  CustomerDataAgent.handle_request
    (mkRequest "get_customer" (id_params (Some n)) from) w =
  (Ok (match fault (db w) with
       | Some msg => Failure CustomerDataAgent.name msg
       | None =>
           if CustomerDatabase.fits_int64 n then
             match find (CustomerDatabase.has_id n) (customers (db w)) with
             | Some c => Success CustomerDataAgent.name (PCustomer c)
             | None =>
                 Failure CustomerDataAgent.name
                   ("Customer " ++ Py.str_of_Z n ++ " not found")
             end
           else Failure CustomerDataAgent.name
                  "Python int too large to convert to SQLite INTEGER"
       end), w).
Proof.
  unfold CustomerDataAgent.handle_request, CustomerDataAgent.get_customer_info,
    MCPServer.call_tool, MCPServer.get_customer, CustomerDatabase.get_customer.
  cbn [action parameters id_params p_customer_id String.eqb Ascii.eqb Bool.eqb
       item MCPServer.tool MCPServer.tools MCPServer.tp_customer_id
       MCPServer.required].
  unfold MCPServer.get_customer, CustomerDatabase.get_customer.
  cbn [MCPServer.tp_customer_id MCPServer.required].
  unfold try_except, bind. cbn [ret]. rewrite execute_one.
  destruct (fault (db w)); [reflexivity|].
  destruct (CustomerDatabase.fits_int64 n); [|reflexivity].
  destruct (find (CustomerDatabase.has_id n) (customers (db w))); reflexivity.
Qed.






(** ** The entry point *)


(** ** Runs over a database that satisfies a condition *)

Lemma runs_ret {A} (pre : database -> Prop) (a : A)
    (post : A -> list dispatch -> Prop) :
  post a [] -> runs pre (ret a) post.
Proof.
  intros Hp w Hpre. exists a, w, [], [].
  split; [reflexivity | split; [apply grows_refl | auto]].
Qed.

Lemma runs_bind {A B} (pre : database -> Prop) (m : M A) (k : A -> M B)
    (P : A -> list dispatch -> Prop) (Q : B -> list dispatch -> Prop) :
  runs pre m P ->
  (forall a ds1, P a ds1 -> runs pre (k a) (fun b ds2 => Q b (ds1 ++ ds2)%list)) ->
  runs pre (bind m k) Q.
Proof.
  intros Hm Hk w Hpre.
  destruct (Hm w Hpre) as (a & w1 & l1 & ds1 & E1 & G1 & Hpre1 & Hp).
  destruct (Hk a ds1 Hp w1 Hpre1) as (b & w2 & l2 & ds2 & E2 & G2 & Hpre2 & Hq).
  exists b, w2, (l1 ++ l2)%list, (ds1 ++ ds2)%list.
  unfold bind. rewrite E1.
  split; [exact E2 | split; [eapply grows_trans; eauto | auto]].
Qed.

Lemma runs_bind_ret {A B} (pre : database -> Prop) (a : A) (k : A -> M B)
    (Q : B -> list dispatch -> Prop) :
  runs pre (k a) Q -> runs pre (bind (ret a) k) Q.
Proof. intros H w. exact (H w). Qed.

Lemma runs_weaken {A} (pre : database -> Prop) (m : M A)
    (P Q : A -> list dispatch -> Prop) :
  runs pre m P -> (forall a ds, P a ds -> Q a ds) -> runs pre m Q.
Proof.
  intros Hm Hpq w Hpre.
  destruct (Hm w Hpre) as (a & w1 & l & ds & E & G & Hpre1 & Hp).
  exists a, w1, l, ds. auto.
Qed.

Lemma runs_info (pre : database -> Prop) (message : string) :
  runs pre (info message) (fun _ ds => ds = []).
Proof.
  intros w Hpre.
  destruct (returns_info message w) as (a & w' & l & ds & E & _ & G).
  unfold info, log, bind, now, append_log in E. cbn in E.
  injection E as <- <-.
  eexists tt, _, l, [].
  split; [reflexivity|].
  destruct G as (Hc & Hl & Hd & Ht & He).
  assert (ds = []) as ->.
  { cbn in Hd. destruct ds; [reflexivity|].
    apply (f_equal (@List.length _)) in Hd.
    rewrite List.length_app in Hd. cbn in Hd. lia. }
  split; [repeat split; assumption | split; [exact Hpre | reflexivity]].
Qed.

Lemma runs_said (pre : database -> Prop) (from_agent to_agent text : string) :
  runs pre (log_a2a_communication from_agent to_agent (Said text))
    (fun _ ds => ds = []).
Proof.
  intros w Hpre.
  destruct (returns_said from_agent to_agent text w)
    as (a & w' & l & ds & E & _ & G).
  unfold log_a2a_communication, bind, now, append_log in E. cbn in E.
  injection E as <- <-.
  eexists tt, _, l, [].
  split; [reflexivity|].
  destruct G as (Hc & Hl & Hd & Ht & He).
  assert (ds = []) as ->.
  { cbn in Hd. destruct ds; [reflexivity|].
    apply (f_equal (@List.length _)) in Hd.
    rewrite List.length_app in Hd. cbn in Hd. lia. }
  split; [repeat split; assumption | split; [exact Hpre | reflexivity]].
Qed.

(** A dispatch to a provider that answers [resp] without changing the
    database. *)
Lemma runs_dispatch (pre : database -> Prop) (who : provider)
    (handle : request -> M response) (act : string) (ps : params)
    (P : response -> Prop) :
  (forall w, pre (db w) ->
     exists resp w',
       handle (mkRequest act ps name) w = (Ok resp, w') /\
       quiet w w' /\ pre (db w') /\ P resp) ->
  runs pre (route_to who handle act ps)
    (fun resp ds =>
       P resp /\ ds = [mkDispatch who (mkRequest act ps name) resp]).
Proof.
  intros Hh w Hpre.
  destruct (Hh (asked who act ps w) Hpre) as (resp & w2 & E & Hq & Hpre2 & Hp).
  destruct (@dispatch_step who handle act ps w w2 resp E Hq)
    as (w' & t1 & t2 & Er & Hdb & _ & G).
  exists resp, w'. do 2 eexists.
  split; [exact Er | split; [exact G | split; [now rewrite Hdb | auto]]].
Qed.

Lemma runs_handle_query (pre : database -> Prop) (q : string)
    (ctx : option customer) :
  runs pre (route_to_support_agent "handle_query" (query_params q ctx))
    (fun resp ds =>
       resp = Success SupportAgent.name
                (PSupport (SupportAgent.handle_support_query q ctx)) /\
       ds = [mkDispatch SupportService
               (mkRequest "handle_query" (query_params q ctx) name) resp]).
Proof.
  apply (runs_dispatch pre SupportService SupportAgent.handle_request).
  intros w Hpre. eexists. exists w.
  split; [reflexivity | split; [apply quiet_refl | auto]].
Qed.

Lemma runs_get_customer (n : Z) (c : customer) :
  CustomerDatabase.fits_int64 n = true ->
  runs (holds_customer n c)
    (route_to_data_agent "get_customer" (id_params (Some n)))
    (fun resp ds =>
       resp = Success CustomerDataAgent.name (PCustomer c) /\
       ds = [customer_dispatch n c]).
Proof.
  intro Hn.
  eapply runs_weaken.
  - apply (runs_dispatch (holds_customer n c) DataService
             CustomerDataAgent.handle_request "get_customer" (id_params (Some n))
             (fun resp => resp = Success CustomerDataAgent.name (PCustomer c))).
    intros w [Hf Hfind]. eexists. exists w.
    split; [apply handle_get_customer|].
    rewrite Hf, Hn, Hfind.
    split; [apply quiet_refl | split; [split; assumption | reflexivity]].
  - intros resp ds [-> ->]. split; reflexivity.
Qed.

Lemma runs_analyze_query (pre : database -> Prop) (q : string) :
  runs pre (analyze_query q) (fun a ds => a = classify q /\ ds = []).
Proof.
  unfold analyze_query.
  eapply runs_bind; [apply runs_info | intros _ ds1 ->].
  eapply runs_bind; [apply runs_info | intros _ ds2 ->].
  apply runs_ret. split; reflexivity.
Qed.

Lemma runs_bind_assoc {A B C} (pre : database -> Prop) (m : M A)
    (k1 : A -> M B) (k2 : B -> M C) (Q : C -> list dispatch -> Prop) :
  runs pre (bind m (fun a => bind (k1 a) k2)) Q ->
  runs pre (bind (bind m k1) k2) Q.
Proof.
  intros H w Hpre. specialize (H w Hpre).
  unfold bind in *. destruct (m w) as [[a|e] w1]; exact H.
Qed.

Ltac has_free_var t := match t with context [?x] => is_var x end.

(** A test on closed terms is replaced by its value. *)
Ltac eval_test :=
  match goal with
  | |- runs _ ?m _ =>
      match m with
      | context [if ?b then _ else _] =>
          tryif has_free_var b then fail
          else
            let v := eval vm_compute in b in
            match v with
            | true => replace b with true by (vm_compute; reflexivity)
            | false => replace b with false by (vm_compute; reflexivity)
            end
      end
  end;
  cbv beta iota.

(** Rules for computations met further on. *)
Ltac runs_more := fail.

Ltac runs_step :=
  cbn [success result_of error_of as_customer as_customers as_tickets
       solution_or solution_of wants_context];
  match goal with
  | |- runs _ (ret _) _ => apply runs_ret
  | |- runs _ (bind (ret _) _) _ => apply runs_bind_ret
  | |- runs _ (bind (bind _ _) _) _ => apply runs_bind_assoc
  | |- runs _ (bind (info _) _) _ =>
      eapply runs_bind; [apply runs_info | intros _ ? ->]
  | |- runs _ (bind (log_a2a_communication _ _ (Said _)) _) _ =>
      eapply runs_bind; [apply runs_said | intros _ ? ->]
  | |- runs _ (bind (analyze_query _) _) _ =>
      eapply runs_bind; [apply runs_analyze_query | intros ? ? [-> ->]]
  | |- runs _ (bind (route_to_support_agent "handle_query" (query_params _ _)) _) _ =>
      eapply runs_bind; [apply runs_handle_query | intros ? ? [-> ->]]
  | |- runs (holds_customer ?n _)
         (bind (route_to_data_agent "get_customer" (id_params (Some ?n))) _) _ =>
      eapply runs_bind;
      [apply runs_get_customer; reflexivity | intros ? ? [-> ->]]
  | |- _ => eval_test
  | |- runs _ _ _ => runs_more
  | |- runs _ (bind (if ?b then _ else _) _) _ =>
      match type of b with bool => destruct b end
  | |- runs _ (if ?b then _ else _) _ =>
      match type of b with bool => destruct b end
  end.

(** ** Two scenarios *)

Lemma contains_prefix (x b : string) : Py.contains x (x ++ b) = true.
Proof.
  assert (H : prefix x (x ++ b) = true).
  { induction x as [|c x IH]; simpl; [destruct b; reflexivity|].
    destruct (ascii_dec c c); [exact IH | congruence]. }
  destruct (x ++ b); simpl in *; now rewrite H.
Qed.

Lemma contains_app_r (x a b : string) :
  Py.contains x b = true -> Py.contains x (a ++ b) = true.
Proof.
  intro H. induction a as [|c a IH]; simpl; [exact H|].
  rewrite IH. apply orb_true_r.
Qed.

Lemma contains_self (x : string) : Py.contains x x = true.
Proof.
  assert (E : x ++ "" = x) by (induction x; simpl; congruence).
  rewrite <- E at 2. apply contains_prefix.
Qed.

Lemma runs_information_for_id_5 (c : customer) :
  runs (holds_customer 5 c)
    (process_query "Get customer information for ID 5")
    (fun text ds =>
       text = customer_information c /\ ds = [customer_dispatch 5 c]).
Proof.
  unfold process_query. do 4 runs_step.
  replace (classify "Get customer information for ID 5")
    with (mkAnalysis "Get customer information for ID 5" (Some 5%Z)
            true false false simple ["data"])
    by (vm_compute; reflexivity).
  cbn [complexity]. unfold handle_simple_query, returning, show_customer.
  cbn [customer_id].
  repeat runs_step.
  split; reflexivity.
Qed.

(** C6. With customer 5 in the database, the query "Get customer
    information for ID 5" makes exactly one dispatch, [get_customer] with
    [customer_id] 5 to the Data Agent, and the text returned shows that
    customer's name, email, phone and status. *)
Theorem get_customer_information_for_id_5 :
  forall (w : world) (c : customer),
    holds_customer 5 c (db w) ->
    exists text w',
      process_query "Get customer information for ID 5" w = (Ok text, w') /\
      dispatches w' = (dispatches w ++ [customer_dispatch 5 c])%list /\
      Py.contains (c_name c) text = true /\
      Py.contains (c_email c) text = true /\
      Py.contains (c_phone c) text = true /\
      Py.contains (c_status c) text = true.
Proof.
  intros w c Hc.
  destruct (@runs_information_for_id_5 c w Hc)
    as (text & w' & l & ds & E & (_ & _ & Hd & _) & _ & -> & ->).
  exists (customer_information c), w'.
  split; [exact E | split; [exact Hd|]].
  unfold customer_information.
  repeat split.
  - do 3 apply contains_app_r. apply contains_prefix.
  - do 6 apply contains_app_r. apply contains_prefix.
  - do 9 apply contains_app_r. apply contains_prefix.
  - do 12 apply contains_app_r. apply contains_self.
Qed.

Lemma get_customer_information_for_id_5_witness :
  exists text w',
    process_query "Get customer information for ID 5" sample_world = (Ok text, w') /\
    dispatches w' =
      [customer_dispatch 5
         (mkCustomer 5 "Charlie Brown" "charlie.brown@example.com" "555-0105"
            "active" "2024-01-05 09:00:00" "2024-01-05 09:00:00")] /\
    Py.contains "Charlie Brown" text = true /\
    Py.contains "charlie.brown@example.com" text = true /\
    Py.contains "555-0105" text = true /\
    Py.contains "active" text = true.
Proof.
  apply (@get_customer_information_for_id_5 sample_world
           (mkCustomer 5 "Charlie Brown" "charlie.brown@example.com" "555-0105"
              "active" "2024-01-05 09:00:00" "2024-01-05 09:00:00")).
  split; reflexivity.
Defined.

Lemma runs_customer_2_login_issues (c : customer) :
  runs (holds_customer 2 c)
    (process_query "I'm customer 2 and having login issues")
    (fun text ds =>
       text = Py.join Py.nl
                ["Hello " ++ c_name c ++ "!";
                 sr_solution
                   (SupportAgent.handle_support_query
                      "I'm customer 2 and having login issues" (Some c))] /\
       ds = [customer_dispatch 2 c;
             support_dispatch_with "I'm customer 2 and having login issues" c]).
Proof.
  unfold process_query. do 4 runs_step.
  replace (classify "I'm customer 2 and having login issues")
    with (mkAnalysis "I'm customer 2 and having login issues" (Some 2%Z)
            true true true multi_step ["data"; "support"])
    by (vm_compute; reflexivity).
  cbn [complexity]. unfold handle_multi_step_query. cbn [customer_id].
  repeat runs_step.
  split; reflexivity.
Qed.

(** C7. With customer 2 in the database, the query "I'm customer 2 and
    having login issues" makes two dispatches: first [get_customer] for
    customer 2 to the Data Agent, then [handle_query] to the Support Agent,
    whose parameters carry the query and, as [customer_data], the record
    the first dispatch fetched. *)
Theorem customer_2_login_issues_fetches_then_asks :
  forall (w : world) (c : customer),
    holds_customer 2 c (db w) ->
    exists text w' first second,
      process_query "I'm customer 2 and having login issues" w = (Ok text, w') /\
      dispatches w' = (dispatches w ++ [first; second])%list /\
      target first = DataService /\
      action (sent first) = "get_customer" /\
      p_customer_id (parameters (sent first)) = Some 2%Z /\
      reply first = Success CustomerDataAgent.name (PCustomer c) /\
      target second = SupportService /\
      action (sent second) = "handle_query" /\
      p_query (parameters (sent second))
        = Some "I'm customer 2 and having login issues" /\
      p_customer_data (parameters (sent second)) = Some c.
Proof.
  intros w c Hc.
  destruct (@runs_customer_2_login_issues c w Hc)
    as (text & w' & l & ds & E & (_ & _ & Hd & _) & _ & -> & ->).
  eexists _, w', _, _.
  split; [exact E | split; [exact Hd|]].
  repeat split.
Qed.

Lemma customer_2_login_issues_fetches_then_asks_witness :
  exists text w' first second,
    process_query "I'm customer 2 and having login issues" sample_world
      = (Ok text, w') /\
    dispatches w' = ([] ++ [first; second])%list /\
    target first = DataService /\
    action (sent first) = "get_customer" /\
    p_customer_id (parameters (sent first)) = Some 2%Z /\
    reply first =
      Success CustomerDataAgent.name
        (PCustomer
           (mkCustomer 2 "Jane Smith" "jane.smith@example.com" "555-0102"
              "active" "2024-01-02 09:00:00" "2024-01-02 09:00:00")) /\
    target second = SupportService /\
    action (sent second) = "handle_query" /\
    p_query (parameters (sent second))
      = Some "I'm customer 2 and having login issues" /\
    p_customer_data (parameters (sent second)) =
      Some (mkCustomer 2 "Jane Smith" "jane.smith@example.com" "555-0102"
              "active" "2024-01-02 09:00:00" "2024-01-02 09:00:00").
Proof.
  apply (@customer_2_login_issues_fetches_then_asks sample_world).
  split; reflexivity.
Defined.

(** ** Unmatched queries *)



Lemma runs_route_to_data_agent (act : string) (ps : params) :
  runs (fun _ => True) (route_to_data_agent act ps)
    (fun resp ds =>
       data_shape act resp /\
       ds = [mkDispatch DataService (mkRequest act ps name) resp]).
Proof.
  apply (runs_dispatch (fun _ => True) DataService
           CustomerDataAgent.handle_request act ps (data_shape act)).
  intros w _.
  destruct (data_handle_request_answers (mkRequest act ps name) w)
    as (resp & w' & E & Hq & Hs).
  exists resp, w'. auto.
Qed.




Ltac runs_more ::=
  match goal with
  | |- runs (fun _ => True) (bind (route_to_data_agent _ _) _) _ =>
      eapply runs_bind;
      [ apply runs_route_to_data_agent
      | let r := fresh "resp" in
        let H := fresh "Hshape" in
        intros r ? [H ->]; open_response r H ]
  end.





(** ** Independence of the clock and of the trace *)

Lemma alike_customers_refl (cs : list customer) : alike_customers cs cs.
Proof. induction cs; constructor; [reflexivity | assumption]. Qed.

Lemma similar_refl (d : database) : similar d d.
Proof. repeat split. apply alike_customers_refl. Qed.

Lemma alike_ret {A} (R : A -> A -> Prop) (a1 a2 : A) :
  R a1 a2 -> alike R (ret a1) (ret a2).
Proof. intros H w1 w2 Hs. split; assumption. Qed.

Lemma alike_raise {A} (R : A -> A -> Prop) (e : exn) :
  alike R (raise e) (raise e).
Proof. intros w1 w2 Hs. split; [assumption | reflexivity]. Qed.

Lemma alike_bind {A B} (R : A -> A -> Prop) (Q : B -> B -> Prop)
    (m1 m2 : M A) (k1 k2 : A -> M B) :
  alike R m1 m2 ->
  (forall a1 a2, R a1 a2 -> alike Q (k1 a1) (k2 a2)) ->
  alike Q (bind m1 k1) (bind m2 k2).
Proof.
  intros Hm Hk w1 w2 Hs. specialize (Hm w1 w2 Hs).
  unfold bind, alike_outcome in *.
  destruct (m1 w1) as [[a1|e1] w1'], (m2 w2) as [[a2|e2] w2'];
    cbn in *; destruct Hm as [Hs' Hr]; try contradiction.
  - apply (Hk a1 a2 Hr w1' w2' Hs').
  - split; assumption.
Qed.

Lemma alike_try_except {A} (R : A -> A -> Prop) (m1 m2 : M A)
    (h1 h2 : exn -> M A) :
  alike R m1 m2 -> (forall e, alike R (h1 e) (h2 e)) ->
  alike R (try_except m1 h1) (try_except m2 h2).
Proof.
  intros Hm Hh w1 w2 Hs. specialize (Hm w1 w2 Hs).
  unfold try_except, alike_outcome in *.
  destruct (m1 w1) as [[a1|e1] w1'], (m2 w2) as [[a2|e2] w2'];
    cbn in *; destruct Hm as [Hs' Hr]; try contradiction.
  - split; assumption.
  - subst e2. apply (Hh e1 w1' w2' Hs').
Qed.

Lemma alike_try_catch {A} (R : A -> A -> Prop) (m1 m2 : M A)
    (c : exn -> bool) (h1 h2 : exn -> M A) :
  alike R m1 m2 -> (forall e, alike R (h1 e) (h2 e)) ->
  alike R (try_catch m1 c h1) (try_catch m2 c h2).
Proof.
  intros Hm Hh. apply alike_try_except; [exact Hm|].
  intro e. destruct (c e); [apply Hh | apply alike_raise].
Qed.

(** The readings of the clock are not compared. *)
Lemma alike_now : alike (fun _ _ => True) now now.
Proof. intros w1 w2 Hs. split; [exact Hs | exact I]. Qed.

Lemma alike_append_log (e1 e2 : log_entry) :
  alike eq (append_log e1) (append_log e2).
Proof. intros w1 w2 Hs. split; [exact Hs | reflexivity]. Qed.

Lemma alike_record_dispatch (d1 d2 : dispatch) :
  alike eq (record_dispatch d1) (record_dispatch d2).
Proof. intros w1 w2 Hs. split; [exact Hs | reflexivity]. Qed.

Lemma alike_get_db : alike similar get_db get_db.
Proof. intros w1 w2 Hs. split; exact Hs. Qed.

Lemma alike_put_db (d1 d2 : database) :
  similar d1 d2 -> alike eq (put_db d1) (put_db d2).
Proof. intros Hd w1 w2 Hs. split; [exact Hd | reflexivity]. Qed.

Lemma alike_log (m1 m2 l1 l2 : string) : alike eq (log m1 l1) (log m2 l2).
Proof.
  unfold log. eapply alike_bind; [apply alike_now | intros t1 t2 _].
  apply alike_append_log.
Qed.

Lemma alike_info (m1 m2 : string) : alike eq (info m1) (info m2).
Proof. apply alike_log. Qed.

Lemma alike_log_a2a (f1 t1 f2 t2 : string) (m1 m2 : a2a_message) :
  alike eq (log_a2a_communication f1 t1 m1) (log_a2a_communication f2 t2 m2).
Proof.
  unfold log_a2a_communication.
  eapply alike_bind; [apply alike_now | intros s1 s2 _].
  apply alike_append_log.
Qed.

Lemma alike_item {A} (key : string) (v : option A) :
  alike eq (item key v) (item key v).
Proof. destruct v; [now apply alike_ret | apply alike_raise]. Qed.

Lemma alike_for_each {A S} (RA : A -> A -> Prop) (RS : S -> S -> Prop)
    (body1 body2 : A -> S -> M S) (xs1 xs2 : list A) :
  Forall2 RA xs1 xs2 ->
  (forall x1 x2 s1 s2, RA x1 x2 -> RS s1 s2 ->
     alike RS (body1 x1 s1) (body2 x2 s2)) ->
  forall acc1 acc2, RS acc1 acc2 ->
    alike RS (for_each xs1 acc1 body1) (for_each xs2 acc2 body2).
Proof.
  intros Hxs Hb. induction Hxs as [|x1 x2 xs1 xs2 Hx Hxs IH];
    intros acc1 acc2 Hacc; simpl.
  - now apply alike_ret.
  - eapply alike_bind; [now apply Hb | intros; now apply IH].
Qed.

Lemma alike_customer_fields (c1 c2 : customer) :
  alike_customer c1 c2 ->
  c_id c1 = c_id c2 /\ c_name c1 = c_name c2 /\ c_email c1 = c_email c2 /\
  c_phone c1 = c_phone c2 /\ c_status c1 = c_status c2 /\
  c_created_at c1 = c_created_at c2.
Proof.
  unfold alike_customer, erase_customer. intro H. injection H. auto 10.
Qed.

Lemma has_id_alike (n : Z) (c1 c2 : customer) :
  alike_customer c1 c2 ->
  CustomerDatabase.has_id n c1 = CustomerDatabase.has_id n c2.
Proof.
  intro H. unfold CustomerDatabase.has_id.
  now destruct (alike_customer_fields H) as [-> _].
Qed.

Lemma find_alike (n : Z) (cs1 cs2 : list customer) :
  alike_customers cs1 cs2 ->
  match find (CustomerDatabase.has_id n) cs1,
        find (CustomerDatabase.has_id n) cs2 with
  | Some c1, Some c2 => alike_customer c1 c2
  | None, None => True
  | _, _ => False
  end.
Proof.
  induction 1 as [|c1 c2 cs1 cs2 Hc Hcs IH]; simpl; [exact I|].
  rewrite (has_id_alike n Hc).
  destruct (CustomerDatabase.has_id n c2); [exact Hc | exact IH].
Qed.

Lemma filter_alike (f : customer -> bool) (cs1 cs2 : list customer) :
  (forall c1 c2, alike_customer c1 c2 -> f c1 = f c2) ->
  alike_customers cs1 cs2 -> alike_customers (filter f cs1) (filter f cs2).
Proof.
  intro Hf. induction 1 as [|c1 c2 cs1 cs2 Hc Hcs IH]; simpl; [constructor|].
  rewrite (Hf _ _ Hc). destruct (f c2); [constructor|]; assumption.
Qed.

Lemma firstn_alike (n : nat) (cs1 cs2 : list customer) :
  alike_customers cs1 cs2 -> alike_customers (firstn n cs1) (firstn n cs2).
Proof.
  intro H. revert n. induction H as [|c1 c2 cs1 cs2 Hc Hcs IH]; intro n.
  - rewrite !firstn_nil. constructor.
  - destruct n; simpl; constructor; [assumption | apply IH].
Qed.

Lemma sql_limit_alike (limit : Z) (cs1 cs2 : list customer) :
  alike_customers cs1 cs2 ->
  alike_customers (CustomerDatabase.sql_limit limit cs1)
    (CustomerDatabase.sql_limit limit cs2).
Proof.
  intro H. unfold CustomerDatabase.sql_limit.
  destruct (limit <? 0)%Z; [exact H | now apply firstn_alike].
Qed.

Lemma existsb_alike (n : Z) (cs1 cs2 : list customer) :
  alike_customers cs1 cs2 ->
  existsb (CustomerDatabase.has_id n) cs1 = existsb (CustomerDatabase.has_id n) cs2.
Proof.
  induction 1 as [|c1 c2 cs1 cs2 Hc Hcs IH]; simpl; [reflexivity|].
  now rewrite (has_id_alike n Hc), IH.
Qed.

(** An update writes the same fields whatever the time it stamps. *)
Lemma update_alike (n : Z) (data : list (string * string)) (t1 t2 : string)
    (cs1 cs2 : list customer) :
  alike_customers cs1 cs2 ->
  alike_customers
    (map (fun c => if CustomerDatabase.has_id n c
                   then CustomerDatabase.set_fields data t1 c else c) cs1)
    (map (fun c => if CustomerDatabase.has_id n c
                   then CustomerDatabase.set_fields data t2 c else c) cs2).
Proof.
  induction 1 as [|c1 c2 cs1 cs2 Hc Hcs IH]; simpl; constructor; [|exact IH].
  rewrite (has_id_alike n Hc).
  destruct (CustomerDatabase.has_id n c2); [|exact Hc].
  destruct (alike_customer_fields Hc) as (Hid & Hn & He & Hp & Hs & Hcr).
  unfold alike_customer, erase_customer, CustomerDatabase.set_fields.
  cbn. now rewrite Hid, Hn, He, Hp, Hs, Hcr.
Qed.

Lemma alike_execute (ints : list Z) :
  alike similar (CustomerDatabase.execute ints) (CustomerDatabase.execute ints).
Proof.
  unfold CustomerDatabase.execute.
  eapply alike_bind; [apply alike_get_db | intros d1 d2 Hd].
  destruct Hd as (Hc & Ht & Hf). rewrite Hf.
  destruct (fault d2) eqn:Hf2; [apply alike_raise|].
  eapply alike_bind with (R := eq).
  - apply alike_for_each with (RA := eq); [|intros; subst|reflexivity].
    + clear. induction ints; constructor; auto.
    + unfold CustomerDatabase.bind_int.
      destruct (CustomerDatabase.fits_int64 x2);
        [now apply alike_ret | apply alike_raise].
  - intros _ _ _. apply alike_ret. repeat split; congruence.
Qed.

Lemma alike_db_get_customer (n : Z) :
  alike
    (fun o1 o2 =>
       match o1, o2 with
       | Some c1, Some c2 => alike_customer c1 c2
       | None, None => True
       | _, _ => False
       end)
    (CustomerDatabase.get_customer n) (CustomerDatabase.get_customer n).
Proof.
  unfold CustomerDatabase.get_customer.
  eapply alike_bind; [apply alike_execute | intros d1 d2 (Hc & _)].
  apply alike_ret. now apply find_alike.
Qed.

Lemma alike_db_list_customers (status : option string) (limit : Z) :
  alike alike_customers
    (CustomerDatabase.list_customers status limit)
    (CustomerDatabase.list_customers status limit).
Proof.
  unfold CustomerDatabase.list_customers.
  eapply alike_bind; [apply alike_execute | intros d1 d2 (Hc & _)].
  destruct status as [[|ch st]|]; apply alike_ret;
    try (now apply sql_limit_alike).
  apply sql_limit_alike, filter_alike; [|exact Hc].
  intros c1 c2 H. now destruct (alike_customer_fields H) as (_ & _ & _ & _ & -> & _).
Qed.

Lemma alike_db_get_customer_history (n : Z) :
  alike eq (CustomerDatabase.get_customer_history n)
    (CustomerDatabase.get_customer_history n).
Proof.
  unfold CustomerDatabase.get_customer_history.
  eapply alike_bind; [apply alike_execute | intros d1 d2 (_ & Ht & _)].
  apply alike_ret. now rewrite Ht.
Qed.

Lemma alike_db_update_customer (n : Z) (data : list (string * string)) :
  alike eq (CustomerDatabase.update_customer n data)
    (CustomerDatabase.update_customer n data).
Proof.
  unfold CustomerDatabase.update_customer.
  destruct (filter _ CustomerDatabase.allowed_fields); [now apply alike_ret|].
  eapply alike_bind; [apply alike_now | intros t1 t2 _].
  apply alike_try_catch; [|intros; now apply alike_ret].
  eapply alike_bind; [apply alike_execute | intros d1 d2 (Hc & Ht & Hf)].
  eapply alike_bind with (R := eq).
  - apply alike_put_db. split; [now apply update_alike | split; assumption].
  - intros _ _ _. apply alike_ret. now apply existsb_alike.
Qed.

Lemma alike_required {A} (tool_name arg : string) (v : option A) :
  alike eq (MCPServer.required tool_name arg v) (MCPServer.required tool_name arg v).
Proof. destruct v; [now apply alike_ret | apply alike_raise]. Qed.

Lemma alike_mcp_get_customer (p : MCPServer.tool_params) :
  alike alike_payload (MCPServer.get_customer p) (MCPServer.get_customer p).
Proof.
  unfold MCPServer.get_customer.
  eapply alike_bind; [apply alike_required | intros n ? <-].
  eapply alike_bind; [apply alike_db_get_customer|].
  intros [c1|] [c2|] H; try contradiction;
    [now apply alike_ret | apply alike_raise].
Qed.

Lemma alike_mcp_list_customers (p : MCPServer.tool_params) :
  alike alike_payload (MCPServer.list_customers p) (MCPServer.list_customers p).
Proof.
  unfold MCPServer.list_customers.
  eapply alike_bind; [apply alike_db_list_customers | intros cs1 cs2 H].
  now apply alike_ret.
Qed.

Lemma alike_mcp_update_customer (p : MCPServer.tool_params) :
  alike alike_payload (MCPServer.update_customer p) (MCPServer.update_customer p).
Proof.
  unfold MCPServer.update_customer.
  eapply alike_bind; [apply alike_required | intros n ? <-].
  eapply alike_bind; [apply alike_required | intros data ? <-].
  eapply alike_bind; [apply alike_db_update_customer | intros ok ? <-].
  destruct ok; [|apply alike_raise].
  eapply alike_bind; [apply alike_db_get_customer|].
  intros [c1|] [c2|] H; try contradiction; now apply alike_ret.
Qed.

Lemma alike_mcp_get_customer_history (p : MCPServer.tool_params) :
  alike alike_payload (MCPServer.get_customer_history p)
    (MCPServer.get_customer_history p).
Proof.
  unfold MCPServer.get_customer_history.
  eapply alike_bind; [apply alike_required | intros n ? <-].
  eapply alike_bind; [apply alike_db_get_customer_history | intros ts ? <-].
  now apply alike_ret.
Qed.

Lemma alike_call (f : MCPServer.tool_params -> M payload)
    (p : MCPServer.tool_params) :
  alike alike_payload (f p) (f p) ->
  alike alike_tool_result
    (try_except (r <- f p ;; ret (MCPServer.ToolOk r))
       (fun e => ret (MCPServer.ToolError (str_exn e))))
    (try_except (r <- f p ;; ret (MCPServer.ToolOk r))
       (fun e => ret (MCPServer.ToolError (str_exn e)))).
Proof.
  intro Hf. apply alike_try_except.
  - eapply alike_bind; [exact Hf | intros v1 v2 Hv]. now apply alike_ret.
  - intro e. now apply alike_ret.
Qed.

Lemma alike_unwrap (r1 r2 : MCPServer.tool_result) :
  alike_tool_result r1 r2 ->
  alike alike_payload (CustomerDataAgent.unwrap r1) (CustomerDataAgent.unwrap r2).
Proof.
  destruct r1 as [v1|e1], r2 as [v2|e2]; cbn; intro H; try contradiction.
  - now apply alike_ret.
  - subst. apply alike_raise.
Qed.

Lemma alike_get_customer_info (n : Z) :
  alike alike_payload (CustomerDataAgent.get_customer_info n)
    (CustomerDataAgent.get_customer_info n).
Proof.
  unfold CustomerDataAgent.get_customer_info.
  eapply alike_bind;
    [apply (alike_call MCPServer.get_customer), alike_mcp_get_customer|].
  apply alike_unwrap.
Qed.

Lemma alike_list_customers (status : option string) (limit : Z) :
  alike alike_payload (CustomerDataAgent.list_customers status limit)
    (CustomerDataAgent.list_customers status limit).
Proof.
  unfold CustomerDataAgent.list_customers.
  eapply alike_bind;
    [apply (alike_call MCPServer.list_customers), alike_mcp_list_customers|].
  apply alike_unwrap.
Qed.

Lemma alike_update_customer_info (n : Z) (updates : list (string * string)) :
  alike alike_payload (CustomerDataAgent.update_customer_info n updates)
    (CustomerDataAgent.update_customer_info n updates).
Proof.
  unfold CustomerDataAgent.update_customer_info.
  eapply alike_bind;
    [apply (alike_call MCPServer.update_customer), alike_mcp_update_customer|].
  apply alike_unwrap.
Qed.

Lemma alike_get_customer_history (n : Z) :
  alike alike_payload (CustomerDataAgent.get_customer_history n)
    (CustomerDataAgent.get_customer_history n).
Proof.
  unfold CustomerDataAgent.get_customer_history.
  eapply alike_bind;
    [apply (alike_call MCPServer.get_customer_history),
       alike_mcp_get_customer_history|].
  apply alike_unwrap.
Qed.

Lemma alike_validate_customer_exists (n : Z) :
  alike eq (CustomerDataAgent.validate_customer_exists n)
    (CustomerDataAgent.validate_customer_exists n).
Proof.
  unfold CustomerDataAgent.validate_customer_exists.
  apply alike_try_catch; [|intros; now apply alike_ret].
  eapply alike_bind; [apply alike_get_customer_info | intros; now apply alike_ret].
Qed.

(** The Data Agent answers alike on similar databases. *)
Lemma alike_data_handle_request (req : request) :
  alike alike_response (CustomerDataAgent.handle_request req)
    (CustomerDataAgent.handle_request req).
Proof.
  unfold CustomerDataAgent.handle_request.
  apply alike_try_except; [|intro e; apply alike_ret; now split].
  eapply alike_bind with (R := alike_payload);
    [|intros v1 v2 Hv; apply alike_ret; now split].
  destruct (String.eqb (action req) "get_customer").
  { eapply alike_bind; [apply alike_item | intros n ? <-].
    apply alike_get_customer_info. }
  destruct (String.eqb (action req) "list_customers").
  { apply alike_list_customers. }
  destruct (String.eqb (action req) "update_customer").
  { eapply alike_bind; [apply alike_item | intros n ? <-].
    eapply alike_bind; [apply alike_item | intros u ? <-].
    apply alike_update_customer_info. }
  destruct (String.eqb (action req) "get_history").
  { eapply alike_bind; [apply alike_item | intros n ? <-].
    apply alike_get_customer_history. }
  destruct (String.eqb (action req) "validate_customer").
  { eapply alike_bind; [apply alike_item | intros n ? <-].
    eapply alike_bind; [apply alike_validate_customer_exists | intros b ? <-].
    now apply alike_ret. }
  destruct (String.eqb (action req) "get_premium_customers").
  { apply alike_list_customers. }
  apply alike_raise.
Qed.

Lemma alike_route_to_data_agent (act : string) (ps : params) :
  alike alike_response (route_to_data_agent act ps) (route_to_data_agent act ps).
Proof.
  unfold route_to_data_agent.
  eapply alike_bind; [apply alike_log_a2a | intros _ _ _].
  eapply alike_bind; [apply alike_data_handle_request | intros r1 r2 Hr].
  eapply alike_bind; [apply alike_record_dispatch | intros _ _ _].
  eapply alike_bind; [apply alike_log_a2a | intros _ _ _].
  now apply alike_ret.
Qed.

(** The Support Agent reads only the name and the status of the customer
    it is given. *)
Lemma handle_support_query_alike (q : string) (c1 c2 : customer) :
  alike_customer c1 c2 ->
  SupportAgent.handle_support_query q (Some c1)
  = SupportAgent.handle_support_query q (Some c2).
Proof.
  intro H. destruct (alike_customer_fields H) as (_ & Hn & _ & _ & Hs & _).
  unfold SupportAgent.handle_support_query, SupportAgent.generate_solution.
  cbn [option_map]. now rewrite Hn, Hs.
Qed.

Lemma alike_handle_query (q : string) (c1 c2 : option customer) :
  match c1, c2 with
  | Some x1, Some x2 => alike_customer x1 x2
  | None, None => True
  | _, _ => False
  end ->
  alike eq (route_to_support_agent "handle_query" (query_params q c1))
    (route_to_support_agent "handle_query" (query_params q c2)).
Proof.
  intro H. unfold route_to_support_agent.
  eapply alike_bind; [apply alike_log_a2a | intros _ _ _].
  eapply alike_bind with (R := eq).
  - intros w1 w2 Hs. split; [exact Hs|]. cbn.
    destruct c1 as [x1|], c2 as [x2|]; try contradiction; [|reflexivity].
    now rewrite (handle_support_query_alike q H).
  - intros r ? <-.
    eapply alike_bind; [apply alike_record_dispatch | intros _ _ _].
    eapply alike_bind; [apply alike_log_a2a | intros _ _ _].
    now apply alike_ret.
Qed.

Lemma success_alike (r1 r2 : response) :
  alike_response r1 r2 -> success r1 = success r2.
Proof. destruct r1, r2; cbn; tauto. Qed.

Lemma error_or_alike (default : string) (r1 r2 : response) :
  alike_response r1 r2 -> error_or default r1 = error_or default r2.
Proof. destruct r1, r2; cbn; intuition. Qed.

Lemma alike_result_of (r1 r2 : response) :
  alike_response r1 r2 -> alike alike_payload (result_of r1) (result_of r2).
Proof.
  destruct r1, r2; cbn; intro H; try contradiction.
  - now apply alike_ret.
  - apply alike_raise.
Qed.

Lemma alike_error_of (r1 r2 : response) :
  alike_response r1 r2 -> alike eq (error_of r1) (error_of r2).
Proof.
  destruct r1, r2; cbn; intro H; try contradiction.
  - apply alike_raise.
  - now apply alike_ret.
Qed.

Ltac by_payload H :=
  match type of H with
  | alike_payload ?v1 ?v2 =>
      destruct v1, v2; cbn in H |- *; try discriminate H;
      try apply alike_raise; try (apply alike_ret; try exact H)
  end.

Lemma alike_as_customer (v1 v2 : payload) :
  alike_payload v1 v2 -> alike alike_customer (as_customer v1) (as_customer v2).
Proof. intro H. by_payload H. Qed.

Lemma alike_as_customers (v1 v2 : payload) :
  alike_payload v1 v2 -> alike alike_customers (as_customers v1) (as_customers v2).
Proof. intro H. by_payload H. Qed.

Lemma alike_as_tickets (v1 v2 : payload) :
  alike_payload v1 v2 -> alike eq (as_tickets v1) (as_tickets v2).
Proof. intro H. by_payload H. now injection H. Qed.

Lemma alike_solution_or (default : string) (v1 v2 : payload) :
  alike_payload v1 v2 -> alike eq (solution_or default v1) (solution_or default v2).
Proof. intro H. by_payload H; try reflexivity. now injection H as ->. Qed.

Lemma alike_solution_of (v1 v2 : payload) :
  alike_payload v1 v2 -> alike eq (solution_of v1) (solution_of v2).
Proof. intro H. by_payload H; try reflexivity. now injection H as ->. Qed.

Lemma alike_wants_context (v1 v2 : payload) :
  alike_payload v1 v2 -> alike eq (wants_context v1) (wants_context v2).
Proof. intro H. by_payload H; try reflexivity. now injection H as ->. Qed.

Lemma alike_payload_refl (v : payload) : alike_payload v v.
Proof.
  destruct v; cbn; try reflexivity. apply alike_customers_refl.
Qed.

Lemma alike_response_refl (r : response) : alike_response r r.
Proof. destruct r; cbn; split; try reflexivity. apply alike_payload_refl. Qed.

Ltac related := first [assumption | apply alike_response_refl | apply alike_payload_refl].

(** What is built from two customers that are alike is equal. *)
Ltac use_fields :=
  repeat match goal with
         | H : alike_customer _ _ |- _ =>
             let H1 := fresh in let H2 := fresh in let H3 := fresh in
             let H4 := fresh in let H5 := fresh in let H6 := fresh in
             destruct (alike_customer_fields H) as (H1 & H2 & H3 & H4 & H5 & H6);
             clear H;
             rewrite ?H1, ?H2, ?H3, ?H4, ?H5, ?H6
         end.

Ltac same_text :=
  try solve
    [ use_fields;
      repeat match goal with
             | H : alike_response ?r1 ?r2 |- _ =>
                 rewrite ?(@success_alike _ _ H), ?(@error_or_alike _ _ _ H);
                 clear H
             end;
      first [reflexivity | congruence] ].

(** Rules for computations met further on. *)
Ltac alike_more := fail.

Ltac alike_step :=
  match goal with
  | |- alike _ (ret _) (ret _) => apply alike_ret; same_text
  | |- alike _ (raise _) (raise _) => apply alike_raise
  | |- alike _ _ _ => alike_more
  | |- alike _ (bind (info _) _) (bind (info _) _) =>
      eapply alike_bind; [apply alike_info | intros _ _ _]
  | |- alike _ (bind (log_a2a_communication _ _ _) _)
                (bind (log_a2a_communication _ _ _) _) =>
      eapply alike_bind; [apply alike_log_a2a | intros _ _ _]
  | |- alike _ (bind (route_to_data_agent _ _) _) (bind (route_to_data_agent _ _) _) =>
      eapply alike_bind;
      [ apply alike_route_to_data_agent
      | let H := fresh "Hresp" in
        intros ? ? H; cbv zeta; rewrite ?(@success_alike _ _ H) ]
  | |- alike _ (bind (route_to_support_agent "handle_query" _) _)
                (bind (route_to_support_agent "handle_query" _) _) =>
      eapply alike_bind;
      [ apply alike_handle_query; first [assumption | exact I]
      | intros ? ? <- ]
  | |- alike _ (bind (result_of _) _) (bind (result_of _) _) =>
      eapply alike_bind; [apply alike_result_of; related | intros ? ? ?]
  | |- alike _ (bind (error_of _) _) (bind (error_of _) _) =>
      eapply alike_bind; [apply alike_error_of; related | intros ? ? <-]
  | |- alike _ (bind (as_customer _) _) (bind (as_customer _) _) =>
      eapply alike_bind; [apply alike_as_customer; related | intros ? ? ?]
  | |- alike _ (bind (as_customers _) _) (bind (as_customers _) _) =>
      eapply alike_bind; [apply alike_as_customers; related | intros ? ? ?]
  | |- alike _ (bind (as_tickets _) _) (bind (as_tickets _) _) =>
      eapply alike_bind; [apply alike_as_tickets; related | intros ? ? <-]
  | |- alike _ (bind (solution_or _ _) _) (bind (solution_or _ _) _) =>
      eapply alike_bind; [apply alike_solution_or; related | intros ? ? <-]
  | |- alike _ (bind (solution_of _) _) (bind (solution_of _) _) =>
      eapply alike_bind; [apply alike_solution_of; related | intros ? ? <-]
  | |- alike _ (bind (wants_context _) _) (bind (wants_context _) _) =>
      eapply alike_bind; [apply alike_wants_context; related | intros ? ? <-]
  | |- alike _ (solution_or _ _) (solution_or _ _) =>
      apply alike_solution_or; related
  | |- alike _ (solution_of _) (solution_of _) =>
      apply alike_solution_of; related
  | |- alike _ (wants_context _) (wants_context _) =>
      apply alike_wants_context; related
  | |- alike _ (if ?b then _ else _) (if ?b then _ else _) => destruct b
  | |- alike _ (match ?x with _ => _ end) (match ?x with _ => _ end) => destruct x
  | |- alike _ (bind _ _) (bind _ _) =>
      eapply alike_bind with (R := eq); [| intros ? ? <-]
  end.

Ltac alike_auto := repeat alike_step.

Lemma alike_show_history (cid : option Z) :
  alike eq (show_history cid) (show_history cid).
Proof. unfold show_history. alike_auto. Qed.

Lemma alike_show_customer (cid : option Z) :
  alike eq (show_customer cid) (show_customer cid).
Proof.
  unfold show_customer, customer_information. alike_auto.
Qed.

Ltac alike_more ::=
  match goal with
  | |- alike _ (show_history _) (show_history _) => apply alike_show_history
  | |- alike _ (show_customer _) (show_customer _) => apply alike_show_customer
  end.

Lemma alike_handle_simple_query (q : string) (a : analysis) :
  alike eq (handle_simple_query q a) (handle_simple_query q a).
Proof.
  unfold handle_simple_query, returning, customer_information. alike_auto.
Qed.

Lemma alike_negotiate_between_agents (q : string) (a : analysis) :
  alike alike_responses (negotiate_between_agents q a)
    (negotiate_between_agents q a).
Proof.
  unfold negotiate_between_agents. alike_auto.
  all: unfold alike_responses, alike_option; cbn;
    repeat split; try related; trivial.
Qed.

Lemma alike_synthesize (rs1 rs2 : responses) :
  alike_responses rs1 rs2 -> alike eq (synthesize rs1) (synthesize rs2).
Proof.
  destruct rs1 as [s1 d1 c1], rs2 as [s2 d2 c2].
  unfold alike_responses, alike_option. cbn. intros (Hs & Hd & Hc).
  unfold synthesize. cbn.
  eapply alike_bind with (R := eq).
  - destruct d1 as [r1|], d2 as [r2|]; try contradiction; [|alike_auto].
    rewrite (@success_alike _ _ Hd). alike_auto.
  - intros parts ? <-.
    eapply alike_bind with (R := eq); [|intros ? ? <-; alike_auto].
    destruct c1 as [r1|], c2 as [r2|]; try contradiction; [alike_auto|].
    destruct s1 as [r1|], s2 as [r2|]; try contradiction; alike_auto.
Qed.

Lemma fold_left_text_alike {A} (R : A -> A -> Prop) (f : string -> A -> string)
    (xs1 xs2 : list A) :
  (forall s x1 x2, R x1 x2 -> f s x1 = f s x2) ->
  Forall2 R xs1 xs2 ->
  forall s, fold_left f xs1 s = fold_left f xs2 s.
Proof.
  intros Hf. induction 1 as [|x1 x2 xs1 xs2 Hx Hxs IH]; intro s; simpl;
    [reflexivity|].
  now rewrite (Hf s x1 x2 Hx), IH.
Qed.

Lemma customer_list_text_alike (cs1 cs2 : list customer) :
  alike_customers cs1 cs2 -> customer_list_text cs1 = customer_list_text cs2.
Proof.
  intro H. unfold customer_list_text.
  rewrite (Forall2_length H). f_equal.
  apply fold_left_text_alike with (R := alike_customer); [|exact H].
  intros s x1 x2 Hx. same_text.
Qed.

Lemma alike_handle_complex_query (q : string) (a : analysis) :
  alike eq (handle_complex_query q a) (handle_complex_query q a).
Proof.
  unfold handle_complex_query. cbv zeta.
  eapply alike_bind; [apply alike_info | intros _ _ _].
  destruct ((Py.contains "ticket" (Py.lower q) || Py.contains "history" (Py.lower q))
            && truthy (customer_id a)).
  { alike_auto. }
  destruct (Py.contains "list" (Py.lower q) && Py.contains "customer" (Py.lower q)).
  { eapply alike_bind; [apply alike_route_to_data_agent | intros r1 r2 Hr].
    rewrite (@success_alike _ _ Hr). destruct (success r2); [|alike_auto].
    eapply alike_bind; [apply alike_result_of, Hr | intros v1 v2 Hv].
    eapply alike_bind; [apply alike_as_customers, Hv | intros cs1 cs2 Hcs].
    pose proof (customer_list_text_alike Hcs) as Htext.
    destruct Hcs; apply alike_ret; [reflexivity | exact Htext]. }
  destruct (Py.contains "show" (Py.lower q) && Py.contains "customer" (Py.lower q)
            && truthy (customer_id a)).
  { alike_auto. }
  eapply alike_bind;
    [apply alike_negotiate_between_agents | apply alike_synthesize].
Qed.

Lemma alike_collect_tickets (priority_filter : option string)
    (cs1 cs2 : list customer) :
  alike_customers cs1 cs2 ->
  alike eq (collect_tickets priority_filter cs1)
    (collect_tickets priority_filter cs2).
Proof.
  intro H. unfold collect_tickets.
  apply alike_for_each with (RA := alike_customer);
    [now apply firstn_alike | | reflexivity].
  intros c1 c2 acc ? Hc <-.
  destruct (alike_customer_fields Hc) as [-> _].
  alike_auto.
Qed.

Lemma alike_collect_open (cs1 cs2 : list customer) :
  alike_customers cs1 cs2 ->
  alike (Forall2 alike_open) (collect_open cs1) (collect_open cs2).
Proof.
  intro H. unfold collect_open.
  apply alike_for_each with (RA := alike_customer);
    [now apply firstn_alike | | constructor].
  intros c1 c2 acc1 acc2 Hc Hacc.
  destruct (alike_customer_fields Hc) as [Hid _]. rewrite Hid.
  eapply alike_bind; [apply alike_route_to_data_agent | intros r1 r2 Hr].
  rewrite (@success_alike _ _ Hr). destruct (success r2);
    [|now apply alike_ret].
  eapply alike_bind; [apply alike_result_of, Hr | intros v1 v2 Hv].
  eapply alike_bind; [apply alike_as_tickets, Hv | intros ts ? <-].
  destruct (filter (fun t => String.eqb (t_status t) "open") ts);
    apply alike_ret; [exact Hacc|].
  apply Forall2_app; [exact Hacc|]. constructor; [|constructor].
  split; [exact Hc | reflexivity].
Qed.

Lemma open_lines_alike (l1 l2 : list (customer * nat)) :
  Forall2 alike_open l1 l2 ->
  map (fun item => "- " ++ c_name (fst item) ++ ": "
                   ++ Py.str_of_nat (snd item) ++ " open ticket(s)") l1
  = map (fun item => "- " ++ c_name (fst item) ++ ": "
                     ++ Py.str_of_nat (snd item) ++ " open ticket(s)") l2.
Proof.
  induction 1 as [|p1 p2 l1 l2 [Hc Hn] Hl IH]; cbn [map]; [reflexivity|].
  destruct (alike_customer_fields Hc) as (_ & -> & _). now rewrite Hn, IH.
Qed.

Ltac alike_more ::=
  match goal with
  | |- alike _ (show_history _) (show_history _) => apply alike_show_history
  | |- alike _ (show_customer _) (show_customer _) => apply alike_show_customer
  | |- alike _ (bind (collect_tickets _ _) _) (bind (collect_tickets _ _) _) =>
      eapply alike_bind;
      [apply alike_collect_tickets; assumption | intros ? ? <-]
  | |- alike _ (bind (collect_open _) _) (bind (collect_open _) _) =>
      eapply alike_bind;
      [ apply alike_collect_open; assumption
      | let H := fresh "Hopen" in intros ? ? H ]
  end.

Lemma alike_handle_multi_step_query (q : string) (a : analysis) :
  alike eq (handle_multi_step_query q a) (handle_multi_step_query q a).
Proof.
  unfold handle_multi_step_query. cbv zeta. alike_auto.
  match goal with
  | Hcs : alike_customers _ _, Hopen : Forall2 alike_open _ _ |- _ =>
      rewrite (Forall2_length Hcs), (open_lines_alike Hopen);
      destruct Hopen; reflexivity
  end.
Qed.

Lemma alike_analyze_query (q : string) :
  alike eq (analyze_query q) (analyze_query q).
Proof. unfold analyze_query. alike_auto. Qed.

Lemma alike_process_query (q : string) :
  alike eq (process_query q) (process_query q).
Proof.
  unfold process_query. do 3 alike_step.
  eapply alike_bind; [apply alike_analyze_query | intros a ? <-].
  eapply alike_bind with (R := eq); [|intros ? ? <-; alike_auto].
  destruct (complexity a);
    [ apply alike_handle_simple_query
    | apply alike_handle_complex_query
    | apply alike_handle_multi_step_query ].
Qed.

(** C9. The text [process_query] returns depends on the query and on the
    database only: two calls with the same query on the same database
    return the same text, whatever the clock reads and whatever the trace
    holds at either call.  In particular a second call that follows a first
    one which left the database as it was returns the text of the first. *)
Theorem process_query_depends_on_query_and_database :
  (forall (query : string) (w1 w2 : world),
      db w1 = db w2 ->
      outcome (process_query query) w1 = outcome (process_query query) w2) /\
  (forall (query : string) (w : world),
      db (after (process_query query) w) = db w ->
      outcome (process_query query) (after (process_query query) w)
      = outcome (process_query query) w).
Proof.
  assert (H : forall (query : string) (w1 w2 : world),
             db w1 = db w2 ->
             outcome (process_query query) w1 = outcome (process_query query) w2).
  { intros query w1 w2 Hdb.
    assert (Hs : similar (db w1) (db w2)) by (rewrite Hdb; apply similar_refl).
    destruct (alike_process_query query w1 w2 Hs) as [_ H].
    unfold outcome.
    destruct (fst (process_query query w1)), (fst (process_query query w2));
      try contradiction; now subst. }
  split; [exact H|].
  intros query w Hdb. now apply H.
Qed.

Lemma process_query_depends_on_query_and_database_witness :
  outcome (process_query "Update customer 3 phone to 555-9999") sample_world
  = outcome (process_query "Update customer 3 phone to 555-9999")
      (mkWorld sample_database
         [Line "2025-01-01 00:00:00" name "INFO" "Query processing complete"]
         [support_dispatch "xyzzy"]
         (fun k => "2025-01-01 00:00:0" ++ Py.str_of_nat k) 7).
Proof.
  apply (proj1 process_query_depends_on_query_and_database). reflexivity.
Defined.

(** * Further properties: the database, the tool server and the agents *)

(** ** The database *)


Lemma database_eta (d : database) :
  mkDatabase (customers d) (tickets d) (fault d) = d.
Proof. now destruct d. Qed.

Lemma world_eta (w : world) :
  mkWorld (db w) (coordination_log w) (dispatches w) (clock w) (ticks w) = w.
Proof. now destruct w. Qed.

Lemma execute_none (w : world) :
  CustomerDatabase.execute [] w =
  match fault (db w) with
  | Some msg => (Raise (SqliteError msg), w)
  | None => (Ok (db w), w)
  end.
Proof.
  unfold CustomerDatabase.execute, bind, get_db, for_each.
  destruct (fault (db w)); reflexivity.
Qed.

Lemma get_customer_run (n : Z) (w : world) :
  fault (db w) = None -> CustomerDatabase.fits_int64 n = true ->
  CustomerDatabase.get_customer n w
  = (Ok (find (CustomerDatabase.has_id n) (customers (db w))), w).
Proof.
  intros Hf Hn. unfold CustomerDatabase.get_customer, bind.
  rewrite execute_one, Hf, Hn. reflexivity.
Qed.

Lemma get_customer_history_run (n : Z) (w : world) :
  fault (db w) = None -> CustomerDatabase.fits_int64 n = true ->
  CustomerDatabase.get_customer_history n w
  = (Ok (CustomerDatabase.order_by_created_at_desc
           (filter (fun t => (t_customer_id t =? n)%Z) (tickets (db w)))), w).
Proof.
  intros Hf Hn. unfold CustomerDatabase.get_customer_history, bind.
  rewrite execute_one, Hf, Hn. reflexivity.
Qed.

Lemma update_customer_run (n : Z) (data : list (string * string)) (w : world) :
  update_fields data <> [] ->
  fault (db w) = None -> CustomerDatabase.fits_int64 n = true ->
  CustomerDatabase.update_customer n data w
  = (Ok (existsb (CustomerDatabase.has_id n) (customers (db w))),
     mkWorld
       (mkDatabase
          (map (fun c => if CustomerDatabase.has_id n c
                         then CustomerDatabase.set_fields data (clock w (ticks w)) c
                         else c) (customers (db w)))
          (tickets (db w)) (fault (db w)))
       (coordination_log w) (dispatches w) (clock w) (S (ticks w))).
Proof.
  intros Hd Hf Hn. unfold CustomerDatabase.update_customer.
  fold (update_fields data).
  destruct (update_fields data) as [|f fs]; [congruence|].
  match goal with |- _ = ?r => remember r as rhs end.
  unfold try_catch, try_except, bind, now. rewrite execute_one. cbn [db].
  rewrite Hf, Hn. subst rhs. reflexivity.
Qed.

Lemma find_map_update (n : Z) (f : customer -> customer) (rows : list customer) :
  (forall c, c_id (f c) = c_id c) ->
  forall m,
    find (CustomerDatabase.has_id m)
      (map (fun c => if CustomerDatabase.has_id n c then f c else c) rows)
    = if (m =? n)%Z
      then option_map f (find (CustomerDatabase.has_id n) rows)
      else find (CustomerDatabase.has_id m) rows.
Proof.
  intros Hid m. unfold CustomerDatabase.has_id.
  induction rows as [|r rows IH]; simpl.
  - now destruct (m =? n)%Z.
  - destruct (c_id r =? n)%Z eqn:Hr.
    + rewrite Hid. apply Z.eqb_eq in Hr. rewrite Hr.
      destruct (m =? n)%Z eqn:Hm.
      * apply Z.eqb_eq in Hm. subst m. now rewrite Z.eqb_refl.
      * rewrite Z.eqb_sym, Hm. exact IH.
    + destruct (m =? n)%Z eqn:Hm.
      * apply Z.eqb_eq in Hm. subst m. rewrite Hr. exact IH.
      * destruct (c_id r =? m)%Z; [reflexivity | exact IH].
Qed.

Lemma find_existsb (n : Z) (rows : list customer) (c : customer) :
  find (CustomerDatabase.has_id n) rows = Some c ->
  existsb (CustomerDatabase.has_id n) rows = true.
Proof.
  intro H. apply existsb_exists. exists c.
  split; [eapply find_some; eauto | eapply (find_some _ _ H)].
Qed.

Lemma find_none_existsb (n : Z) (rows : list customer) :
  find (CustomerDatabase.has_id n) rows = None ->
  existsb (CustomerDatabase.has_id n) rows = false.
Proof.
  intro H. induction rows as [|r rows IH]; simpl in *; [reflexivity|].
  destruct (CustomerDatabase.has_id n r); [discriminate | now apply IH].
Qed.

Lemma map_update_none (n : Z) (f : customer -> customer) (rows : list customer) :
  find (CustomerDatabase.has_id n) rows = None ->
  map (fun c => if CustomerDatabase.has_id n c then f c else c) rows = rows.
Proof.
  induction rows as [|r rows IH]; simpl; [reflexivity|].
  destruct (CustomerDatabase.has_id n r); [discriminate|].
  intro H. now rewrite IH.
Qed.

(** X1. An update of an existing customer that names at least one allowed
    field succeeds, and a lookup of the customer right after it returns the
    old row with the named fields replaced and [updated_at] set to the time
    of the update.  Every other customer reads as before; the tickets and
    the identifiers of the rows are untouched. *)
Theorem update_customer_then_get_customer (n : Z) (data : list (string * string))
    (c : customer) (w : world) :
  fault (db w) = None -> CustomerDatabase.fits_int64 n = true ->
  find (CustomerDatabase.has_id n) (customers (db w)) = Some c ->
  update_fields data <> [] ->
  let w' := after (CustomerDatabase.update_customer n data) w in
  outcome (CustomerDatabase.update_customer n data) w = Ok true /\
  outcome (CustomerDatabase.get_customer n) w'
  = Ok (Some (CustomerDatabase.set_fields data (clock w (ticks w)) c)) /\
  (forall m, m <> n ->
     outcome (CustomerDatabase.get_customer m) w'
     = outcome (CustomerDatabase.get_customer m) w) /\
  tickets (db w') = tickets (db w) /\
  map c_id (customers (db w')) = map c_id (customers (db w)).
Proof.
  intros Hf Hn Hc Hd. unfold after, outcome.
  rewrite (update_customer_run n data w Hd Hf Hn). cbn [fst snd].
  split; [now rewrite (find_existsb _ _ Hc)|].
  split.
  { rewrite get_customer_run by (cbn; assumption). cbn [fst db customers].
    rewrite find_map_update by reflexivity. now rewrite Z.eqb_refl, Hc. }
  split.
  { intros m Hm. unfold CustomerDatabase.get_customer, bind.
    rewrite !execute_one. cbn [db fault]. rewrite Hf.
    destruct (CustomerDatabase.fits_int64 m); [|reflexivity].
    cbn [fst customers]. rewrite find_map_update by reflexivity.
    apply Z.eqb_neq in Hm. now rewrite Hm. }
  split; [reflexivity|].
  cbn [db customers]. rewrite map_map. apply map_ext.
  intro r. now destruct (CustomerDatabase.has_id n r).
Qed.

Lemma update_customer_then_get_customer_witness :
  outcome (CustomerDatabase.get_customer 2)
    (after (CustomerDatabase.update_customer 2 [("email", "jane@example.org")])
       sample_world)
  = Ok (Some (mkCustomer 2 "Jane Smith" "jane@example.org" "555-0102" "active"
                "2024-01-02 09:00:00" "0")).
Proof.
  refine (proj1 (proj2
    (@update_customer_then_get_customer 2 [("email", "jane@example.org")]
       (mkCustomer 2 "Jane Smith" "jane.smith@example.com" "555-0102" "active"
          "2024-01-02 09:00:00" "2024-01-02 09:00:00")
       sample_world eq_refl eq_refl eq_refl _))).
  discriminate.
Defined.

(** ** The order of texts *)

Lemma compare_lt_trans (a : string) :
  forall b c, String.compare a b = Lt -> String.compare b c = Lt ->
              String.compare a c = Lt.
Proof.
  induction a as [|x a IH]; intros [|y b] [|z c]; simpl; try congruence.
  unfold Ascii.compare.
  destruct (N.compare_spec (N_of_ascii x) (N_of_ascii y)) as [Exy|Lxy|Gxy];
    try discriminate.
  - rewrite Exy.
    destruct (N.compare_spec (N_of_ascii y) (N_of_ascii z)); try discriminate.
    + apply IH.
    + reflexivity.
  - intros _.
    destruct (N.compare_spec (N_of_ascii y) (N_of_ascii z)) as [Eyz|Lyz|Gyz];
      try discriminate; intros _.
    + rewrite <- Eyz. now apply N.compare_lt_iff in Lxy as ->.
    + assert (L : (N_of_ascii x < N_of_ascii z)%N) by lia.
      now apply N.compare_lt_iff in L as ->.
Qed.

Lemma ltb_asym (a b : string) : String.ltb a b = true -> String.ltb b a = false.
Proof.
  unfold String.ltb. rewrite (String.compare_antisym b a).
  destruct (String.compare a b); simpl; congruence.
Qed.

Lemma not_ltb_trans (a b c : string) :
  String.ltb a b = false -> String.ltb b c = false -> String.ltb a c = false.
Proof.
  unfold String.ltb. intros Hab Hbc.
  destruct (String.compare a c) eqn:Hac; try reflexivity.
  destruct (String.compare a b) eqn:Eab; try discriminate.
  - apply String.compare_eq_iff in Eab. subst b. now rewrite Hac in Hbc.
  - assert (Hba : String.compare b a = Lt).
    { rewrite String.compare_antisym, Eab. reflexivity. }
    now rewrite (compare_lt_trans _ _ _ Hba Hac) in Hbc.
Qed.

(** ** Insertion by [created_at], newest first *)

Section Insertion.
Variables (A : Type) (key : A -> string) (ins : A -> list A -> list A).
Hypothesis ins_nil : forall x, ins x [] = [x].
Hypothesis ins_cons : forall x u rest,
  ins x (u :: rest)
  = if String.ltb (key x) (key u) then u :: ins x rest else x :: u :: rest.

Lemma ins_permutation (x : A) (l : list A) : Permutation (ins x l) (x :: l).
Proof.
  induction l as [|u l IH]; [now rewrite ins_nil|].
  rewrite ins_cons. destruct (String.ltb (key x) (key u)); [|reflexivity].
  rewrite IH. apply perm_swap.
Qed.

Lemma sort_permutation (l : list A) : Permutation (fold_right ins [] l) l.
Proof.
  induction l as [|x l IH]; simpl; [constructor|].
  rewrite ins_permutation. now constructor.
Qed.

Lemma ins_sorted (x : A) (l : list A) :
  StronglySorted (fun x y => String.ltb (key x) (key y) = false) l ->
  StronglySorted (fun x y => String.ltb (key x) (key y) = false) (ins x l).
Proof.
  induction 1 as [|u l Hs IH Hu].
  - rewrite ins_nil. repeat constructor.
  - rewrite ins_cons. destruct (String.ltb (key x) (key u)) eqn:Hxu.
    + constructor; [exact IH|].
      rewrite Forall_forall in *. intros y Hy.
      apply (Permutation_in _ (ins_permutation x l)) in Hy.
      destruct Hy as [<-|Hy]; [now apply ltb_asym | now apply Hu].
    + constructor; [now constructor|].
      constructor; [exact Hxu|].
      rewrite Forall_forall in *. intros y Hy.
      eapply not_ltb_trans; [exact Hxu | now apply Hu].
Qed.

Lemma sort_sorted (l : list A) :
  StronglySorted (fun x y => String.ltb (key x) (key y) = false)
    (fold_right ins [] l).
Proof.
  induction l as [|x l IH]; simpl; [constructor | now apply ins_sorted].
Qed.
End Insertion.

(** X2. The history of a customer holds exactly the tickets of that
    customer, each once, and no ticket in it is older than one that follows
    it; the call changes nothing. *)
Theorem get_customer_history_newest_first (n : Z) (w : world) :
  fault (db w) = None -> CustomerDatabase.fits_int64 n = true ->
  exists h,
    CustomerDatabase.get_customer_history n w = (Ok h, w) /\
    Permutation h (filter (fun t => (t_customer_id t =? n)%Z) (tickets (db w))) /\
    newest_first h.
Proof.
  intros Hf Hn. rewrite get_customer_history_run by assumption.
  eexists. split; [reflexivity|]. split.
  - apply (@sort_permutation ticket t_created_at CustomerDatabase.insert_desc);
      reflexivity.
  - apply (@sort_sorted ticket t_created_at CustomerDatabase.insert_desc);
      reflexivity.
Qed.

Lemma get_customer_history_newest_first_witness :
  exists h,
    CustomerDatabase.get_customer_history 1 sample_world = (Ok h, sample_world) /\
    Permutation h
      (filter (fun t => (t_customer_id t =? 1)%Z) (tickets (db sample_world))) /\
    newest_first h.
Proof.
  apply (@get_customer_history_newest_first 1 sample_world); reflexivity.
Defined.

(** ** [create_ticket] *)

Lemma create_ticket_run (n : Z) (issue priority : string) (w : world) :
  fault (db w) = None -> CustomerDatabase.fits_int64 n = true ->
  CustomerDatabase.create_ticket n issue priority w
  = match find (CustomerDatabase.has_id n) (customers (db w)) with
    | None => (Ok None, w)
    | Some _ =>
        (Ok (Some (CustomerDatabase.next_rowid (tickets (db w)))),
         mkWorld
           (mkDatabase (customers (db w))
              (tickets (db w) ++
               [mkTicket (CustomerDatabase.next_rowid (tickets (db w))) n issue
                  "open" priority (clock w (ticks w))])%list
              (fault (db w)))
           (coordination_log w) (dispatches w) (clock w) (S (ticks w)))
    end.
Proof.
  intros Hf Hn.
  match goal with |- _ = ?r => remember r as rhs end.
  unfold CustomerDatabase.create_ticket, bind at 1.
  rewrite execute_one, Hf, Hn.
  destruct (find (CustomerDatabase.has_id n) (customers (db w)));
    [|subst rhs; reflexivity].
  unfold try_catch, try_except, bind, now. rewrite execute_one, Hf, Hn.
  subst rhs. reflexivity.
Qed.

Lemma rowid_below_next (rows : list ticket) (t : ticket) :
  In t rows -> (t_id t < CustomerDatabase.next_rowid rows)%Z.
Proof.
  unfold CustomerDatabase.next_rowid.
  induction rows as [|r rows IH]; simpl; [tauto|].
  intros [->|H]; [lia|]. specialize (IH H). lia.
Qed.

Lemma next_rowid_positive (rows : list ticket) :
  (0 < CustomerDatabase.next_rowid rows)%Z.
Proof.
  unfold CustomerDatabase.next_rowid.
  induction rows as [|r rows IH]; simpl; lia.
Qed.

(** X3. While the ticket table has not reached the largest rowid (the next
    one is below 2^63), a ticket created for an existing customer gets a
    fresh positive identifier and the status "open", and is appended to the
    table.  The customer's history right after it holds the new ticket
    beside the old ones; the histories of the other customers and the
    customer table are unchanged. *)
Theorem create_ticket_then_get_customer_history (n : Z) (issue priority : string)
    (c : customer) (w : world) :
  fault (db w) = None -> CustomerDatabase.fits_int64 n = true ->
  find (CustomerDatabase.has_id n) (customers (db w)) = Some c ->
  (CustomerDatabase.next_rowid (tickets (db w)) < 2 ^ 63)%Z ->
  let ticket_id := CustomerDatabase.next_rowid (tickets (db w)) in
  let t := mkTicket ticket_id n issue "open" priority (clock w (ticks w)) in
  let w' := after (CustomerDatabase.create_ticket n issue priority) w in
  outcome (CustomerDatabase.create_ticket n issue priority) w = Ok (Some ticket_id) /\
  (0 < ticket_id)%Z /\
  (forall u, In u (tickets (db w)) -> t_id u <> ticket_id) /\
  tickets (db w') = (tickets (db w) ++ [t])%list /\
  customers (db w') = customers (db w) /\
  (exists h, outcome (CustomerDatabase.get_customer_history n) w' = Ok h /\
             Permutation h
               (t :: filter (fun u => (t_customer_id u =? n)%Z) (tickets (db w)))) /\
  (forall m, m <> n ->
     outcome (CustomerDatabase.get_customer_history m) w'
     = outcome (CustomerDatabase.get_customer_history m) w).
Proof.
  intros Hf Hn Hc _. unfold after, outcome.
  rewrite create_ticket_run, Hc by assumption. cbn [fst snd db tickets customers].
  split; [reflexivity|]. split; [apply next_rowid_positive|].
  split; [intros u Hu; apply rowid_below_next in Hu; lia|].
  split; [reflexivity|]. split; [reflexivity|]. split.
  - rewrite get_customer_history_run by (cbn; assumption).
    eexists. split; [reflexivity|]. cbn [db tickets].
    rewrite (@sort_permutation ticket t_created_at CustomerDatabase.insert_desc)
      by reflexivity.
    rewrite filter_app. cbn [filter t_customer_id]. rewrite Z.eqb_refl.
    rewrite Permutation_app_comm. reflexivity.
  - intros m Hm. unfold CustomerDatabase.get_customer_history, bind.
    rewrite !execute_one. cbn [db fault]. rewrite Hf.
    destruct (CustomerDatabase.fits_int64 m); [|reflexivity].
    cbn [fst tickets]. rewrite filter_app. cbn [filter t_customer_id].
    apply Z.eqb_neq in Hm. rewrite Z.eqb_sym in Hm. rewrite Z.eqb_sym, Z.eqb_sym.
    replace (n =? m)%Z with false. now rewrite app_nil_r.
Qed.

Lemma create_ticket_then_get_customer_history_witness :
  outcome (CustomerDatabase.create_ticket 2 "Invoice missing" "medium") sample_world
  = Ok (Some 4%Z).
Proof.
  exact (proj1
    (@create_ticket_then_get_customer_history 2 "Invoice missing" "medium"
       (mkCustomer 2 "Jane Smith" "jane.smith@example.com" "555-0102" "active"
          "2024-01-02 09:00:00" "2024-01-02 09:00:00")
       sample_world eq_refl eq_refl eq_refl eq_refl)).
Defined.

(** ** Refusals and failures *)

Lemma update_customer_nothing (n : Z) (data : list (string * string)) (w : world) :
  update_fields data = [] ->
  CustomerDatabase.update_customer n data w = (Ok false, w).
Proof.
  intro Hd. unfold CustomerDatabase.update_customer. fold (update_fields data).
  now rewrite Hd.
Qed.

(** X4. For an identifier that no customer has, the lookup returns [None],
    an update returns [False] and the creation of a ticket returns [None];
    none of them changes the database. *)
Theorem unknown_customer_is_refused_without_writing (n : Z) (w : world) :
  fault (db w) = None -> CustomerDatabase.fits_int64 n = true ->
  find (CustomerDatabase.has_id n) (customers (db w)) = None ->
  CustomerDatabase.get_customer n w = (Ok None, w) /\
  (forall data,
      outcome (CustomerDatabase.update_customer n data) w = Ok false /\
      db (after (CustomerDatabase.update_customer n data) w) = db w) /\
  (forall issue priority,
      CustomerDatabase.create_ticket n issue priority w = (Ok None, w)).
Proof.
  intros Hf Hn Hc. split; [|split].
  - now rewrite get_customer_run, Hc.
  - intro data. unfold outcome, after.
    destruct (update_fields data) as [|f fs] eqn:Hd.
    + now rewrite update_customer_nothing.
    + rewrite update_customer_run by (assumption || congruence).
      cbn [fst snd db]. rewrite find_none_existsb by assumption.
      split; [reflexivity|].
      rewrite map_update_none by assumption. apply database_eta.
  - intros issue priority. now rewrite create_ticket_run, Hc.
Qed.

Lemma unknown_customer_is_refused_without_writing_witness :
  CustomerDatabase.get_customer 99 sample_world = (Ok None, sample_world).
Proof.
  exact (proj1
    (@unknown_customer_is_refused_without_writing 99 sample_world
       eq_refl eq_refl eq_refl)).
Defined.

Lemma update_customer_fault (n : Z) (data : list (string * string)) (w : world)
    (msg : string) :
  fault (db w) = Some msg ->
  outcome (CustomerDatabase.update_customer n data) w = Ok false /\
  db (after (CustomerDatabase.update_customer n data) w) = db w.
Proof.
  intro Hf. unfold outcome, after.
  destruct (update_fields data) as [|f fs] eqn:Hd.
  - now rewrite update_customer_nothing.
  - unfold CustomerDatabase.update_customer. fold (update_fields data).
    rewrite Hd. unfold try_catch, try_except, bind, now.
    rewrite execute_one. cbn [db]. rewrite Hf. split; reflexivity.
Qed.

(** X5. On a database that fails, the reads and [create_ticket] (whose
    check of the customer stands outside its [try]) raise the database's
    error, while [update_customer] catches it and returns [False]; nothing
    is written. *)
Theorem failing_database_raises_except_in_update (msg : string) (w : world) :
  fault (db w) = Some msg ->
  (forall n, CustomerDatabase.get_customer n w = (Raise (SqliteError msg), w)) /\
  (forall status limit,
      CustomerDatabase.list_customers status limit w = (Raise (SqliteError msg), w)) /\
  (forall n,
      CustomerDatabase.get_customer_history n w = (Raise (SqliteError msg), w)) /\
  (forall n issue priority,
      CustomerDatabase.create_ticket n issue priority w
      = (Raise (SqliteError msg), w)) /\
  (forall n data,
      outcome (CustomerDatabase.update_customer n data) w = Ok false /\
      db (after (CustomerDatabase.update_customer n data) w) = db w).
Proof.
  intro Hf. repeat split.
  - intro n. unfold CustomerDatabase.get_customer, bind.
    now rewrite execute_one, Hf.
  - intros status limit. unfold CustomerDatabase.list_customers, bind.
    now rewrite execute_one, Hf.
  - intro n. unfold CustomerDatabase.get_customer_history, bind.
    now rewrite execute_one, Hf.
  - intros n issue priority. unfold CustomerDatabase.create_ticket, bind.
    now rewrite execute_one, Hf.
  - eapply update_customer_fault; eauto.
  - eapply update_customer_fault; eauto.
Qed.

Lemma failing_database_raises_except_in_update_witness :
  CustomerDatabase.get_customer 1 broken_world
  = (Raise (SqliteError "no such table: customers"), broken_world).
Proof.
  exact (proj1
    (@failing_database_raises_except_in_update "no such table: customers"
       broken_world eq_refl) 1%Z).
Defined.

(** X6. An identifier that does not fit a 64-bit integer makes every
    statement that binds it raise [OverflowError]; in [update_customer] the
    error passes the handler, which catches [sqlite3.Error] only.  Nothing
    is written. *)
Theorem id_beyond_64_bits_raises_overflow (n : Z) (w : world) :
  fault (db w) = None -> CustomerDatabase.fits_int64 n = false ->
  let overflow : exn :=
    OverflowError "Python int too large to convert to SQLite INTEGER" in
  CustomerDatabase.get_customer n w = (Raise overflow, w) /\
  CustomerDatabase.get_customer_history n w = (Raise overflow, w) /\
  (forall issue priority,
      CustomerDatabase.create_ticket n issue priority w = (Raise overflow, w)) /\
  (forall data, update_fields data <> [] ->
      outcome (CustomerDatabase.update_customer n data) w = Raise overflow /\
      db (after (CustomerDatabase.update_customer n data) w) = db w).
Proof.
  intros Hf Hn overflow. repeat split.
  - unfold CustomerDatabase.get_customer, bind. now rewrite execute_one, Hf, Hn.
  - unfold CustomerDatabase.get_customer_history, bind.
    now rewrite execute_one, Hf, Hn.
  - intros issue priority. unfold CustomerDatabase.create_ticket, bind.
    now rewrite execute_one, Hf, Hn.
  - unfold outcome, CustomerDatabase.update_customer. fold (update_fields data).
    destruct (update_fields data); [congruence|].
    unfold try_catch, try_except, bind, now. rewrite execute_one. cbn [db].
    now rewrite Hf, Hn.
  - unfold after, CustomerDatabase.update_customer. fold (update_fields data).
    destruct (update_fields data); [congruence|].
    unfold try_catch, try_except, bind, now. rewrite execute_one. cbn [db].
    now rewrite Hf, Hn.
Qed.

Lemma id_beyond_64_bits_raises_overflow_witness :
  CustomerDatabase.get_customer (2 ^ 63) sample_world
  = (Raise (OverflowError "Python int too large to convert to SQLite INTEGER"),
     sample_world).
Proof.
  exact (proj1
    (@id_beyond_64_bits_raises_overflow (2 ^ 63) sample_world eq_refl eq_refl)).
Defined.

(** ** The join queries *)

Lemma in_join_customers (ts : list ticket) (cs : list customer)
    (t : ticket) (c : customer) :
  In (t, c) (CustomerDatabase.join_customers ts cs) <->
  In t ts /\ In c cs /\ c_id c = t_customer_id t.
Proof.
  unfold CustomerDatabase.join_customers. rewrite in_flat_map. split.
  - intros (t' & Ht & H). apply in_map_iff in H.
    destruct H as (c' & E & Hc). injection E as -> ->.
    apply filter_In in Hc. destruct Hc as [Hc Hid].
    unfold CustomerDatabase.has_id in Hid. apply Z.eqb_eq in Hid. auto.
  - intros (Ht & Hc & Hid). exists t. split; [exact Ht|].
    apply in_map, filter_In. split; [exact Hc|].
    unfold CustomerDatabase.has_id. now apply Z.eqb_eq.
Qed.

Lemma strongly_sorted_map {A B} (f : A -> B) (R : B -> B -> Prop) (l : list A) :
  StronglySorted (fun x y => R (f x) (f y)) l -> StronglySorted R (map f l).
Proof.
  induction 1 as [|x l Hs IH Hx]; simpl; constructor; [exact IH|].
  rewrite Forall_forall in *. intros y Hy. apply in_map_iff in Hy.
  destruct Hy as (y' & <- & Hy'). now apply Hx.
Qed.

Lemma strongly_sorted_impl {A} (R R' : A -> A -> Prop) (l : list A) :
  (forall x y, R x y -> R' x y) -> StronglySorted R l -> StronglySorted R' l.
Proof.
  intro H. induction 1 as [|x l Hs IH Hx]; constructor; [exact IH|].
  rewrite Forall_forall in *. intros y Hy. now apply H, Hx.
Qed.

Lemma joined_rows (keep : ticket -> bool)
    (row : ticket * customer -> CustomerDatabase.ticket_row) (d : database) :
  (forall r, CustomerDatabase.tr_ticket (row r) = fst r) ->
  let rows :=
    map row
      (CustomerDatabase.order_joined_by_created_at_desc
         (filter (fun r => keep (fst r))
            (CustomerDatabase.join_customers (tickets d) (customers d)))) in
  (forall r, In r rows <->
     exists t c, In t (tickets d) /\ In c (customers d) /\
                 c_id c = t_customer_id t /\ keep t = true /\ r = row (t, c)) /\
  StronglySorted row_not_older rows.
Proof.
  intros Hrow rows. split.
  - intro r. unfold rows. rewrite in_map_iff. split.
    + intros ([t c] & <- & H).
      apply (Permutation_in _
               (@sort_permutation _ (fun r => t_created_at (fst r))
                  CustomerDatabase.insert_joined_desc
                  (fun _ => eq_refl) (fun _ _ _ => eq_refl) _)) in H.
      apply filter_In in H. destruct H as [H Hk].
      apply in_join_customers in H. destruct H as (Ht & Hc & Hid).
      now exists t, c.
    + intros (t & c & Ht & Hc & Hid & Hk & ->). exists (t, c).
      split; [reflexivity|].
      apply (Permutation_in _
               (Permutation_sym
                  (@sort_permutation _ (fun r => t_created_at (fst r))
                     CustomerDatabase.insert_joined_desc
                     (fun _ => eq_refl) (fun _ _ _ => eq_refl) _))).
      apply filter_In. split; [|exact Hk].
      now apply in_join_customers.
  - apply strongly_sorted_map.
    eapply strongly_sorted_impl;
      [|apply (@sort_sorted _ (fun r : ticket * customer => t_created_at (fst r))
                 CustomerDatabase.insert_joined_desc); reflexivity].
    intros x y H. unfold row_not_older. rewrite !Hrow. exact H.
Qed.

(** X7. The two ticket reports list exactly the tickets of the asked
    priority (status) that belong to a customer of the table, each beside the
    name and email (and status) of that customer, newest first; a ticket
    whose customer is not in the table is left out. *)
Theorem ticket_reports_join_each_ticket_with_its_owner (w : world) :
  fault (db w) = None ->
  (forall priority, exists rows,
      CustomerDatabase.get_tickets_by_priority priority w = (Ok rows, w) /\
      (forall r, In r rows <->
         exists t c, In t (tickets (db w)) /\ In c (customers (db w)) /\
                     c_id c = t_customer_id t /\ t_priority t = priority /\
                     r = CustomerDatabase.mkTicketRow t (c_name c) (c_email c) None) /\
      StronglySorted row_not_older rows) /\
  (forall status, exists rows,
      CustomerDatabase.get_tickets_by_status status w = (Ok rows, w) /\
      (forall r, In r rows <->
         exists t c, In t (tickets (db w)) /\ In c (customers (db w)) /\
                     c_id c = t_customer_id t /\ t_status t = status /\
                     r = CustomerDatabase.mkTicketRow t (c_name c) (c_email c)
                           (Some (c_status c))) /\
      StronglySorted row_not_older rows).
Proof.
  intro Hf. split.
  - intro priority.
    unfold CustomerDatabase.get_tickets_by_priority, bind.
    rewrite execute_none, Hf. eexists. split; [reflexivity|].
    destruct (@joined_rows (fun t => String.eqb (t_priority t) priority)
                (fun r => CustomerDatabase.mkTicketRow (fst r) (c_name (snd r))
                            (c_email (snd r)) None)
                (db w) (fun _ => eq_refl)) as [Hin Hs].
    split; [|exact Hs].
    intro r. rewrite Hin. split; intros (t & c & Ht & Hc & Hid & Hk & ->);
      exists t, c; repeat split; trivial; now apply String.eqb_eq.
  - intro status.
    unfold CustomerDatabase.get_tickets_by_status, bind.
    rewrite execute_none, Hf. eexists. split; [reflexivity|].
    destruct (@joined_rows (fun t => String.eqb (t_status t) status)
                (fun r => CustomerDatabase.mkTicketRow (fst r) (c_name (snd r))
                            (c_email (snd r)) (Some (c_status (snd r))))
                (db w) (fun _ => eq_refl)) as [Hin Hs].
    split; [|exact Hs].
    intro r. rewrite Hin. split; intros (t & c & Ht & Hc & Hid & Hk & ->);
      exists t, c; repeat split; trivial; now apply String.eqb_eq.
Qed.

Lemma ticket_reports_join_each_ticket_with_its_owner_witness :
  exists rows,
    CustomerDatabase.get_tickets_by_priority "high" sample_world
    = (Ok rows, sample_world) /\
    (forall r, In r rows <->
       exists t c, In t (tickets (db sample_world)) /\
                   In c (customers (db sample_world)) /\
                   c_id c = t_customer_id t /\ t_priority t = "high" /\
                   r = CustomerDatabase.mkTicketRow t (c_name c) (c_email c) None) /\
    StronglySorted row_not_older rows.
Proof.
  exact (proj1
    (@ticket_reports_join_each_ticket_with_its_owner sample_world eq_refl) "high").
Defined.

(** ** The tool server *)

Lemma inner_mcp_create_ticket_open (p : MCPServer.tool_params) :
  inner (MCPServer.create_ticket p) (tool_payload "create_ticket").
Proof.
  unfold MCPServer.create_ticket.
  eapply inner_bind; [apply inner_required | intros customer_id _].
  eapply inner_bind; [apply inner_required | intros issue _].
  eapply inner_bind; [apply inner_db_create_ticket | intros [tid|] _].
  - destruct (tid =? 0)%Z eqn:E; [apply inner_raise|].
    apply inner_ret. apply Z.eqb_neq in E.
    cbn. eauto 8.
  - apply inner_raise.
Qed.

Lemma tool_cases (tool_name : string) :
  MCPServer.tool tool_name MCPServer.tools = None \/
  (tool_name = "get_customer" \/ tool_name = "list_customers" \/
   tool_name = "update_customer" \/ tool_name = "create_ticket" \/
   tool_name = "get_customer_history").
Proof.
  unfold MCPServer.tools, MCPServer.tool.
  repeat match goal with
  | |- context [String.eqb ?a tool_name] =>
      destruct (String.eqb_spec a tool_name); [subst; right; tauto|]
  end.
  now left.
Qed.

Lemma call_tool_returns (tool_name : string) (p : MCPServer.tool_params)
    (w : world) :
  exists r w',
    MCPServer.call_tool tool_name p w = (Ok r, w') /\ quiet w w' /\
    forall v, r = MCPServer.ToolOk v -> tool_payload tool_name v.
Proof.
  apply inner_returning.
  - unfold MCPServer.call_tool.
    destruct (tool_cases tool_name) as [E|[->|[->|[->|[->| ->]]]]].
    + rewrite E. apply inner_ret. discriminate.
    + apply (inner_call MCPServer.get_customer), inner_mcp_get_customer.
    + apply (inner_call MCPServer.list_customers), inner_mcp_list_customers.
    + apply (inner_call MCPServer.update_customer), inner_mcp_update_customer.
    + apply (inner_call MCPServer.create_ticket), inner_mcp_create_ticket_open.
    + apply (inner_call MCPServer.get_customer_history),
        inner_mcp_get_customer_history.
  - unfold MCPServer.call_tool.
    destruct (MCPServer.tool tool_name MCPServer.tools);
      [apply try_except_returns | unfold ret; eauto].
Qed.

(** X8. [call_tool] never raises: whatever the tool name and the
    arguments, it returns a result dict and leaves the router's trace and
    dispatch history alone.  A successful result has the shape of its tool:
    a customer row for [get_customer] and [update_customer] (never [None]),
    a list of customers, a list of tickets, or a new ticket with status
    "open" and a non-zero identifier; no other tool name succeeds. *)
Theorem call_tool_always_answers (tool_name : string) (p : MCPServer.tool_params)
    (w : world) :
  exists r w',
    MCPServer.call_tool tool_name p w = (Ok r, w') /\
    coordination_log w' = coordination_log w /\
    dispatches w' = dispatches w /\
    match r with
    | MCPServer.ToolOk v => tool_payload tool_name v
    | MCPServer.ToolError _ => True
    end.
Proof.
  destruct (call_tool_returns tool_name p w) as (r & w' & E & (_ & Hl & Hd & _) & Hr).
  exists r, w'. repeat split; trivial.
  destruct r; [now apply Hr | exact I].
Qed.

Lemma unknown_tool (tool_name : string) (p : MCPServer.tool_params) (w : world) :
  MCPServer.tool tool_name MCPServer.tools = None ->
  MCPServer.call_tool tool_name p w
  = (Ok (MCPServer.ToolError ("Unknown tool: " ++ tool_name)), w).
Proof. intro E. unfold MCPServer.call_tool. now rewrite E. Qed.

(** X9. The schemas of [get_available_tools] name exactly the tools
    [call_tool] can run: any other name gets the answer "Unknown tool", and
    a call that leaves out an argument its schema declares required gets an
    error result, without touching anything. *)
Theorem advertised_tools_are_the_callable_ones :
  (forall tool_name,
      In (Some tool_name) (map advertised_name MCPServer.get_available_tools) <->
      MCPServer.tool tool_name MCPServer.tools <> None) /\
  (forall tool_name p w,
      ~ In (Some tool_name) (map advertised_name MCPServer.get_available_tools) ->
      MCPServer.call_tool tool_name p w
      = (Ok (MCPServer.ToolError ("Unknown tool: " ++ tool_name)), w)) /\
  (forall schema tool_name arg p w,
      In schema MCPServer.get_available_tools ->
      advertised_name schema = Some tool_name ->
      In arg (advertised_required schema) ->
      passes arg p = false ->
      exists msg,
        MCPServer.call_tool tool_name p w = (Ok (MCPServer.ToolError msg), w)).
Proof.
  assert (Hnames : forall tool_name,
            In (Some tool_name) (map advertised_name MCPServer.get_available_tools) <->
            MCPServer.tool tool_name MCPServer.tools <> None).
  { intro tool_name. split.
    - cbn. intros [E|[E|[E|[E|[E|[]]]]]]; injection E as <-; discriminate.
    - intro H. destruct (tool_cases tool_name) as [E|[->|[->|[->|[->| ->]]]]];
        [congruence| cbn; tauto ..]. }
  split; [exact Hnames|]. split.
  - intros tool_name p w H. apply unknown_tool.
    destruct (MCPServer.tool tool_name MCPServer.tools) eqn:E; [|reflexivity].
    exfalso. apply H, Hnames. congruence.
  - intros schema tool_name arg p w Hs Hn Ha Hp.
    unfold MCPServer.get_available_tools in Hs.
    destruct Hs as [<-|[<-|[<-|[<-|[<-|[]]]]]]; cbn in Hn; injection Hn as <-;
      cbn in Ha;
      repeat match goal with
      | H : _ \/ _ |- _ => destruct H as [<-|H]
      | H : False |- _ => destruct H
      end;
      cbn in Hp;
      unfold MCPServer.call_tool; cbn [MCPServer.tool MCPServer.tools String.eqb Ascii.eqb Bool.eqb];
      unfold try_except, bind, MCPServer.get_customer, MCPServer.update_customer,
        MCPServer.create_ticket, MCPServer.get_customer_history,
        MCPServer.required, MCPServer.missing, raise, ret;
      repeat match goal with
      | H : match ?x with Some _ => true | None => false end = false |- _ =>
          destruct x; [discriminate|]; clear H
      | |- context [match ?x with Some _ => _ | None => _ end] => destruct x
      end;
      eexists; reflexivity.
Qed.

Lemma advertised_tools_are_the_callable_ones_witness :
  exists msg,
    MCPServer.call_tool "update_customer"
      (MCPServer.mkToolParams (Some 1%Z) None None None None None) sample_world
    = (Ok (MCPServer.ToolError msg), sample_world).
Proof.
  apply (proj2 (proj2 advertised_tools_are_the_callable_ones)
           (nth 2 MCPServer.get_available_tools (MCPServer.VInt 0))
           "update_customer" "data").
  - right. right. left. reflexivity.
  - reflexivity.
  - right. left. reflexivity.
  - reflexivity.
Defined.

(** ** The Data Agent *)

Lemma unwrap_call (tool_name : string) (p : MCPServer.tool_params) (w : world) :
  value_or_value_error
    (outcome (r <- MCPServer.call_tool tool_name p ;; CustomerDataAgent.unwrap r) w).
Proof.
  unfold outcome, bind.
  destruct (call_tool_returns tool_name p w) as (r & w' & E & _). rewrite E.
  now destruct r.
Qed.

(** X10. Whatever goes wrong below them, the methods of the Data Agent
    raise nothing but [ValueError]; so [validate_customer_exists], which
    catches [ValueError], always returns a truth value. *)
Theorem data_agent_raises_only_value_error (w : world) :
  (forall n, value_or_value_error (outcome (CustomerDataAgent.get_customer_info n) w)) /\
  (forall status limit,
      value_or_value_error (outcome (CustomerDataAgent.list_customers status limit) w)) /\
  (forall n updates,
      value_or_value_error
        (outcome (CustomerDataAgent.update_customer_info n updates) w)) /\
  (forall n,
      value_or_value_error (outcome (CustomerDataAgent.get_customer_history n) w)) /\
  value_or_value_error (outcome CustomerDataAgent.get_premium_customers w) /\
  (forall n, exists b,
      outcome (CustomerDataAgent.validate_customer_exists n) w = Ok b).
Proof.
  repeat split; intros; try apply unwrap_call.
  unfold CustomerDataAgent.validate_customer_exists, try_catch, try_except,
    outcome, bind at 1.
  pose proof (unwrap_call "get_customer"
                (MCPServer.mkToolParams (Some n) None None None None None) w) as H.
  unfold outcome in H. fold (CustomerDataAgent.get_customer_info n) in H.
  destruct (CustomerDataAgent.get_customer_info n w) as [[v|e] w1]; cbn.
  - now exists true.
  - destruct e; try contradiction. now exists false.
Qed.

Lemma get_customer_info_run (n : Z) (w : world) :
  CustomerDataAgent.get_customer_info n w =
  match fault (db w) with
  | Some msg => (Raise (ValueError msg), w)
  | None =>
      if CustomerDatabase.fits_int64 n then
        match find (CustomerDatabase.has_id n) (customers (db w)) with
        | Some c => (Ok (PCustomer c), w)
        | None => (Raise (ValueError ("Customer " ++ Py.str_of_Z n ++ " not found")), w)
        end
      else (Raise (ValueError "Python int too large to convert to SQLite INTEGER"), w)
  end.
Proof.
  unfold CustomerDataAgent.get_customer_info, MCPServer.call_tool.
  cbn [MCPServer.tool MCPServer.tools String.eqb Ascii.eqb Bool.eqb].
  unfold MCPServer.get_customer, MCPServer.required, CustomerDatabase.get_customer.
  cbn [MCPServer.tp_customer_id].
  unfold try_except, bind, ret. rewrite execute_one.
  destruct (fault (db w)); [reflexivity|].
  destruct (CustomerDatabase.fits_int64 n); [|reflexivity].
  destruct (find (CustomerDatabase.has_id n) (customers (db w))); reflexivity.
Qed.

(** X11. [validate_customer_exists] changes nothing and answers [True]
    exactly when the database works, the identifier fits 64 bits and some
    customer has it; a failing database reads as an unknown customer. *)
Theorem validate_customer_exists_iff_row_found (n : Z) (w : world) :
  exists b,
    CustomerDataAgent.validate_customer_exists n w = (Ok b, w) /\
    (b = true <->
     fault (db w) = None /\ CustomerDatabase.fits_int64 n = true /\
     exists c, In c (customers (db w)) /\ c_id c = n).
Proof.
  unfold CustomerDataAgent.validate_customer_exists, try_catch, try_except,
    bind at 1.
  rewrite get_customer_info_run.
  destruct (fault (db w)) as [msg|]; cbn.
  { exists false. split; [reflexivity|]. split; [discriminate|].
    intros (H & _). discriminate. }
  destruct (CustomerDatabase.fits_int64 n); cbn.
  2:{ exists false. split; [reflexivity|]. split; [discriminate|].
      intros (_ & H & _). discriminate. }
  destruct (find (CustomerDatabase.has_id n) (customers (db w))) as [c|] eqn:Hc; cbn.
  - exists true. split; [reflexivity|]. split; [|reflexivity].
    intros _. repeat split. exists c. apply find_some in Hc.
    destruct Hc as [Hin Hid]. unfold CustomerDatabase.has_id in Hid.
    now apply Z.eqb_eq in Hid.
  - exists false. split; [reflexivity|]. split; [discriminate|].
    intros (_ & _ & c & Hin & Hid).
    apply (find_none _ _ Hc) in Hin. unfold CustomerDatabase.has_id in Hin.
    apply Z.eqb_neq in Hin. congruence.
Qed.

Lemma list_customers_run (status : option string) (limit : Z) (w : world) :
  fault (db w) = None -> CustomerDatabase.fits_int64 limit = true ->
  CustomerDataAgent.list_customers status limit w
  = (Ok (PCustomers
           (CustomerDatabase.sql_limit limit (with_status status (customers (db w))))),
     w).
Proof.
  intros Hf Hl.
  unfold CustomerDataAgent.list_customers, MCPServer.call_tool.
  cbn [MCPServer.tool MCPServer.tools String.eqb Ascii.eqb Bool.eqb].
  unfold MCPServer.list_customers, CustomerDatabase.list_customers.
  cbn [MCPServer.tp_limit MCPServer.tp_status].
  unfold try_except, bind, ret. rewrite execute_one, Hf, Hl.
  destruct status as [[|c st]|]; reflexivity.
Qed.

Lemma sql_limit_prefix {A} (limit : Z) (rows : list A) :
  exists rest,
    (CustomerDatabase.sql_limit limit rows ++ rest)%list = rows /\
    if (limit <? 0)%Z then rest = []
    else List.length (CustomerDatabase.sql_limit limit rows)
         = Nat.min (Z.to_nat limit) (List.length rows).
Proof.
  unfold CustomerDatabase.sql_limit. destruct (limit <? 0)%Z.
  - exists []. now rewrite app_nil_r.
  - exists (skipn (Z.to_nat limit) rows). split.
    + apply firstn_skipn.
    + apply length_firstn.
Qed.

(** X12. The Data Agent's [list_customers] returns the first [limit] rows,
    in table order, of the customers with the asked status; no status or an
    empty one keeps every customer, and a negative limit keeps every row.
    [get_premium_customers] returns active customers only, the first hundred
    at most. *)
Theorem list_customers_takes_the_first_matching_rows (w : world) :
  fault (db w) = None ->
  (forall status limit,
      CustomerDatabase.fits_int64 limit = true ->
      exists l rest,
        CustomerDataAgent.list_customers status limit w = (Ok (PCustomers l), w) /\
        (l ++ rest)%list = with_status status (customers (db w)) /\
        if (limit <? 0)%Z then rest = []
        else List.length l
             = Nat.min (Z.to_nat limit)
                 (List.length (with_status status (customers (db w))))) /\
  (exists l rest,
      CustomerDataAgent.get_premium_customers w = (Ok (PCustomers l), w) /\
      (l ++ rest)%list
      = filter (fun c => String.eqb (c_status c) "active") (customers (db w)) /\
      List.length l <= 100).
Proof.
  intro Hf. split.
  - intros status limit Hl. rewrite list_customers_run by assumption.
    destruct (sql_limit_prefix limit (with_status status (customers (db w))))
      as (rest & E & Hlen).
    eexists. exists rest. split; [reflexivity|]. split; [exact E | exact Hlen].
  - unfold CustomerDataAgent.get_premium_customers.
    rewrite list_customers_run by (assumption || reflexivity).
    destruct (sql_limit_prefix 100%Z
                (with_status (Some "active") (customers (db w))))
      as (rest & E & Hlen).
    eexists. exists rest. split; [reflexivity|]. split; [exact E|].
    change (100 <? 0)%Z with false in Hlen. cbv iota in Hlen. rewrite Hlen.
    etransitivity; [apply Nat.le_min_l | now apply Nat.eq_le_incl].
Qed.

Lemma list_customers_takes_the_first_matching_rows_witness :
  exists l rest,
    CustomerDataAgent.get_premium_customers sample_world
    = (Ok (PCustomers l), sample_world) /\
    (l ++ rest)%list
    = filter (fun c => String.eqb (c_status c) "active")
        (customers (db sample_world)) /\
    List.length l <= 100.
Proof.
  exact (proj2
    (@list_customers_takes_the_first_matching_rows sample_world eq_refl)).
Defined.

(** ** The Support Agent *)

Lemma filter_none {A} (f : A -> bool) (l : list A) :
  Forall (fun x => f x = false) l -> filter f l = [].
Proof.
  induction 1 as [|x l Hx _ IH]; simpl; [reflexivity|]. now rewrite Hx.
Qed.

(** X13. The Support Agent takes as primary intent the first intent, in
    the order of its keyword table, of which the query holds a keyword,
    wherever in the query the keywords stand, and answers with the solution
    of that intent; a query that holds no keyword of the table has no intent
    and is asked for more details. *)
Theorem primary_intent_follows_declaration_order
    (query : string) (customer_data : option customer) :
  (forall before later intent keywords,
      SupportAgent.intent_keywords = (before ++ (intent, keywords) :: later)%list ->
      Forall (fun kv => Py.any_in (snd kv) (Py.lower query) = false) before ->
      Py.any_in keywords (Py.lower query) = true ->
      (exists others,
          sr_intents (SupportAgent.handle_support_query query customer_data)
          = intent :: others) /\
      sr_solution (SupportAgent.handle_support_query query customer_data)
      = SupportAgent.generate_solution intent customer_data) /\
  (Forall (fun kv => Py.any_in (snd kv) (Py.lower query) = false)
     SupportAgent.intent_keywords ->
   sr_intents (SupportAgent.handle_support_query query customer_data) = [] /\
   sr_solution (SupportAgent.handle_support_query query customer_data)
   = "I'm here to help. Could you provide more details about your issue?").
Proof.
  split.
  - intros before later intent keywords Hk Hb Hi.
    unfold SupportAgent.handle_support_query, SupportAgent.detect_multiple_intents.
    cbn [sr_intents sr_solution]. rewrite Hk, filter_app.
    rewrite (filter_none _ Hb). cbn [app filter snd]. rewrite Hi.
    cbn [map fst]. split; [eauto | reflexivity].
  - intro Hn.
    unfold SupportAgent.handle_support_query, SupportAgent.detect_multiple_intents.
    cbn [sr_intents sr_solution]. rewrite (filter_none _ Hn). split; reflexivity.
Qed.

Lemma primary_intent_follows_declaration_order_witness :
  (exists others,
      sr_intents (SupportAgent.handle_support_query
                    "Please cancel it, the billing is wrong" None)
      = "billing" :: others) /\
  sr_solution (SupportAgent.handle_support_query
                 "Please cancel it, the billing is wrong" None)
  = SupportAgent.generate_solution "billing" None.
Proof.
  apply (proj1 (primary_intent_follows_declaration_order
                  "Please cancel it, the billing is wrong" None)
           [] (tl SupportAgent.intent_keywords) "billing"
           ["billing"; "charged"; "payment"; "invoice"; "refund"]).
  - reflexivity.
  - constructor.
  - reflexivity.
Defined.




(** ** Requests that lack a parameter *)

(** X15. A request that lacks a parameter its action reads is answered
    with a failure whose error text is the quoted name of the missing key,
    and changes nothing. *)
Theorem request_without_its_parameter_fails_with_the_key
    (from : string) (ps : params) (w : world) :
  (p_customer_id ps = None ->
   forall act,
     In act ["get_customer"; "update_customer"; "get_history"; "validate_customer"] ->
     CustomerDataAgent.handle_request (mkRequest act ps from) w
     = (Ok (Failure CustomerDataAgent.name "'customer_id'"), w)) /\
  (p_customer_id ps <> None -> p_updates ps = None ->
   CustomerDataAgent.handle_request (mkRequest "update_customer" ps from) w
   = (Ok (Failure CustomerDataAgent.name "'updates'"), w)) /\
  (p_query ps = None ->
   forall act,
     In act ["handle_query"; "analyze_urgency"; "detect_intents"] ->
     SupportAgent.handle_request (mkRequest act ps from) w
     = (Ok (Failure SupportAgent.name "'query'"), w)) /\
  (p_customer_id ps = None ->
   SupportAgent.handle_request (mkRequest "create_ticket" ps from) w
   = (Ok (Failure SupportAgent.name "'customer_id'"), w)) /\
  (p_customer_id ps <> None -> p_issue ps = None ->
   SupportAgent.handle_request (mkRequest "create_ticket" ps from) w
   = (Ok (Failure SupportAgent.name "'issue'"), w)).
Proof.
  repeat split.
  - intros Hc act Hact. cbn in Hact.
    destruct Hact as [<-|[<-|[<-|[<-|[]]]]];
      unfold CustomerDataAgent.handle_request;
      cbn [action parameters String.eqb Ascii.eqb Bool.eqb];
      rewrite Hc; reflexivity.
  - intros Hc Hu. unfold CustomerDataAgent.handle_request.
    cbn [action parameters String.eqb Ascii.eqb Bool.eqb].
    destruct (p_customer_id ps); [|congruence]. rewrite Hu. reflexivity.
  - intros Hq act Hact. cbn in Hact.
    destruct Hact as [<-|[<-|[<-|[]]]];
      unfold SupportAgent.handle_request;
      cbn [action parameters String.eqb Ascii.eqb Bool.eqb];
      rewrite Hq; reflexivity.
  - intros Hc. unfold SupportAgent.handle_request.
    cbn [action parameters String.eqb Ascii.eqb Bool.eqb].
    rewrite Hc. reflexivity.
  - intros Hc Hi. unfold SupportAgent.handle_request.
    cbn [action parameters String.eqb Ascii.eqb Bool.eqb].
    destruct (p_customer_id ps); [|congruence]. rewrite Hi. reflexivity.
Qed.

Lemma request_without_its_parameter_fails_with_the_key_witness :
  CustomerDataAgent.handle_request (mkRequest "get_history" no_params "RouterAgent")
    sample_world
  = (Ok (Failure CustomerDataAgent.name "'customer_id'"), sample_world).
Proof.
  apply (proj1 (request_without_its_parameter_fails_with_the_key
                  "RouterAgent" no_params sample_world) eq_refl "get_history").
  right. right. left. reflexivity.
Defined.

(** ** What a query can change in the database *)

Section Keeps.
Variable I : database -> Prop.

Lemma keeps_ret {A} (a : A) : keeps I (ret a).
Proof. intros w H. exact H. Qed.

Lemma keeps_raise {A} (e : exn) : keeps I (@raise A e).
Proof. intros w H. exact H. Qed.

Lemma keeps_bind {A B} (m : M A) (k : A -> M B) :
  keeps I m -> (forall a, keeps I (k a)) -> keeps I (bind m k).
Proof.
  intros Hm Hk w H. specialize (Hm w H). unfold after, bind in *.
  destruct (m w) as [[a|e] w1]; cbn in *; [now apply Hk | exact Hm].
Qed.

Lemma keeps_bind_ret {A B} (a : A) (k : A -> M B) :
  keeps I (k a) -> keeps I (bind (ret a) k).
Proof. intros H w. exact (H w). Qed.

Lemma keeps_try_except {A} (m : M A) (h : exn -> M A) :
  keeps I m -> (forall e, keeps I (h e)) -> keeps I (try_except m h).
Proof.
  intros Hm Hh w H. specialize (Hm w H). unfold after, try_except in *.
  destruct (m w) as [[a|e] w1]; cbn in *; [exact Hm | now apply Hh].
Qed.

Lemma keeps_try_catch {A} (m : M A) (c : exn -> bool) (h : exn -> M A) :
  keeps I m -> (forall e, keeps I (h e)) -> keeps I (try_catch m c h).
Proof.
  intros Hm Hh. apply keeps_try_except; [exact Hm|].
  intro e. destruct (c e); [apply Hh | apply keeps_raise].
Qed.

Lemma keeps_get_db : keeps I get_db.
Proof. intros w H. exact H. Qed.

Lemma keeps_now : keeps I now.
Proof. intros w H. exact H. Qed.

Lemma keeps_append_log (e : log_entry) : keeps I (append_log e).
Proof. intros w H. exact H. Qed.

Lemma keeps_record_dispatch (d : dispatch) : keeps I (record_dispatch d).
Proof. intros w H. exact H. Qed.

Lemma keeps_item {A} (key : string) (v : option A) : keeps I (item key v).
Proof. destruct v; [apply keeps_ret | apply keeps_raise]. Qed.

Lemma keeps_for_each {A S} (body : A -> S -> M S) (xs : list A) :
  (forall x acc, keeps I (body x acc)) ->
  forall acc, keeps I (for_each xs acc body).
Proof.
  intro Hb. induction xs as [|x xs IH]; intro acc; simpl.
  - apply keeps_ret.
  - apply keeps_bind; [apply Hb | intro; apply IH].
Qed.

Lemma keeps_info (message : string) : keeps I (info message).
Proof. intros w H. exact H. Qed.

Lemma keeps_log_a2a (from_agent to_agent : string) (message : a2a_message) :
  keeps I (log_a2a_communication from_agent to_agent message).
Proof. intros w H. exact H. Qed.

Lemma keeps_clear_coordination_log : keeps I clear_coordination_log.
Proof. intros w H. exact H. Qed.

Lemma keeps_execute (ints : list Z) : keeps I (CustomerDatabase.execute ints).
Proof.
  unfold CustomerDatabase.execute.
  apply keeps_bind; [apply keeps_get_db | intro d].
  destruct (fault d); [apply keeps_raise|].
  apply keeps_bind; [|intro; apply keeps_ret].
  apply keeps_for_each. intros n _. unfold CustomerDatabase.bind_int.
  destruct (CustomerDatabase.fits_int64 n); [apply keeps_ret | apply keeps_raise].
Qed.

Lemma keeps_required {A} (tool_name arg : string) (v : option A) :
  keeps I (MCPServer.required tool_name arg v).
Proof. destruct v; [apply keeps_ret | apply keeps_raise]. Qed.

Lemma keeps_unwrap (r : MCPServer.tool_result) : keeps I (CustomerDataAgent.unwrap r).
Proof. destruct r; [apply keeps_ret | apply keeps_raise]. Qed.

End Keeps.

(** One step of a proof that an invariant is kept. *)
Ltac keeps_more := fail.

Ltac keeps_step :=
  match goal with
  | |- keeps _ _ => keeps_more
  | |- keeps _ (ret _) => apply keeps_ret
  | |- keeps _ (raise _) => apply keeps_raise
  | |- keeps _ (bind (ret _) _) => apply keeps_bind_ret
  | |- keeps _ (bind _ _) => apply keeps_bind; [|intros ?]
  | |- keeps _ (try_catch _ _ _) => apply keeps_try_catch; [|intros ?]
  | |- keeps _ (try_except _ _) => apply keeps_try_except; [|intros ?]
  | |- keeps _ (for_each _ _ _) => apply keeps_for_each; intros ? ?
  | |- keeps _ get_db => apply keeps_get_db
  | |- keeps _ now => apply keeps_now
  | |- keeps _ (item _ _) => apply keeps_item
  | |- keeps _ (info _) => apply keeps_info
  | |- keeps _ (log_a2a_communication _ _ _) => apply keeps_log_a2a
  | |- keeps _ (record_dispatch _) => apply keeps_record_dispatch
  | |- keeps _ (CustomerDatabase.execute _) => apply keeps_execute
  | |- keeps _ (MCPServer.required _ _ _) => apply keeps_required
  | |- keeps _ (CustomerDataAgent.unwrap _) => apply keeps_unwrap
  | |- keeps _ (result_of ?r) => destruct r; cbn [result_of]
  | |- keeps _ (error_of ?r) => destruct r; cbn [error_of]
  | |- keeps _ (as_customer ?v) => destruct v; cbn [as_customer]
  | |- keeps _ (as_customers ?v) => destruct v; cbn [as_customers]
  | |- keeps _ (as_tickets ?v) => destruct v; cbn [as_tickets]
  | |- keeps _ (solution_or _ ?v) => destruct v; cbn [solution_or]
  | |- keeps _ (solution_of ?v) => destruct v; cbn [solution_of]
  | |- keeps _ (wants_context ?v) => destruct v; cbn [wants_context]
  | |- keeps _ (if ?b then _ else _) => destruct b eqn:?
  | |- keeps _ (match ?x with _ => _ end) => destruct x
  end.

Ltac keeps_auto := repeat (keeps_step; cbv beta).

Section Reads.
Variable I : database -> Prop.

Lemma keeps_db_get_customer (n : Z) : keeps I (CustomerDatabase.get_customer n).
Proof. unfold CustomerDatabase.get_customer. keeps_auto. Qed.

Lemma keeps_db_list_customers (status : option string) (limit : Z) :
  keeps I (CustomerDatabase.list_customers status limit).
Proof. unfold CustomerDatabase.list_customers. keeps_auto. Qed.

Lemma keeps_db_get_customer_history (n : Z) :
  keeps I (CustomerDatabase.get_customer_history n).
Proof. unfold CustomerDatabase.get_customer_history. keeps_auto. Qed.

Lemma keeps_call (f : MCPServer.tool_params -> M payload) (p : MCPServer.tool_params) :
  keeps I (f p) ->
  keeps I (try_except (r <- f p ;; ret (MCPServer.ToolOk r))
             (fun e => ret (MCPServer.ToolError (str_exn e)))).
Proof. intro H. keeps_auto. exact H. Qed.

Lemma keeps_get_customer_info (n : Z) : keeps I (CustomerDataAgent.get_customer_info n).
Proof.
  unfold CustomerDataAgent.get_customer_info, MCPServer.call_tool.
  cbn [MCPServer.tool MCPServer.tools String.eqb Ascii.eqb Bool.eqb].
  apply keeps_bind; [|intro; apply keeps_unwrap].
  apply keeps_call. unfold MCPServer.get_customer.
  keeps_auto. apply keeps_db_get_customer.
Qed.

Lemma keeps_list_customers (status : option string) (limit : Z) :
  keeps I (CustomerDataAgent.list_customers status limit).
Proof.
  unfold CustomerDataAgent.list_customers, MCPServer.call_tool.
  cbn [MCPServer.tool MCPServer.tools String.eqb Ascii.eqb Bool.eqb].
  apply keeps_bind; [|intro; apply keeps_unwrap].
  apply keeps_call. unfold MCPServer.list_customers.
  apply keeps_bind; [apply keeps_db_list_customers | intro; apply keeps_ret].
Qed.

Lemma keeps_get_customer_history (n : Z) :
  keeps I (CustomerDataAgent.get_customer_history n).
Proof.
  unfold CustomerDataAgent.get_customer_history, MCPServer.call_tool.
  cbn [MCPServer.tool MCPServer.tools String.eqb Ascii.eqb Bool.eqb].
  apply keeps_bind; [|intro; apply keeps_unwrap].
  apply keeps_call. unfold MCPServer.get_customer_history.
  keeps_auto. apply keeps_db_get_customer_history.
Qed.

Lemma keeps_update_customer_info (n : Z) (updates : list (string * string)) :
  keeps I (CustomerDatabase.update_customer n updates) ->
  keeps I (CustomerDataAgent.update_customer_info n updates).
Proof.
  intro H.
  unfold CustomerDataAgent.update_customer_info, MCPServer.call_tool.
  cbn [MCPServer.tool MCPServer.tools String.eqb Ascii.eqb Bool.eqb].
  apply keeps_bind; [|intro; apply keeps_unwrap].
  apply keeps_call. unfold MCPServer.update_customer, MCPServer.required.
  cbn [MCPServer.tp_customer_id MCPServer.tp_data].
  do 2 apply keeps_bind_ret.
  apply keeps_bind; [exact H | intros [|]]; [|apply keeps_raise].
  apply keeps_bind; [apply keeps_db_get_customer | intro; apply keeps_ret].
Qed.

(** A request to the Data Agent keeps what the update it may ask for
    keeps. *)
Lemma keeps_data_handle_request (req : request) :
  (forall n updates,
      action req = "update_customer" ->
      p_customer_id (parameters req) = Some n ->
      p_updates (parameters req) = Some updates ->
      keeps I (CustomerDatabase.update_customer n updates)) ->
  keeps I (CustomerDataAgent.handle_request req).
Proof.
  intro Hup. unfold CustomerDataAgent.handle_request.
  apply keeps_try_except; [|intro; apply keeps_ret].
  apply keeps_bind; [|intro; apply keeps_ret].
  destruct (String.eqb (action req) "get_customer").
  { apply keeps_bind; [apply keeps_item | intro; apply keeps_get_customer_info]. }
  destruct (String.eqb (action req) "list_customers").
  { apply keeps_list_customers. }
  destruct (String.eqb_spec (action req) "update_customer") as [E|_].
  { destruct (p_customer_id (parameters req)) as [n|] eqn:Hn; [|apply keeps_raise].
    destruct (p_updates (parameters req)) as [u|] eqn:Hu; [|apply keeps_raise].
    cbn [item]. do 2 apply keeps_bind_ret.
    apply keeps_update_customer_info. now apply Hup. }
  destruct (String.eqb (action req) "get_history").
  { apply keeps_bind; [apply keeps_item | intro; apply keeps_get_customer_history]. }
  destruct (String.eqb (action req) "validate_customer").
  { apply keeps_bind; [apply keeps_item | intro].
    apply keeps_bind; [|intro; apply keeps_ret].
    unfold CustomerDataAgent.validate_customer_exists.
    apply keeps_try_catch; [|intro; apply keeps_ret].
    apply keeps_bind; [apply keeps_get_customer_info | intro; apply keeps_ret]. }
  destruct (String.eqb (action req) "get_premium_customers").
  { apply keeps_list_customers. }
  apply keeps_raise.
Qed.

Lemma keeps_route_to_data_agent (act : string) (ps : params) :
  (forall n updates,
      act = "update_customer" ->
      p_customer_id ps = Some n -> p_updates ps = Some updates ->
      keeps I (CustomerDatabase.update_customer n updates)) ->
  keeps I (route_to_data_agent act ps).
Proof.
  intro Hup. unfold route_to_data_agent.
  apply keeps_bind; [apply keeps_log_a2a | intros _].
  apply keeps_bind; [apply keeps_data_handle_request; exact Hup | intro resp].
  apply keeps_bind; [apply keeps_record_dispatch | intros _].
  apply keeps_bind; [apply keeps_log_a2a | intros _]. apply keeps_ret.
Qed.

Lemma keeps_handle_query (q : string) (ctx : option customer) :
  keeps I (route_to_support_agent "handle_query" (query_params q ctx)).
Proof. intros w H. exact H. Qed.

End Reads.

(** The guards met on the way to an update make the query one that
    requests it. *)
Ltac update_requested :=
  unfold requests_update;
  repeat match goal with
  | H : _ && _ = true |- _ => apply andb_true_iff in H; destruct H
  end;
  repeat match goal with
  | H : Py.contains _ _ = true |- _ => rewrite H
  end;
  repeat match goal with
  | |- context [Py.contains ?x ?y] => destruct (Py.contains x y)
  end;
  try reflexivity; try discriminate.

Section Strategies.
Variable I : database -> Prop.
Variables (q : string) (a : analysis).
Hypothesis update_kept :
  forall n f v,
    requests_update q = true -> customer_id a = Some n ->
    f = "email" \/ f = "phone" ->
    keeps I (CustomerDatabase.update_customer n [(f, v)]).

Ltac keeps_route :=
  match goal with
  | |- keeps _ (route_to_support_agent "handle_query" (query_params _ _)) =>
      apply keeps_handle_query
  | |- keeps _ (route_to_data_agent "update_customer" (update_params _ _ _)) =>
      apply keeps_route_to_data_agent;
      let Hn := fresh "Hn" in
      let Hu := fresh "Hu" in
      intros ? ? _ Hn Hu; cbn in Hn, Hu; injection Hu as <-;
      apply update_kept; [update_requested | exact Hn | auto]
  | |- keeps _ (route_to_data_agent _ _) =>
      apply keeps_route_to_data_agent; intros ? ? ? ? ?; discriminate
  end.

Ltac keeps_more ::= keeps_route.

Ltac keeps_known := fail.

Lemma keeps_show_history (cid : option Z) : keeps I (show_history cid).
Proof. unfold show_history. keeps_auto. Qed.

Lemma keeps_show_customer (cid : option Z) : keeps I (show_customer cid).
Proof. unfold show_customer. keeps_auto. Qed.

Ltac keeps_known ::=
  match goal with
  | |- keeps _ (show_history _) => apply keeps_show_history
  | |- keeps _ (show_customer _) => apply keeps_show_customer
  end.

Lemma keeps_handle_simple_query : keeps I (handle_simple_query q a).
Proof.
  unfold handle_simple_query, returning.
  repeat (first [keeps_known | keeps_step]; cbv beta).
Qed.

Lemma keeps_negotiate_between_agents : keeps I (negotiate_between_agents q a).
Proof. unfold negotiate_between_agents. keeps_auto. Qed.

Lemma keeps_synthesize (rs : responses) : keeps I (synthesize rs).
Proof. unfold synthesize. keeps_auto. Qed.

Ltac keeps_known ::=
  match goal with
  | |- keeps _ (show_history _) => apply keeps_show_history
  | |- keeps _ (show_customer _) => apply keeps_show_customer
  | |- keeps _ (negotiate_between_agents _ _) =>
      apply keeps_negotiate_between_agents
  | |- keeps _ (synthesize _) => apply keeps_synthesize
  end.

Lemma keeps_handle_complex_query : keeps I (handle_complex_query q a).
Proof.
  unfold handle_complex_query.
  repeat (first [keeps_known | keeps_step]; cbv beta).
Qed.

Lemma keeps_collect_tickets (priority_filter : option string) (cs : list customer) :
  keeps I (collect_tickets priority_filter cs).
Proof. unfold collect_tickets. keeps_auto. Qed.

Lemma keeps_collect_open (cs : list customer) : keeps I (collect_open cs).
Proof. unfold collect_open. keeps_auto. Qed.

Ltac keeps_known ::=
  match goal with
  | |- keeps _ (collect_tickets _ _) => apply keeps_collect_tickets
  | |- keeps _ (collect_open _) => apply keeps_collect_open
  end.

Lemma keeps_handle_multi_step_query : keeps I (handle_multi_step_query q a).
Proof.
  unfold handle_multi_step_query.
  repeat (first [keeps_known | keeps_step]; cbv beta).
Qed.

End Strategies.

Lemma keeps_after_analyze_query {A} (I : database -> Prop) (q : string)
    (k : analysis -> M A) :
  keeps I (k (classify q)) -> keeps I (bind (analyze_query q) k).
Proof.
  intros H w Hi. unfold after, bind.
  unfold analyze_query, info, log, bind, now, append_log, ret. cbn [fst snd].
  apply H. exact Hi.
Qed.

Lemma keeps_process_query (I : database -> Prop) (q : string) :
  (forall n f v,
      requests_update q = true -> customer_id (classify q) = Some n ->
      f = "email" \/ f = "phone" ->
      keeps I (CustomerDatabase.update_customer n [(f, v)])) ->
  keeps I (process_query q).
Proof.
  intro Hup. unfold process_query.
  do 3 (apply keeps_bind; [apply keeps_info | intros _]).
  apply keeps_after_analyze_query.
  apply keeps_bind.
  - destruct (complexity (classify q)).
    + now apply keeps_handle_simple_query.
    + now apply keeps_handle_complex_query.
    + now apply keeps_handle_multi_step_query.
  - intro resp.
    do 2 (apply keeps_bind; [apply keeps_info | intros _]). apply keeps_ret.
Qed.

(** X16. A query that does not ask for an update (it does not hold
    "update" beside "email" or "phone", nor "change" beside "email") leaves
    the database exactly as it was. *)
Theorem process_query_writes_only_when_asked_to_update (q : string) (w : world) :
  requests_update q = false ->
  db (after (process_query q) w) = db w.
Proof.
  intro Hq.
  apply (@keeps_process_query (fun d => d = db w) q); [|reflexivity].
  intros n f v Hr. congruence.
Qed.

Lemma process_query_writes_only_when_asked_to_update_witness :
  db (after (process_query "Show me all active customers who have open tickets")
        sample_world)
  = db sample_world.
Proof.
  exact (@process_query_writes_only_when_asked_to_update
           "Show me all active customers who have open tickets" sample_world
           eq_refl).
Defined.

Lemma customer_id_if (b : bool) (x y : analysis) :
  customer_id (if b then x else y) = if b then customer_id x else customer_id y.
Proof. now destruct b. Qed.

Lemma if_same {A} (b : bool) (x : A) : (if b then x else x) = x.
Proof. now destruct b. Qed.

Lemma customer_id_classify (q : string) :
  customer_id (classify q) = extract_customer_id q.
Proof.
  unfold classify, add_intent. cbv zeta.
  repeat (rewrite customer_id_if;
          cbn [customer_id coordinate mark_data mark_support]).
  now rewrite !if_same.
Qed.

Lemma update_customer_effect (n : Z) (data : list (string * string)) (w : world) :
  db (after (CustomerDatabase.update_customer n data) w) = db w \/
  exists stamp,
    db (after (CustomerDatabase.update_customer n data) w)
    = mkDatabase
        (map (fun c => if CustomerDatabase.has_id n c
                       then CustomerDatabase.set_fields data stamp c else c)
           (customers (db w)))
        (tickets (db w)) (fault (db w)).
Proof.
  destruct (update_fields data) as [|f fs] eqn:Hd.
  { left. unfold after. now rewrite update_customer_nothing. }
  destruct (fault (db w)) as [msg|] eqn:Hf.
  { left. eapply update_customer_fault; eauto. }
  destruct (CustomerDatabase.fits_int64 n) eqn:Hn.
  - right. exists (clock w (ticks w)). unfold after.
    rewrite update_customer_run by (assumption || congruence).
    cbn [snd db]. now rewrite Hf.
  - left. unfold after, CustomerDatabase.update_customer.
    fold (update_fields data). rewrite Hd.
    unfold try_catch, try_except, bind, now. rewrite execute_one. cbn [db].
    now rewrite Hf, Hn.
Qed.

Lemma same_but_contact_refl (n : option Z) (c : customer) :
  same_but_contact n c c.
Proof. repeat split. Qed.

Lemma contact_update_of_refl (n : option Z) (d : database) :
  contact_update_of n d d.
Proof.
  repeat split. induction (customers d); constructor;
    [apply same_but_contact_refl | assumption].
Qed.

Lemma contact_update_step (n : Z) (f v stamp : string) (c0 c : customer) :
  f = "email" \/ f = "phone" ->
  same_but_contact (Some n) c0 c ->
  same_but_contact (Some n) c0
    (if CustomerDatabase.has_id n c
     then CustomerDatabase.set_fields [(f, v)] stamp c else c).
Proof.
  intros Hf (Hid & Hname & Hstatus & Hcreated & Hsame).
  unfold CustomerDatabase.has_id.
  destruct (c_id c =? n)%Z eqn:E.
  - apply Z.eqb_eq in E.
    repeat split.
    + exact Hid.
    + destruct Hf as [-> | ->]; exact Hname.
    + destruct Hf as [-> | ->]; exact Hstatus.
    + exact Hcreated.
    + intro Hne. exfalso. apply Hne. congruence.
  - repeat split; assumption.
Qed.

(** X17. Whatever the query, [process_query] leaves the tickets alone,
    adds and removes no customer, and changes no identifier, name, status or
    creation time; only the customer whose identifier the query names can
    change at all (in email, phone and time of update). *)
Theorem process_query_changes_contact_data_only (q : string) (w : world) :
  contact_update_of (extract_customer_id q) (db w)
    (db (after (process_query q) w)).
Proof.
  apply (@keeps_process_query
           (contact_update_of (extract_customer_id q) (db w)) q);
    [|apply contact_update_of_refl].
  intros n f v _ Hn Hf w1 (Ht & Hfault & Hrows).
  rewrite customer_id_classify in Hn. rewrite Hn in *.
  destruct (update_customer_effect n [(f, v)] w1) as [-> | [stamp ->]].
  - repeat split; assumption.
  - cbn [tickets fault customers]. repeat split; try assumption.
    clear Ht Hfault.
    induction Hrows as [|c0 c l0 l Hc _ IH]; cbn [map]; constructor;
      [now apply contact_update_step | exact IH].
Qed.

(** ** [extract_customer_id]: what the patterns can and cannot yield *)

Lemma lower_char_not_upper (c : ascii) : Py.is_upper (Py.lower_char c) = false.
Proof. destruct c as [[] [] [] [] [] [] [] []]; vm_compute; reflexivity. Qed.

Lemma lower_no_upper (s : string) :
  all_chars (fun c => negb (Py.is_upper c)) (Py.lower s) = true.
Proof.
  unfold Py.lower. induction s as [|c s IH]; simpl; [reflexivity|].
  now rewrite lower_char_not_upper, IH.
Qed.

(** A pattern that opens with a word boundary and a capital letter finds
    nothing in a text without capitals. *)
Lemma capital_not_found (c : ascii) (l : string) (r : regex) :
  Py.is_upper c = true ->
  forall s prev,
    all_chars (fun c => negb (Py.is_upper c)) s = true ->
    search_from (Cat WordBoundary (Cat (Lit (String c l)) r)) prev s = None.
Proof.
  intros Hc. induction s as [|x s IH]; intros prev Hs;
    rewrite search_from_unfold; unfold match_at; cbn [run strip_prefix].
  - now destruct (xorb _ _).
  - simpl in Hs. apply andb_true_iff in Hs. destruct Hs as [Hx Hs].
    assert (E : Ascii.eqb c x = false).
    { destruct (Ascii.eqb_spec c x) as [->|]; [|reflexivity].
      rewrite Hc in Hx. discriminate. }
    rewrite E. destruct (xorb _ _); now apply IH.
Qed.

Lemma int_acc_nonnegative (s : string) :
  forall acc, (0 <= acc)%Z -> (0 <= Py.int_acc acc s)%Z.
Proof.
  induction s as [|c s IH]; cbn [Py.int_acc]; intros acc H; [exact H|].
  apply IH. unfold Py.digit_val. lia.
Qed.

Lemma first_match_nonnegative (ps : list regex) (text : string) (n : Z) :
  first_match ps text = Some n -> (0 <= n)%Z.
Proof.
  induction ps as [|p ps IH]; simpl; [discriminate|].
  destruct (Re.search p text) as [m|]; [|exact IH].
  destruct (group1 m); [|discriminate].
  intro H. injection H as <-. now apply int_acc_nonnegative.
Qed.

(** X18. The fourth identifier pattern opens with a capital letter and
    is searched in the lowercased query, so it never matches: the first
    three patterns decide.  An extracted identifier is never negative. *)
Theorem fourth_pattern_never_matches (query : string) :
  Re.search im_customer_pattern (Py.lower query) = None /\
  extract_customer_id query
  = first_match [customer_id_pattern; id_pattern; customer_pattern]
      (Py.lower query) /\
  (forall n, extract_customer_id query = Some n -> (0 <= n)%Z).
Proof.
  assert (Hdead : Re.search im_customer_pattern (Py.lower query) = None).
  { unfold Re.search, im_customer_pattern. cbn [seq].
    apply capital_not_found; [reflexivity | apply lower_no_upper]. }
  split; [exact Hdead|]. split.
  - unfold extract_customer_id, patterns. cbn [first_match].
    rewrite Hdead. reflexivity.
  - intros n H. eapply first_match_nonnegative. exact H.
Qed.

Lemma fourth_pattern_never_matches_witness : (0 <= 42)%Z.
Proof.
  apply (proj2 (proj2 (fourth_pattern_never_matches "I'm customer 42"))).
  reflexivity.
Defined.
(** * The router under the limit on [int] *)



(** ** The captured group is a piece of the text *)









(** ** The entry point under the limit *)









(** * Strategies and the customer identifier *)

(** X19. The strategies test the customer identifier for truth, so the
    identifier 0 is treated as no identifier at all: each strategy and the
    negotiation run on the analysis of "customer 0" exactly as they run on
    the same analysis without an identifier. *)
Theorem customer_id_zero_is_no_customer_id (q : string) (a : analysis) (w : world) :
  customer_id a = Some 0%Z ->
  handle_simple_query q a w = handle_simple_query q (without_customer_id a) w /\
  handle_complex_query q a w = handle_complex_query q (without_customer_id a) w /\
  handle_multi_step_query q a w
  = handle_multi_step_query q (without_customer_id a) w /\
  negotiate_between_agents q a w
  = negotiate_between_agents q (without_customer_id a) w.
Proof.
  intro H.
  unfold handle_simple_query, handle_complex_query, handle_multi_step_query,
    negotiate_between_agents, returning.
  cbn [without_customer_id customer_id needs_support_agent].
  rewrite H. cbn [truthy Z.eqb negb].
  rewrite !andb_false_r. cbn [andb].
  repeat split.
Qed.

Lemma customer_id_zero_is_no_customer_id_witness :
  handle_simple_query "customer 0 cannot login"
    (classify "customer 0 cannot login") sample_world
  = handle_simple_query "customer 0 cannot login"
      (without_customer_id (classify "customer 0 cannot login")) sample_world.
Proof.
  exact (proj1
    (@customer_id_zero_is_no_customer_id "customer 0 cannot login"
       (classify "customer 0 cannot login") sample_world eq_refl)).
Defined.

Lemma runs_negotiate_between_agents (q : string) (a : analysis) :
  runs (fun _ => True) (negotiate_between_agents q a) (negotiated q a).
Proof.
  unfold negotiate_between_agents, negotiated.
  runs_step.
  destruct (needs_support_agent a); [|runs_step; split; reflexivity].
  do 2 runs_step.
  cbn [success result_of wants_context].
  do 3 runs_step.
  cbn [sr_needs_customer_context SupportAgent.handle_support_query].
  destruct (SupportAgent.needs_customer_context q); cbn [andb];
    [|runs_step; repeat split].
  runs_step.
  destruct (truthy (customer_id a)); [|runs_step; repeat split].
  repeat runs_step.
  all: split; [reflexivity|]; eexists; split; [reflexivity|];
    split; reflexivity.
Qed.

(** X20. A negotiation always returns, writes nothing to the database and
    dispatches in a fixed order: nothing when the query does not need the
    Support Agent; else [handle_query] to the Support Agent, then, when the
    query wants customer context and carries an identifier, [get_customer]
    to the Data Agent and, if that found the customer, [handle_query] again
    with the customer's data. *)
Theorem negotiation_asks_support_then_data_then_support
    (q : string) (a : analysis) (w : world) :
  exists rs w' ds,
    negotiate_between_agents q a w = (Ok rs, w') /\
    dispatches w' = (dispatches w ++ ds)%list /\
    db w' = db w /\
    negotiated q a rs ds.
Proof.
  destruct (runs_negotiate_between_agents q a w I)
    as (rs & w' & l & ds & E & (_ & _ & Hd & _) & _ & H).
  exists rs, w', ds. repeat split; try assumption.
  pose proof (@keeps_negotiate_between_agents (fun d => d = db w) q a w eq_refl)
    as Hk.
  unfold after in Hk. now rewrite E in Hk.
Qed.
